(** * momentum: the rebalancing script (rebalance.py)

    A shallow embedding of the curve evaluator [compute_mult], the percentage
    formatter [fmt_pct] and the skill-file patcher [process_skill_file] of
    rebalance.py, together with the properties the specification states
    about them.

    Python floats are IEEE 754 binary64 numbers.  They are modelled by the
    Standard Library's [spec_float] at precision 53 and maximal exponent
    1024, whose operations are the executable specification of binary64
    arithmetic (round to nearest, ties to even).  Python integers are [Z].
    A [str] is a list of Unicode code points; a document is a list of
    lines, updated in place by index. *)

From Stdlib Require Import ZArith List Ascii String Bool Lia.
From Stdlib Require Import Floats.SpecFloat.
From Stdlib Require Import DecimalString.
From stdpp Require Import base list.

Open Scope Z_scope.

(** ** Outcomes of Python code: a value or a raised exception *)

Inductive pyexn :=
  OverflowError | ZeroDivisionError | ValueError | IndexError.

Inductive result (A : Type) :=
| Ok (a : A)
| Raise (e : pyexn).
Arguments Ok {A} a.
Arguments Raise {A} e.

Definition bind {A B} (r : result A) (k : A -> result B) : result B :=
  match r with
  | Ok a => k a
  | Raise e => Raise e
  end.

Notation "'do' x <- r ; k" := (bind r (fun x => k))
  (at level 10, x name, r at level 100, k at level 200).

(** ** Binary64 arithmetic *)

Module F64.

Definition prec : Z := 53.
Definition emax : Z := 1024.

Definition float := spec_float.

Definition add : float -> float -> float := SFadd prec emax.
Definition sub : float -> float -> float := SFsub prec emax.
Definition mul : float -> float -> float := SFmul prec emax.
Definition opp : float -> float := SFopp.
Definition abs : float -> float := SFabs.
Definition ltb : float -> float -> bool := SFltb.
Definition leb : float -> float -> bool := SFleb.
Definition eqb : float -> float -> bool := SFeqb.

(** The double nearest to the rational [n / d], for [0 <= n] and [0 < d],
    with sign [s]: the quotient is computed to full precision with its
    rounding location and then rounded to nearest even.  A quotient too
    large for a double gives an infinity. *)
Definition of_ratio (s : bool) (n d : Z) : float :=
  match n with
  | Z0 => S754_zero s
  | _ =>
      let '(mz, ez, lz) := SFdiv_core_binary prec emax n 0 d 0 in
      binary_round_aux prec emax s mz ez lz
  end.

(** A float literal of the source with [k] digits after the point:
    [dec n k] is the double Python reads for the decimal [n / 10^k]. *)
Definition dec (n : Z) (k : Z) : float := of_ratio false n (10 ^ k).

(** [int(x)] of an integer-valued use: a Python [int] converted to float
    (exact for the small constants of this program). *)
Definition of_int (n : Z) : float :=
  match n with
  | Z0 => S754_zero false
  | Zpos _ => of_ratio false n 1
  | Zneg _ => of_ratio true (- n) 1
  end.

Definition is_inf (x : float) : bool :=
  match x with S754_infinity _ => true | _ => false end.

(** [a / b] on Python integers (true division): the correctly rounded
    quotient; [ZeroDivisionError] for [b = 0], [OverflowError] when the
    rounded quotient is beyond the largest double. *)
Definition int_truediv (a b : Z) : result float :=
  if b =? 0 then Raise ZeroDivisionError
  else
    let s := xorb (a <? 0) (b <? 0) in
    let q := of_ratio s (Z.abs a) (Z.abs b) in
    if is_inf q then Raise OverflowError else Ok q.

(** The integer nearest to [n / d] ([0 <= n], [0 < d]), ties to even. *)
Definition div_half_even (n d : Z) : Z :=
  let q := n / d in
  let r := n mod d in
  match 2 * r ?= d with
  | Lt => q
  | Gt => q + 1
  | Eq => if Z.even q then q else q + 1
  end.

(** The integer nearest to [|x| * 10^nd] for a finite [x = m * 2^e], ties to
    even: the digits a correctly rounded decimal conversion of [x] to [nd]
    places produces. *)
Definition scaled_digits (m : positive) (e : Z) (nd : Z) : Z :=
  match e with
  | Zneg p => div_half_even (Zpos m * 10 ^ nd) (2 ^ Zpos p)
  | _ => Zpos m * 2 ^ e * 10 ^ nd
  end.

(** [round(x, nd)] for [0 <= nd]: the decimal nearest to [x] with [nd]
    places, read back as a double; zeros, infinities and NaN are returned
    as they are. *)
Definition round (x : float) (nd : Z) : float :=
  match x with
  | S754_finite s m e =>
      let k := scaled_digits m e nd in
      if k =? 0 then S754_zero s else of_ratio s k (10 ^ nd)
  | _ => x
  end.

(** [max(a, b)] and [min(a, b)] of Python: the first argument is kept
    unless the second is strictly greater (strictly smaller). *)
Definition max (a b : float) : float := if ltb a b then b else a.
Definition min (a b : float) : float := if ltb b a then b else a.

End F64.

Abbreviation float := F64.float.

(** ** The progression curves *)

Definition curve := (float * float)%type.

(** [CURVES]: target name to (base at row 0, top at row 17). *)
Definition CURVES : list (string * curve) :=
  [ ("allIncome"%string,          (F64.dec 1 2, F64.dec 3 2));
    ("businessRevenue"%string,    (F64.dec 2 2, F64.dec 6 2));
    ("customerAttraction"%string, (F64.dec 3 2, F64.dec 8 2));
    ("jobEfficiency"%string,      (F64.dec 5 2, F64.dec 14 2));
    ("costReduction"%string,      (F64.dec 2 2, F64.dec 6 2));
    ("stockReturn"%string,        (F64.dec 3 2, F64.dec 8 2));
    ("cryptoReturn"%string,       (F64.dec 3 2, F64.dec 9 2));
    ("realEstateRent"%string,     (F64.dec 3 2, F64.dec 9 2));
    ("gamblingLuck"%string,       (F64.dec 2 2, F64.dec 6 2));
    ("offlineEfficiency"%string,  (F64.dec 3 2, F64.dec 9 2));
    ("xpGain"%string,             (F64.dec 3 2, F64.dec 8 2));
    ("prestigeGain"%string,       (F64.dec 2 2, F64.dec 6 2));
    ("loanRate"%string,           (F64.dec 2 2, F64.dec 6 2));
    ("depositRate"%string,        (F64.dec 5 2, F64.dec 12 2)) ].

Definition NEGATIVE_TARGETS : list string :=
  [ "costReduction"%string; "loanRate"%string ].

Definition MAX_ROW : Z := 17.

(** Dictionary lookup and set membership on names. *)
Fixpoint lookup_name {A} (k : string) (d : list (string * A)) : option A :=
  match d with
  | [] => None
  | (k', v) :: d' => if String.eqb k k' then Some v else lookup_name k d'
  end.

Definition mem_name (k : string) (s : list string) : bool :=
  existsb (String.eqb k) s.

(** The literals of [compute_mult]. *)
Definition f_1_0 : float := F64.dec 10 1.
Definition f_1_5 : float := F64.dec 15 1.
Definition f_2_0 : float := F64.dec 20 1.
Definition f_0_01 : float := F64.dec 1 2.

(** [t = min(row / MAX_ROW, 1.0)]. *)
Definition interp_fraction (row : Z) : result float :=
  do q <- F64.int_truediv row MAX_ROW;
  Ok (F64.min q f_1_0).

(** [m = base + (top - base) * t]. *)
Definition interpolate (c : curve) (t : float) : float :=
  let '(base, top) := c in
  F64.add base (F64.mul (F64.sub top base) t).

(** The checkpoint branch:
    [if row in (8, 12, 16): m *= 1.5  elif row == 17: m *= 2.0]. *)
Definition checkpoint (row : Z) (m : float) : float :=
  if (row =? 8) || (row =? 12) || (row =? 16) then F64.mul m f_1_5
  else if row =? 17 then F64.mul m f_2_0
  else m.

(** [m = round(m, 2); m = max(0.01, m)]. *)
Definition round_floor (m : float) : float :=
  F64.max f_0_01 (F64.round m 2).

(** The sign: [if target in NEGATIVE_TARGETS: m = -m]. *)
Definition apply_sign (target : string) (m : float) : float :=
  if mem_name target NEGATIVE_TARGETS then F64.opp m else m.

(** [compute_mult(row, target)]: [Ok None] is Python's [None]. *)
Definition compute_mult (row : Z) (target : string) : result (option float) :=
  match lookup_name target CURVES with
  | None => Ok None
  | Some c =>
      do t <- interp_fraction row;
      let m := interpolate c t in
      let m := checkpoint row m in
      let m := round_floor m in
      Ok (Some (apply_sign target m))
  end.

(** ** Text, character classes and the regular expressions of the patcher

    A Python [str] is a sequence of Unicode code points, and so is a line
    here.  The patterns of the source are [str] patterns compiled without
    flags, so their classes are the Unicode ones: [\s] is [str.isspace],
    [\d] is [str.isdecimal], and [\w] is [str.isalnum] or the underscore.
    The tables below are these classes for Unicode 14.0.0, the database of
    CPython 3.11. *)

Definition char := N.
Definition text := list char.

(** The code point of an ASCII character, and the text of an ASCII
    literal. *)
Definition ch (a : ascii) : char := N_of_ascii a.
Definition tx (s : string) : text := map ch (list_ascii_of_string s).

Definition in_ranges (rs : list (N * N)) (c : char) : bool :=
  existsb (fun r => (fst r <=? c) && (c <=? snd r))%N rs.

(** The white space of [\s]. *)
Definition SPACE_RANGES : list (N * N) :=
  (
  [ (9, 13); (28, 32); (133, 133); (160, 160); (5760, 5760); (8192, 8202);
    (8232, 8233); (8239, 8239); (8287, 8287); (12288, 12288) ]
  )%N.

(** The digit zero of every set of decimal digits; the digits of a set are
    the ten code points from its zero on, in order of value. *)
Definition DIGIT_ZEROS : list N :=
  (
  [ 48; 1632; 1776; 1984; 2406; 2534; 2662; 2790; 2918; 3046; 3174; 3302;
    3430; 3558; 3664; 3792; 3872; 4160; 4240; 6112; 6160; 6470; 6608; 6784;
    6800; 6992; 7088; 7232; 7248; 42528; 43216; 43264; 43472; 43504; 43600;
    44016; 65296; 66720; 68912; 69734; 69872; 69942; 70096; 70384; 70736;
    70864; 71248; 71360; 71472; 71904; 72016; 72784; 73040; 73120; 92768;
    92864; 93008; 120782; 120792; 120802; 120812; 120822; 123200; 123632;
    125264; 130032 ]
  )%N.

Definition DIGIT_RANGES : list (N * N) :=
  map (fun z => (z, z + 9)%N) DIGIT_ZEROS.

(** The word characters of [\w]. *)
Definition WORD_RANGES : list (N * N) :=
  (
  [ (48, 57); (65, 90); (95, 95); (97, 122); (170, 170); (178, 179);
    (181, 181); (185, 186); (188, 190); (192, 214); (216, 246); (248, 705);
    (710, 721); (736, 740); (748, 748); (750, 750); (880, 884); (886, 887);
    (890, 893); (895, 895); (902, 902); (904, 906); (908, 908); (910, 929);
    (931, 1013); (1015, 1153); (1162, 1327); (1329, 1366); (1369, 1369);
    (1376, 1416); (1488, 1514); (1519, 1522); (1568, 1610); (1632, 1641);
    (1646, 1647); (1649, 1747); (1749, 1749); (1765, 1766); (1774, 1788);
    (1791, 1791); (1808, 1808); (1810, 1839); (1869, 1957); (1969, 1969);
    (1984, 2026); (2036, 2037); (2042, 2042); (2048, 2069); (2074, 2074);
    (2084, 2084); (2088, 2088); (2112, 2136); (2144, 2154); (2160, 2183);
    (2185, 2190); (2208, 2249); (2308, 2361); (2365, 2365); (2384, 2384);
    (2392, 2401); (2406, 2415); (2417, 2432); (2437, 2444); (2447, 2448);
    (2451, 2472); (2474, 2480); (2482, 2482); (2486, 2489); (2493, 2493);
    (2510, 2510); (2524, 2525); (2527, 2529); (2534, 2545); (2548, 2553);
    (2556, 2556); (2565, 2570); (2575, 2576); (2579, 2600); (2602, 2608);
    (2610, 2611); (2613, 2614); (2616, 2617); (2649, 2652); (2654, 2654);
    (2662, 2671); (2674, 2676); (2693, 2701); (2703, 2705); (2707, 2728);
    (2730, 2736); (2738, 2739); (2741, 2745); (2749, 2749); (2768, 2768);
    (2784, 2785); (2790, 2799); (2809, 2809); (2821, 2828); (2831, 2832);
    (2835, 2856); (2858, 2864); (2866, 2867); (2869, 2873); (2877, 2877);
    (2908, 2909); (2911, 2913); (2918, 2927); (2929, 2935); (2947, 2947);
    (2949, 2954); (2958, 2960); (2962, 2965); (2969, 2970); (2972, 2972);
    (2974, 2975); (2979, 2980); (2984, 2986); (2990, 3001); (3024, 3024);
    (3046, 3058); (3077, 3084); (3086, 3088); (3090, 3112); (3114, 3129);
    (3133, 3133); (3160, 3162); (3165, 3165); (3168, 3169); (3174, 3183);
    (3192, 3198); (3200, 3200); (3205, 3212); (3214, 3216); (3218, 3240);
    (3242, 3251); (3253, 3257); (3261, 3261); (3293, 3294); (3296, 3297);
    (3302, 3311); (3313, 3314); (3332, 3340); (3342, 3344); (3346, 3386);
    (3389, 3389); (3406, 3406); (3412, 3414); (3416, 3425); (3430, 3448);
    (3450, 3455); (3461, 3478); (3482, 3505); (3507, 3515); (3517, 3517);
    (3520, 3526); (3558, 3567); (3585, 3632); (3634, 3635); (3648, 3654);
    (3664, 3673); (3713, 3714); (3716, 3716); (3718, 3722); (3724, 3747);
    (3749, 3749); (3751, 3760); (3762, 3763); (3773, 3773); (3776, 3780);
    (3782, 3782); (3792, 3801); (3804, 3807); (3840, 3840); (3872, 3891);
    (3904, 3911); (3913, 3948); (3976, 3980); (4096, 4138); (4159, 4169);
    (4176, 4181); (4186, 4189); (4193, 4193); (4197, 4198); (4206, 4208);
    (4213, 4225); (4238, 4238); (4240, 4249); (4256, 4293); (4295, 4295);
    (4301, 4301); (4304, 4346); (4348, 4680); (4682, 4685); (4688, 4694);
    (4696, 4696); (4698, 4701); (4704, 4744); (4746, 4749); (4752, 4784);
    (4786, 4789); (4792, 4798); (4800, 4800); (4802, 4805); (4808, 4822);
    (4824, 4880); (4882, 4885); (4888, 4954); (4969, 4988); (4992, 5007);
    (5024, 5109); (5112, 5117); (5121, 5740); (5743, 5759); (5761, 5786);
    (5792, 5866); (5870, 5880); (5888, 5905); (5919, 5937); (5952, 5969);
    (5984, 5996); (5998, 6000); (6016, 6067); (6103, 6103); (6108, 6108);
    (6112, 6121); (6128, 6137); (6160, 6169); (6176, 6264); (6272, 6276);
    (6279, 6312); (6314, 6314); (6320, 6389); (6400, 6430); (6470, 6509);
    (6512, 6516); (6528, 6571); (6576, 6601); (6608, 6618); (6656, 6678);
    (6688, 6740); (6784, 6793); (6800, 6809); (6823, 6823); (6917, 6963);
    (6981, 6988); (6992, 7001); (7043, 7072); (7086, 7141); (7168, 7203);
    (7232, 7241); (7245, 7293); (7296, 7304); (7312, 7354); (7357, 7359);
    (7401, 7404); (7406, 7411); (7413, 7414); (7418, 7418); (7424, 7615);
    (7680, 7957); (7960, 7965); (7968, 8005); (8008, 8013); (8016, 8023);
    (8025, 8025); (8027, 8027); (8029, 8029); (8031, 8061); (8064, 8116);
    (8118, 8124); (8126, 8126); (8130, 8132); (8134, 8140); (8144, 8147);
    (8150, 8155); (8160, 8172); (8178, 8180); (8182, 8188); (8304, 8305);
    (8308, 8313); (8319, 8329); (8336, 8348); (8450, 8450); (8455, 8455);
    (8458, 8467); (8469, 8469); (8473, 8477); (8484, 8484); (8486, 8486);
    (8488, 8488); (8490, 8493); (8495, 8505); (8508, 8511); (8517, 8521);
    (8526, 8526); (8528, 8585); (9312, 9371); (9450, 9471); (10102, 10131);
    (11264, 11492); (11499, 11502); (11506, 11507); (11517, 11517);
    (11520, 11557); (11559, 11559); (11565, 11565); (11568, 11623);
    (11631, 11631); (11648, 11670); (11680, 11686); (11688, 11694);
    (11696, 11702); (11704, 11710); (11712, 11718); (11720, 11726);
    (11728, 11734); (11736, 11742); (11823, 11823); (12293, 12295);
    (12321, 12329); (12337, 12341); (12344, 12348); (12353, 12438);
    (12445, 12447); (12449, 12538); (12540, 12543); (12549, 12591);
    (12593, 12686); (12690, 12693); (12704, 12735); (12784, 12799);
    (12832, 12841); (12872, 12879); (12881, 12895); (12928, 12937);
    (12977, 12991); (13312, 19903); (19968, 42124); (42192, 42237);
    (42240, 42508); (42512, 42539); (42560, 42606); (42623, 42653);
    (42656, 42735); (42775, 42783); (42786, 42888); (42891, 42954);
    (42960, 42961); (42963, 42963); (42965, 42969); (42994, 43009);
    (43011, 43013); (43015, 43018); (43020, 43042); (43056, 43061);
    (43072, 43123); (43138, 43187); (43216, 43225); (43250, 43255);
    (43259, 43259); (43261, 43262); (43264, 43301); (43312, 43334);
    (43360, 43388); (43396, 43442); (43471, 43481); (43488, 43492);
    (43494, 43518); (43520, 43560); (43584, 43586); (43588, 43595);
    (43600, 43609); (43616, 43638); (43642, 43642); (43646, 43695);
    (43697, 43697); (43701, 43702); (43705, 43709); (43712, 43712);
    (43714, 43714); (43739, 43741); (43744, 43754); (43762, 43764);
    (43777, 43782); (43785, 43790); (43793, 43798); (43808, 43814);
    (43816, 43822); (43824, 43866); (43868, 43881); (43888, 44002);
    (44016, 44025); (44032, 55203); (55216, 55238); (55243, 55291);
    (63744, 64109); (64112, 64217); (64256, 64262); (64275, 64279);
    (64285, 64285); (64287, 64296); (64298, 64310); (64312, 64316);
    (64318, 64318); (64320, 64321); (64323, 64324); (64326, 64433);
    (64467, 64829); (64848, 64911); (64914, 64967); (65008, 65019);
    (65136, 65140); (65142, 65276); (65296, 65305); (65313, 65338);
    (65345, 65370); (65382, 65470); (65474, 65479); (65482, 65487);
    (65490, 65495); (65498, 65500); (65536, 65547); (65549, 65574);
    (65576, 65594); (65596, 65597); (65599, 65613); (65616, 65629);
    (65664, 65786); (65799, 65843); (65856, 65912); (65930, 65931);
    (66176, 66204); (66208, 66256); (66273, 66299); (66304, 66339);
    (66349, 66378); (66384, 66421); (66432, 66461); (66464, 66499);
    (66504, 66511); (66513, 66517); (66560, 66717); (66720, 66729);
    (66736, 66771); (66776, 66811); (66816, 66855); (66864, 66915);
    (66928, 66938); (66940, 66954); (66956, 66962); (66964, 66965);
    (66967, 66977); (66979, 66993); (66995, 67001); (67003, 67004);
    (67072, 67382); (67392, 67413); (67424, 67431); (67456, 67461);
    (67463, 67504); (67506, 67514); (67584, 67589); (67592, 67592);
    (67594, 67637); (67639, 67640); (67644, 67644); (67647, 67669);
    (67672, 67702); (67705, 67742); (67751, 67759); (67808, 67826);
    (67828, 67829); (67835, 67867); (67872, 67897); (67968, 68023);
    (68028, 68047); (68050, 68096); (68112, 68115); (68117, 68119);
    (68121, 68149); (68160, 68168); (68192, 68222); (68224, 68255);
    (68288, 68295); (68297, 68324); (68331, 68335); (68352, 68405);
    (68416, 68437); (68440, 68466); (68472, 68497); (68521, 68527);
    (68608, 68680); (68736, 68786); (68800, 68850); (68858, 68899);
    (68912, 68921); (69216, 69246); (69248, 69289); (69296, 69297);
    (69376, 69415); (69424, 69445); (69457, 69460); (69488, 69505);
    (69552, 69579); (69600, 69622); (69635, 69687); (69714, 69743);
    (69745, 69746); (69749, 69749); (69763, 69807); (69840, 69864);
    (69872, 69881); (69891, 69926); (69942, 69951); (69956, 69956);
    (69959, 69959); (69968, 70002); (70006, 70006); (70019, 70066);
    (70081, 70084); (70096, 70106); (70108, 70108); (70113, 70132);
    (70144, 70161); (70163, 70187); (70272, 70278); (70280, 70280);
    (70282, 70285); (70287, 70301); (70303, 70312); (70320, 70366);
    (70384, 70393); (70405, 70412); (70415, 70416); (70419, 70440);
    (70442, 70448); (70450, 70451); (70453, 70457); (70461, 70461);
    (70480, 70480); (70493, 70497); (70656, 70708); (70727, 70730);
    (70736, 70745); (70751, 70753); (70784, 70831); (70852, 70853);
    (70855, 70855); (70864, 70873); (71040, 71086); (71128, 71131);
    (71168, 71215); (71236, 71236); (71248, 71257); (71296, 71338);
    (71352, 71352); (71360, 71369); (71424, 71450); (71472, 71483);
    (71488, 71494); (71680, 71723); (71840, 71922); (71935, 71942);
    (71945, 71945); (71948, 71955); (71957, 71958); (71960, 71983);
    (71999, 71999); (72001, 72001); (72016, 72025); (72096, 72103);
    (72106, 72144); (72161, 72161); (72163, 72163); (72192, 72192);
    (72203, 72242); (72250, 72250); (72272, 72272); (72284, 72329);
    (72349, 72349); (72368, 72440); (72704, 72712); (72714, 72750);
    (72768, 72768); (72784, 72812); (72818, 72847); (72960, 72966);
    (72968, 72969); (72971, 73008); (73030, 73030); (73040, 73049);
    (73056, 73061); (73063, 73064); (73066, 73097); (73112, 73112);
    (73120, 73129); (73440, 73458); (73648, 73648); (73664, 73684);
    (73728, 74649); (74752, 74862); (74880, 75075); (77712, 77808);
    (77824, 78894); (82944, 83526); (92160, 92728); (92736, 92766);
    (92768, 92777); (92784, 92862); (92864, 92873); (92880, 92909);
    (92928, 92975); (92992, 92995); (93008, 93017); (93019, 93025);
    (93027, 93047); (93053, 93071); (93760, 93846); (93952, 94026);
    (94032, 94032); (94099, 94111); (94176, 94177); (94179, 94179);
    (94208, 100343); (100352, 101589); (101632, 101640); (110576, 110579);
    (110581, 110587); (110589, 110590); (110592, 110882); (110928, 110930);
    (110948, 110951); (110960, 111355); (113664, 113770); (113776, 113788);
    (113792, 113800); (113808, 113817); (119520, 119539); (119648, 119672);
    (119808, 119892); (119894, 119964); (119966, 119967); (119970, 119970);
    (119973, 119974); (119977, 119980); (119982, 119993); (119995, 119995);
    (119997, 120003); (120005, 120069); (120071, 120074); (120077, 120084);
    (120086, 120092); (120094, 120121); (120123, 120126); (120128, 120132);
    (120134, 120134); (120138, 120144); (120146, 120485); (120488, 120512);
    (120514, 120538); (120540, 120570); (120572, 120596); (120598, 120628);
    (120630, 120654); (120656, 120686); (120688, 120712); (120714, 120744);
    (120746, 120770); (120772, 120779); (120782, 120831); (122624, 122654);
    (123136, 123180); (123191, 123197); (123200, 123209); (123214, 123214);
    (123536, 123565); (123584, 123627); (123632, 123641); (124896, 124902);
    (124904, 124907); (124909, 124910); (124912, 124926); (124928, 125124);
    (125127, 125135); (125184, 125251); (125259, 125259); (125264, 125273);
    (126065, 126123); (126125, 126127); (126129, 126132); (126209, 126253);
    (126255, 126269); (126464, 126467); (126469, 126495); (126497, 126498);
    (126500, 126500); (126503, 126503); (126505, 126514); (126516, 126519);
    (126521, 126521); (126523, 126523); (126530, 126530); (126535, 126535);
    (126537, 126537); (126539, 126539); (126541, 126543); (126545, 126546);
    (126548, 126548); (126551, 126551); (126553, 126553); (126555, 126555);
    (126557, 126557); (126559, 126559); (126561, 126562); (126564, 126564);
    (126567, 126570); (126572, 126578); (126580, 126583); (126585, 126588);
    (126590, 126590); (126592, 126601); (126603, 126619); (126625, 126627);
    (126629, 126633); (126635, 126651); (127232, 127244); (130032, 130041);
    (131072, 173791); (173824, 177976); (177984, 178205); (178208, 183969);
    (183984, 191456); (194560, 195101); (196608, 201546) ]
  )%N.

Definition is_space (c : char) : bool := in_ranges SPACE_RANGES c.

Definition is_digit (c : char) : bool := in_ranges DIGIT_RANGES c.

Definition is_word (c : char) : bool := in_ranges WORD_RANGES c.

Definition is_newline (c : char) : bool := (c =? 10)%N.

Definition char_eqb (a b : char) : bool := (a =? b)%N.

(** [strip p s]: the rest of [s] after the literal [p], when [s] starts
    with [p]. *)
Fixpoint strip (p s : text) : option text :=
  match p with
  | [] => Some s
  | c :: p' =>
      match s with
      | [] => None
      | d :: s' => if char_eqb c d then strip p' s' else None
      end
  end.

(** [span f s]: the longest prefix of [s] in the class [f], and the rest
    (a greedy [f*]). *)
Fixpoint span (f : char -> bool) (s : text) : text * text :=
  match s with
  | [] => ([], [])
  | c :: s' =>
      if f c then let '(a, b) := span f s' in (c :: a, b) else ([], s)
  end.

(** [x in s] on strings. *)
Fixpoint contains (p s : text) : bool :=
  match strip p s with
  | Some _ => true
  | None => match s with [] => false | _ :: s' => contains p s' end
  end.

Definition is_nil {A} (l : list A) : bool :=
  match l with [] => true | _ => false end.

(** The number literal [pat_number] at the head of [s]: the literal and
    the rest. *)
Definition match_number (s : text) : option (text * text) :=
  let '(sg, s1) :=
    match s with
    | c :: s' => if char_eqb c (ch "-") then ([c], s') else ([], s)
    | [] => ([], s)
    end in
  let '(d1, s2) := span is_digit s1 in
  if is_nil d1 then None
  else
    let '(dot, s3) :=
      match s2 with
      | c :: s' => if char_eqb c (ch ".") then ([c], s') else ([], s2)
      | [] => ([], s2)
      end in
    let '(d2, s4) := span is_digit s3 in
    Some (sg ++ d1 ++ dot ++ d2, s4).

(** The patterns of the source, as written there. *)
Definition pat_number : string := "-?\d+\.?\d*".
Definition pat_multiplier : string := "multiplier:\s*(-?\d+\.?\d*)".
Definition pat_target : string :=
  "target:\s*'(\w+)'.*?multiplier:\s*(-?\d+\.?\d*)".
Definition pat_row : string := "\brow:\s*(\d+)".
Definition pat_sub_multiplier : string := "(multiplier:\s*)-?\d+\.?\d*".
Definition pat_effect : string :=
  "(effectDescription:\s*')[+-]\d+(?:\.\d+)?(%)".

Definition kw_multiplier : text := tx "multiplier:".
Definition kw_target : text := tx "target:".
Definition kw_row : text := tx "row:".
Definition kw_effect : text := tx "effectDescription:".
Definition kw_effect_name : text := tx "effectDescription".
Definition quote : text := tx "'".

(** [pat_multiplier] at the head of [s]: the white space, the literal and
    the rest. *)
Definition match_multiplier (s : text) : option (text * text * text) :=
  match strip kw_multiplier s with
  | None => None
  | Some s1 =>
      let '(ws, s2) := span is_space s1 in
      match match_number s2 with
      | None => None
      | Some (lit, rest) => Some (ws, lit, rest)
      end
  end.

(** The lazy gap followed by [pat_multiplier], at the head of [s]: the gap
    takes as few characters as possible and never a line feed. *)
Fixpoint lazy_multiplier (s : text) : option text :=
  match match_multiplier s with
  | Some (_, lit, _) => Some lit
  | None =>
      match s with
      | [] => None
      | c :: s' => if is_newline c then None else lazy_multiplier s'
      end
  end.

(** [pat_target] at the head of [s]: groups 1 and 2. *)
Definition match_target (s : text) : option (text * text) :=
  match strip kw_target s with
  | None => None
  | Some s1 =>
      let '(_, s2) := span is_space s1 in
      match strip quote s2 with
      | None => None
      | Some s3 =>
          let '(name, s4) := span is_word s3 in
          if is_nil name then None
          else
            match strip quote s4 with
            | None => None
            | Some s5 =>
                match lazy_multiplier s5 with
                | None => None
                | Some lit => Some (name, lit)
                end
            end
      end
  end.

(** [re.search] of the target pattern: the leftmost match. *)
Fixpoint search_target (s : text) : option (text * text) :=
  match match_target s with
  | Some r => Some r
  | None => match s with [] => None | _ :: s' => search_target s' end
  end.

(** [pat_row] without its word boundary, at the head of [s]: the digits. *)
Definition match_row (s : text) : option text :=
  match strip kw_row s with
  | None => None
  | Some s1 =>
      let '(_, s2) := span is_space s1 in
      let '(ds, _) := span is_digit s2 in
      if is_nil ds then None else Some ds
  end.

(** [re.search] of [pat_row]: [prev_word] tells whether the character
    before the head of [s] is a word character, in which case the word
    boundary fails there. *)
Fixpoint search_row_from (prev_word : bool) (s : text) : option text :=
  match (if prev_word then None else match_row s) with
  | Some ds => Some ds
  | None =>
      match s with
      | [] => None
      | c :: s' => search_row_from (is_word c) s'
      end
  end.

Definition search_row (s : text) : option text := search_row_from false s.

(** [re.sub] of [pat_sub_multiplier] with the template group 1 followed by
    [repl], [count=1]: the leftmost match has its literal replaced; no
    match, no change. *)
Fixpoint sub_multiplier (repl : text) (s : text) : text :=
  match match_multiplier s with
  | Some (ws, _, rest) => kw_multiplier ++ ws ++ repl ++ rest
  | None =>
      match s with
      | [] => []
      | c :: s' => c :: sub_multiplier repl s'
      end
  end.

Definition is_sign (c : char) : bool :=
  char_eqb c (ch "+") || char_eqb c (ch "-").

(** [pat_effect] at the head of [s]: group 1 and the rest after the percent
    sign. *)
Definition match_effect (s : text) : option (text * text) :=
  match strip kw_effect s with
  | None => None
  | Some s1 =>
      let '(ws, s2) := span is_space s1 in
      match s2 with
      | q :: sg :: s3 =>
          if char_eqb q (ch "'") && is_sign sg then
            let '(d1, s4) := span is_digit s3 in
            if is_nil d1 then None
            else
              let plain :=
                match s4 with
                | p :: s5 =>
                    if char_eqb p (ch "%")
                    then Some (kw_effect ++ ws ++ [q], s5)
                    else None
                | [] => None
                end in
              match s4 with
              | dot :: s5 =>
                  if char_eqb dot (ch ".") then
                    let '(d2, s6) := span is_digit s5 in
                    match s6 with
                    | p :: s7 =>
                        if negb (is_nil d2) && char_eqb p (ch "%")
                        then Some (kw_effect ++ ws ++ [q], s7)
                        else plain
                    | [] => plain
                    end
                  else plain
              | [] => plain
              end
          else None
      | _ => None
      end
  end.

(** [re.sub] of [pat_effect] with the template group 1, [repl], group 2,
    [count=1]. *)
Fixpoint sub_effect (repl : text) (s : text) : text :=
  match match_effect s with
  | Some (g1, rest) => g1 ++ repl ++ tx "%" ++ rest
  | None =>
      match s with
      | [] => []
      | c :: s' => c :: sub_effect repl s'
      end
  end.

(** ** Conversions between text and numbers *)

(** The value of a decimal digit: its offset from the zero of its set. *)
Definition digit_val (c : char) : Z :=
  match find (fun z => (z <=? c) && (c <=? z + 9))%N DIGIT_ZEROS with
  | Some z => Z.of_N (c - z)
  | None => 0
  end.

(** The value of a digit string, most significant digit first. *)
Definition digits_val (ds : text) : Z :=
  fold_left (fun acc c => 10 * acc + digit_val c) ds 0.

(** [sys.int_info.default_max_str_digits]: the longest digit string
    [int] converts. *)
Definition default_max_str_digits : N := 4300.

(** [int(ds)] on a non-empty string of decimal digits: the value, or
    [ValueError] when there are more than [default_max_str_digits] digits,
    leading zeros included. *)
Definition int_of_digits (ds : text) : result Z :=
  if (default_max_str_digits <? N.of_nat (length ds))%N
  then Raise ValueError
  else Ok (digits_val ds).

(** [float(lit)] on a literal of the shape [pat_number]: the double nearest
    to the decimal it denotes. *)
Definition float_of_literal (lit : text) : float :=
  let '(neg, s1) :=
    match lit with
    | c :: s' => if char_eqb c (ch "-") then (true, s') else (false, lit)
    | [] => (false, lit)
    end in
  let '(d1, s2) := span is_digit s1 in
  let s3 :=
    match s2 with
    | c :: s' => if char_eqb c (ch ".") then s' else s2
    | [] => s2
    end in
  let '(d2, _) := span is_digit s3 in
  F64.of_ratio neg (digits_val (d1 ++ d2)) (10 ^ Z.of_nat (length d2)).

(** [str(n)] for [0 <= n]. *)
Definition str_of_nat_Z (n : Z) : text :=
  tx (NilZero.string_of_uint (N.to_uint (Z.to_N n))).

Definition sign_text (s : bool) : text := if s then tx "-" else [].

(** The [nd] decimal digits of [k mod 10^nd], zero padded. *)
Fixpoint frac_digits (nd : nat) (k : Z) : text :=
  match nd with
  | O => []
  | S n => Z.to_N (48 + (k / 10 ^ Z.of_nat n) mod 10)
           :: frac_digits n k
  end.

(** [f"{x:.{nd}f}"] for [1 <= nd]: the decimal nearest to [x] with [nd]
    places. *)
Definition format_fixed (nd : nat) (x : float) : text :=
  match x with
  | S754_nan => tx "nan"
  | S754_infinity s => sign_text s ++ tx "inf"
  | S754_zero s => sign_text s ++ tx "0." ++ frac_digits nd 0
  | S754_finite s m e =>
      let k := F64.scaled_digits m e (Z.of_nat nd) in
      sign_text s ++ str_of_nat_Z (k / 10 ^ Z.of_nat nd) ++ tx "."
        ++ frac_digits nd k
  end.

(** [p == int(p)] followed by [str(int(p))]: [Ok (Some s)] when [p] is an
    integer, written [s]; [Ok None] when it is not; [int] raises on
    infinities and NaN. *)
Definition integral_text (p : float) : result (option text) :=
  match p with
  | S754_nan => Raise ValueError
  | S754_infinity _ => Raise OverflowError
  | S754_zero _ => Ok (Some (tx "0"))
  | S754_finite s m e =>
      match e with
      | Zneg q =>
          if Zpos m mod 2 ^ Zpos q =? 0
          then Ok (Some (sign_text s ++ str_of_nat_Z (Zpos m / 2 ^ Zpos q)))
          else Ok None
      | _ => Ok (Some (sign_text s ++ str_of_nat_Z (Zpos m * 2 ^ e)))
      end
  end.

Definition f_100 : float := F64.of_int 100.

(** [fmt_pct(v)]. *)
Definition fmt_pct (v : float) : result text :=
  let p := F64.round (F64.mul (F64.abs v) f_100) 1 in
  do it <- integral_text p;
  match it with
  | Some s => Ok s
  | None => Ok (format_fixed 1 p)
  end.

(** ** The skill-file patcher *)

Definition f_0_001 : float := F64.dec 1 3.
Definition f_zero : float := F64.of_int 0.

(** [a >= b] on floats. *)
Definition geb (a b : float) : bool :=
  match SFcompare a b with
  | Some (Gt | Eq) => true
  | _ => false
  end.

(** The indices of [range(i - 1, max(i - w - 1, -1), -1)]: the [w] lines
    before line [i], nearest first, as far as they exist. *)
Fixpoint window (w : nat) (i : nat) : list nat :=
  match w, i with
  | S w', S i' => i' :: window w' i'
  | _, _ => []
  end.

(** The first line of the indices [js], in that order, with a row marker,
    and its row; [int] may raise on the digits of that marker. *)
Fixpoint first_row (lines : list text) (js : list nat)
  : result (option (nat * Z)) :=
  match js with
  | [] => Ok None
  | j :: js' =>
      match lines !! j with
      | Some l =>
          match search_row l with
          | Some ds => do row <- int_of_digits ds; Ok (Some (j, row))
          | None => first_row lines js'
          end
      | None => first_row lines js'
      end
  end.

(** The backward scan for the row marker:
    [for j in range(i - 1, max(i - 8, -1), -1)]; [Ok None] is [row is
    None] after the loop. *)
Definition find_row (lines : list text) (i : nat) : result (option Z) :=
  do r <- first_row lines (window 7 i);
  Ok (option_map snd r).

(** The first line of the indices [js] that contains the word
    [effectDescription]. *)
Fixpoint first_effect (lines : list text) (js : list nat) : option nat :=
  match js with
  | [] => None
  | j :: js' =>
      match lines !! j with
      | Some l =>
          if contains kw_effect_name l then Some j else first_effect lines js'
      | None => first_effect lines js'
      end
  end.

(** The propagation loop
    [for j in range(i - 1, max(i - 5, -1), -1)] with its [break]. *)
Definition propagate (lines : list text) (i : nat) (repl : text)
  : list text :=
  match first_effect lines (window 4 i) with
  | Some j =>
      match lines !! j with
      | Some l => <[ j := sub_effect repl l ]> lines
      | None => lines
      end
  | None => lines
  end.

(** The state of the loop: the lines and the counter [changes]. *)
Definition state := (list text * Z)%type.

(** The UTF-8 encoding of a code point. *)
Definition utf8 (c : char) : list ascii :=
  (if c <? 128 then [ascii_of_N c]
   else if c <? 2048 then
     [ascii_of_N (192 + c / 64); ascii_of_N (128 + c mod 64)]
   else if c <? 65536 then
     [ascii_of_N (224 + c / 4096); ascii_of_N (128 + (c / 64) mod 64);
      ascii_of_N (128 + c mod 64)]
   else
     [ascii_of_N (240 + c / 262144); ascii_of_N (128 + (c / 4096) mod 64);
      ascii_of_N (128 + (c / 64) mod 64); ascii_of_N (128 + c mod 64)])%N.

(** A matched group as a dictionary key.  The keys of the tables are
    written as strings, which are their own UTF-8 encoding; a group is
    looked up by its encoding, which is equal to a key exactly when the
    group is that key. *)
Definition target_name (t : text) : string :=
  string_of_list_ascii (flat_map utf8 t).

(** The tolerance gate [abs(new_mult - old_mult) < 0.001]. *)
Definition within_tolerance (new_mult old_mult : float) : bool :=
  F64.ltb (F64.abs (F64.sub new_mult old_mult)) f_0_001.

(** [sign = '+' if new_mult >= 0 else '-']. *)
Definition sign_of (new_mult : float) : text :=
  if geb new_mult f_zero then tx "+" else tx "-".

(** The rewrite of an occurrence: the literal on line [i], then the
    description on a line before it. *)
Definition rewrite_at (lines : list text) (line : text) (i : nat)
  (new_mult : float) : result (list text) :=
  let lines1 :=
    <[ i := sub_multiplier (format_fixed 2 new_mult) line ]> lines in
  let sign := sign_of new_mult in
  do ps <- fmt_pct new_mult;
  Ok (propagate lines1 i (sign ++ ps)).

(** The body of [for i in range(len(lines))]; each [Ok st] before the end
    is a [continue]. *)
Definition step (st : state) (i : nat) : result state :=
  let '(lines, changes) := st in
  match lines !! i with
  | None => Raise IndexError
  | Some line =>
      match search_target line with
      | None => Ok st
      | Some (target, lit) =>
          let old_mult := float_of_literal lit in
          do found <- find_row lines i;
          match found with
          | None => Ok st
          | Some row =>
              do new <- compute_mult row (target_name target);
              match new with
              | None => Ok st
              | Some new_mult =>
                  if within_tolerance new_mult old_mult then Ok st
                  else
                    do lines' <- rewrite_at lines line i new_mult;
                    Ok (lines', changes + 1)
              end
          end
      end
  end.

Fixpoint run (st : state) (idx : list nat) : result state :=
  match idx with
  | [] => Ok st
  | i :: idx' => do st' <- step st i; run st' idx'
  end.

(** [process_skill_file] on the lines read from the file: the lines
    written back and the returned count.  When an exception is raised
    nothing is written. *)
Definition process_skill_file (lines : list text) : result state :=
  run (lines, 0) (seq 0 (length lines)).

(** ** The milestone rewards *)

(** [MILESTONE_REWARDS]: (milestone id, reward type) to the value. *)
Definition MILESTONE_REWARDS : list ((string * string) * float) :=
  [ (("ms_points_10"%string,    "global_multiplier"%string), F64.dec 8 3);
    (("ms_points_50"%string,    "prestige_gain"%string),     F64.dec 15 3);
    (("ms_points_100"%string,   "global_multiplier"%string), F64.dec 15 3);
    (("ms_points_500"%string,   "prestige_gain"%string),     F64.dec 25 3);
    (("ms_points_500"%string,   "xp_gain"%string),           F64.dec 15 3);
    (("ms_points_1000"%string,  "global_multiplier"%string), F64.dec 3 2);
    (("ms_points_5000"%string,  "global_multiplier"%string), F64.dec 5 2);
    (("ms_points_5000"%string,  "prestige_gain"%string),     F64.dec 4 2);
    (("ms_points_10000"%string, "global_multiplier"%string), F64.dec 8 2);
    (("ms_points_10000"%string, "offline_bonus"%string),     F64.dec 3 2);
    (("ms_rebirth_1"%string,    "prestige_gain"%string),     F64.dec 8 3);
    (("ms_rebirth_5"%string,    "job_efficiency"%string),    F64.dec 15 3);
    (("ms_rebirth_10"%string,   "prestige_gain"%string),     F64.dec 25 3);
    (("ms_rebirth_10"%string,   "global_multiplier"%string), F64.dec 15 3);
    (("ms_rebirth_25"%string,   "global_multiplier"%string), F64.dec 3 2);
    (("ms_rebirth_25"%string,   "loan_discount"%string),     F64.dec 3 3);
    (("ms_rebirth_50"%string,   "global_multiplier"%string), F64.dec 5 2);
    (("ms_rebirth_50"%string,   "prestige_gain"%string),     F64.dec 4 2);
    (("ms_rebirth_50"%string,   "offline_bonus"%string),     F64.dec 25 3);
    (("ms_rebirth_100"%string,  "global_multiplier"%string), F64.dec 8 2);
    (("ms_rebirth_100"%string,  "prestige_gain"%string),     F64.dec 6 2);
    (("ms_upgrades_5"%string,   "prestige_gain"%string),     F64.dec 8 3);
    (("ms_upgrades_25"%string,  "global_multiplier"%string), F64.dec 15 3);
    (("ms_upgrades_25"%string,  "cost_reduction"%string),    F64.dec 8 3);
    (("ms_upgrades_50"%string,  "prestige_gain"%string),     F64.dec 3 2);
    (("ms_upgrades_50"%string,  "xp_gain"%string),           F64.dec 2 2) ].

Fixpoint lookup_pair {A} (k : string * string)
    (d : list ((string * string) * A)) : option A :=
  match d with
  | [] => None
  | ((k1, k2), v) :: d' =>
      if String.eqb (fst k) k1 && String.eqb (snd k) k2 then Some v
      else lookup_pair k d'
  end.

(** [s.rstrip('0')]. *)
Fixpoint rstrip_zeros (s : text) : text :=
  match s with
  | [] => []
  | c :: s' =>
      match rstrip_zeros s' with
      | [] => if char_eqb c (ch "0") then [] else [c]
      | r => c :: r
      end
  end.

(** [s.endswith('.')]. *)
Fixpoint ends_with_dot (s : text) : bool :=
  match s with
  | [] => false
  | [c] => char_eqb c (ch ".")
  | _ :: s' => ends_with_dot s'
  end.

(** The text written for a milestone value:
    [ns = f"{nv:.4f}".rstrip('0')], then [ns += '0'] when [ns] ends with
    the point. *)
Definition milestone_text (nv : float) : text :=
  let ns := rstrip_zeros (format_fixed 4 nv) in
  if ends_with_dot ns then ns ++ tx "0" else ns.

Definition pat_ms_id : string := "id:\s*'(ms_\w+)'".
Definition pat_reward : string :=
  "\{\s*type:\s*'(\w+)',\s*value:\s*(\d+\.?\d*)".
Definition pat_unsigned : string := "\d+\.?\d*".

Definition kw_id : text := tx "id:".
Definition kw_ms : text := tx "ms_".
Definition kw_brace : text := tx "{".
Definition kw_type : text := tx "type:".
Definition kw_value : text := tx "value:".
Definition comma : text := tx ",".

(** [pat_unsigned] at the head of [s]: the literal and the rest. *)
Definition match_unsigned (s : text) : option (text * text) :=
  let '(d1, s2) := span is_digit s in
  if is_nil d1 then None
  else
    let '(dot, s3) :=
      match s2 with
      | c :: s' => if char_eqb c (ch ".") then ([c], s') else ([], s2)
      | [] => ([], s2)
      end in
    let '(d2, s4) := span is_digit s3 in
    Some (d1 ++ dot ++ d2, s4).

(** [pat_ms_id] at the head of [s]: group 1. *)
Definition match_ms_id (s : text) : option text :=
  match strip kw_id s with
  | None => None
  | Some s1 =>
      let '(_, s2) := span is_space s1 in
      match strip quote s2 with
      | None => None
      | Some s3 =>
          match strip kw_ms s3 with
          | None => None
          | Some s4 =>
              let '(w, s5) := span is_word s4 in
              if is_nil w then None
              else
                match strip quote s5 with
                | None => None
                | Some _ => Some (kw_ms ++ w)
                end
          end
      end
  end.

Fixpoint search_ms_id (s : text) : option text :=
  match match_ms_id s with
  | Some r => Some r
  | None => match s with [] => None | _ :: s' => search_ms_id s' end
  end.

(** The part [type:\s*'NAME',\s*value:\s*] at the head of [s], where the
    name is any word ([name = None], group 1 of [pat_reward]) or the given
    one: the matched prefix, the name and the rest. *)
Definition match_type_value (name : option text) (s : text)
  : option (text * text * text) :=
  match strip kw_type s with
  | None => None
  | Some s1 =>
      let '(ws1, s2) := span is_space s1 in
      match strip quote s2 with
      | None => None
      | Some s3 =>
          let named :=
            match name with
            | None =>
                let '(w, s4) := span is_word s3 in
                if is_nil w then None else Some (w, s4)
            | Some n =>
                match strip n s3 with
                | None => None
                | Some s4 => Some (n, s4)
                end
            end in
          match named with
          | None => None
          | Some (w, s4) =>
              match strip quote s4 with
              | None => None
              | Some s5 =>
                  match strip comma s5 with
                  | None => None
                  | Some s6 =>
                      let '(ws2, s7) := span is_space s6 in
                      match strip kw_value s7 with
                      | None => None
                      | Some s8 =>
                          let '(ws3, s9) := span is_space s8 in
                          Some (kw_type ++ ws1 ++ quote ++ w ++ quote
                                  ++ comma ++ ws2 ++ kw_value ++ ws3,
                                w, s9)
                      end
                  end
              end
          end
      end
  end.

(** [pat_reward] at the head of [s]: groups 1 and 2. *)
Definition match_reward (s : text) : option (text * text) :=
  match strip kw_brace s with
  | None => None
  | Some s1 =>
      let '(_, s2) := span is_space s1 in
      match match_type_value None s2 with
      | None => None
      | Some (_, w, s3) =>
          match match_unsigned s3 with
          | None => None
          | Some (lit, _) => Some (w, lit)
          end
      end
  end.

Fixpoint search_reward (s : text) : option (text * text) :=
  match match_reward s with
  | Some r => Some r
  | None => match s with [] => None | _ :: s' => search_reward s' end
  end.

(** [re.sub] of the pattern built from [rtype], group 1 followed by the
    unsigned literal, with the template group 1 then [ns], [count=1]. *)
Fixpoint sub_reward (rtype ns : text) (s : text) : text :=
  match
    match match_type_value (Some rtype) s with
    | None => None
    | Some (g1, _, s1) =>
        match match_unsigned s1 with
        | None => None
        | Some (_, rest) => Some (g1 ++ ns ++ rest)
        end
    end
  with
  | Some r => r
  | None =>
      match s with
      | [] => []
      | c :: s' => c :: sub_reward rtype ns s'
      end
  end.

(** The state of the milestone loop: the lines, [cur_ms] and [mc]. *)
Definition ms_state := (list text * option text * Z)%type.

(** The body of the milestone loop. *)
Definition milestone_step (st : ms_state) (i : nat) : result ms_state :=
  let '(lines, cur_ms, mc) := st in
  match lines !! i with
  | None => Raise IndexError
  | Some line =>
      let cur_ms :=
        match search_ms_id line with
        | Some g => Some g
        | None => cur_ms
        end in
      match cur_ms with
      | None => Ok (lines, cur_ms, mc)
      | Some ms =>
          match search_reward line with
          | None => Ok (lines, cur_ms, mc)
          | Some (rtype, _) =>
              match lookup_pair (target_name ms, target_name rtype)
                      MILESTONE_REWARDS with
              | None => Ok (lines, cur_ms, mc)
              | Some nv =>
                  Ok (<[ i := sub_reward rtype (milestone_text nv) line ]> lines,
                      cur_ms, mc + 1)
              end
          end
      end
  end.

Fixpoint milestone_run (st : ms_state) (idx : list nat) : result ms_state :=
  match idx with
  | [] => Ok st
  | i :: idx' => do st' <- milestone_step st i; milestone_run st' idx'
  end.

(** The milestone section on the lines of milestones.ts: the lines written
    back and the count [mc]. *)
Definition process_milestones (lines : list text) : result (list text * Z) :=
  do st <- milestone_run (lines, None, 0) (seq 0 (length lines));
  Ok (fst (fst st), snd st).

(** ** The perk descriptions (perks.ts) *)

(** [PERK_DESC_FIXES]: perk id to the old and the new phrase. *)
Definition PERK_DESC_FIXES : list (string * (string * string)) :=
  [ ("perk_instant_jobs"%string,
       ("at 50% efficiency"%string, "at 10% efficiency"%string));
    ("perk_offline_boost"%string,
       ("efficiency by 25%"%string, "efficiency by 5%"%string));
    ("perk_market_insight"%string,
       ("gain 15% better"%string, "gain 3% better"%string));
    ("perk_tax_haven"%string,
       ("rates by 3%"%string, "rates by 0.5%"%string));
    ("perk_business_sense"%string,
       ("generate 20% more"%string, "generate 4% more"%string));
    ("perk_real_estate_mogul"%string,
       ("generate 20% more"%string, "generate 4% more"%string));
    ("perk_golden_touch"%string,
       ("+50% to all"%string, "+8% to all"%string));
    ("perk_time_warp"%string,
       ("at 100% efficiency"%string, "with boosted efficiency"%string));
    ("perk_prestige_master"%string,
       ("50% more prestige"%string, "8% more prestige"%string));
    ("perk_reality_warp"%string,
       ("+100% to all"%string, "+12% to all"%string)) ].

Definition pat_id : string := "id:\s*'(\w+)'".
Definition kw_description : text := tx "description:".

(** [pat_id] at the head of [s]: group 1. *)
Definition match_id (s : text) : option text :=
  match strip kw_id s with
  | None => None
  | Some s1 =>
      let '(_, s2) := span is_space s1 in
      match strip quote s2 with
      | None => None
      | Some s3 =>
          let '(w, s4) := span is_word s3 in
          if is_nil w then None
          else
            match strip quote s4 with
            | None => None
            | Some _ => Some w
            end
      end
  end.

Fixpoint search_id (s : text) : option text :=
  match match_id s with
  | Some r => Some r
  | None => match s with [] => None | _ :: s' => search_id s' end
  end.

(** [s.replace(old, new, 1)]: the first occurrence of [old] is replaced. *)
Fixpoint replace_first (old new s : text) : text :=
  match strip old s with
  | Some r => new ++ r
  | None => match s with [] => [] | c :: s' => c :: replace_first old new s' end
  end.

(** The state of the description loop: the lines and [cur]. *)
Definition perk_state := (list text * option text)%type.

(** The body of the description loop. *)
Definition perk_desc_step (st : perk_state) (i : nat) : result perk_state :=
  let '(lines, cur) := st in
  match lines !! i with
  | None => Raise IndexError
  | Some line =>
      let cur :=
        match search_id line with
        | Some g => Some g
        | None => cur
        end in
      match cur with
      | None => Ok (lines, cur)
      | Some id =>
          match lookup_name (target_name id) PERK_DESC_FIXES with
          | None => Ok (lines, cur)
          | Some (old_d, new_d) =>
              if contains kw_description line && contains (tx old_d) line
              then Ok (<[ i := replace_first (tx old_d) (tx new_d) line ]> lines,
                       cur)
              else Ok (lines, cur)
          end
      end
  end.

Fixpoint perk_desc_run (st : perk_state) (idx : list nat) : result perk_state :=
  match idx with
  | [] => Ok st
  | i :: idx' => do st' <- perk_desc_step st i; perk_desc_run st' idx'
  end.

(** The description loop on the lines of perks.ts: the lines written back. *)
Definition fix_perk_descriptions (lines : list text) : result (list text) :=
  do st <- perk_desc_run (lines, None) (seq 0 (length lines));
  Ok (fst st).

(** ** The prestige-points coefficient (useMultipliers.ts)

    The whole file is one string; [re.sub] without a count replaces every
    match of [pat_coeff], leftmost first and without overlap, by
    [new_coeff]. *)

Definition pat_coeff : string := "mul\(prestige\.points,\s*\d+\.?\d*\)".
Definition kw_coeff : text := tx "mul(prestige.points,".
Definition paren : text := tx ")".
Definition new_coeff : text := tx "mul(prestige.points, 0.0003)".

(** [pat_coeff] at the head of [s]: the rest after the match. *)
Definition match_coeff (s : text) : option text :=
  match strip kw_coeff s with
  | None => None
  | Some s1 =>
      let '(_, s2) := span is_space s1 in
      match match_unsigned s2 with
      | None => None
      | Some (_, s3) => strip paren s3
      end
  end.

(** The scan of [re.sub]: at a match the replacement is written and the
    scan resumes after the match; elsewhere one character is copied. A
    match is never empty, so [length c] steps are enough. *)
Fixpoint sub_coeff_from (fuel : nat) (s : text) : text :=
  match fuel with
  | O => s
  | S fuel' =>
      match s with
      | [] => []
      | ch :: s' =>
          match match_coeff s with
          | Some rest => new_coeff ++ sub_coeff_from fuel' rest
          | None => ch :: sub_coeff_from fuel' s'
          end
      end
  end.

Definition sub_coeff (c : text) : text := sub_coeff_from (length c) c.

(** ** Vocabulary of the statements *)

(** Comparisons of floats as propositions. *)
Definition fle (a b : float) : Prop := F64.leb a b = true.
Definition flt (a b : float) : Prop := F64.ltb a b = true.

(** The rows of the checkpoint branch of [compute_mult]. *)
Definition is_checkpoint (row : Z) : bool :=
  (row =? 8) || (row =? 12) || (row =? 16) || (row =? 17).

(** The least row for which [row / MAX_ROW] is too large for a float. *)
Definition overflow_row : Z := 17 * (2 ^ 1024 - 2 ^ 970).

(** The value of a curve at the clamped fraction 1.0, without a bonus. *)
Definition top_value (t : string) (c : curve) : float :=
  apply_sign t (round_floor (interpolate c f_1_0)).

(** The double of [k] hundredths, with sign [s]. *)
Definition hundredths (s : bool) (k : Z) : float := F64.of_ratio s k 100.

(** The values [compute_mult] takes on the rows a document can name. *)
Definition value_ok (t : string) (v : float) : Prop :=
  exists k, 1 <= k <= 28 /\ v = hundredths (mem_name t NEGATIVE_TARGETS) k.

(** The text of [n] ten-thousandths with sign [s], for [0 <= n < 10000]. *)
Definition lit4 (s : bool) (n : Z) : text :=
  sign_text s ++ tx "0." ++ frac_digits 4 n.

(** Integer ranges for exhaustive checks. *)
Definition zrange (lo : Z) (n : nat) : list Z :=
  map (fun i => lo + Z.of_nat i) (seq 0 n).

Definition is_ok {A} (r : result A) : bool :=
  match r with Ok _ => true | Raise _ => false end.

Fixpoint text_eqb (a b : text) : bool :=
  match a, b with
  | [], [] => true
  | c :: a', d :: b' => char_eqb c d && text_eqb a' b'
  | _, _ => false
  end.

Definition float_eqb (a b : float) : bool :=
  match a, b with
  | S754_zero s, S754_zero s' => Bool.eqb s s'
  | S754_infinity s, S754_infinity s' => Bool.eqb s s'
  | S754_nan, S754_nan => true
  | S754_finite s m e, S754_finite s' m' e' =>
      Bool.eqb s s' && Pos.eqb m m' && (e =? e')
  | _, _ => false
  end.

(** ** Documents and tables of the statements *)

(** No range of [rs1] meets a range of [rs2]. *)
Definition ranges_apart (rs1 rs2 : list (N * N)) : bool :=
  forallb (fun a =>
    forallb (fun b => (snd a <? fst b) || (snd b <? fst a))%N rs2) rs1.

(** A match of [pat_number] starts at the head of [s]: an optional minus
    sign and a decimal digit. *)
Definition number_at (s : text) : Prop :=
  exists sg d r,
    s = sg ++ d :: r /\ (sg = [] \/ sg = tx "-") /\ is_digit d = true.

(** A match of [pat_sub_multiplier] starts at the head of [s]. *)
Definition multiplier_at (s : text) : Prop :=
  exists ws t,
    s = kw_multiplier ++ ws ++ t /\ forallb is_space ws = true /\
    number_at t.



(** The part of the milestone pattern before the number, for the reward
    type [rtype] and three runs of white space. *)
Definition reward_prefix (rtype ws1 ws2 ws3 : text) : text :=
  kw_type ++ ws1 ++ quote ++ rtype ++ quote ++ comma ++ ws2
    ++ kw_value ++ ws3.

(** A match of the milestone substitution pattern for [rtype] starts at
    the head of [s]. *)
Definition reward_at (rtype s : text) : Prop :=
  exists ws1 ws2 ws3 d r,
    s = reward_prefix rtype ws1 ws2 ws3 ++ d :: r /\
    forallb is_space ws1 = true /\ forallb is_space ws2 = true /\
    forallb is_space ws3 = true /\ is_digit d = true.

(** The pattern of [sub_reward] at the head of [s]: the text that replaces
    the match, followed by the rest of the line. *)
Definition match_sub_reward (rtype ns : text) (s : text) : option text :=
  match match_type_value (Some rtype) s with
  | None => None
  | Some (g1, _, s1) =>
      match match_unsigned s1 with
      | None => None
      | Some (_, rest) => Some (g1 ++ ns ++ rest)
      end
  end.

(** The magnitude of the multiplier at a row; NaN stands for no value. *)
Definition mag_at (t : string) (p : Z) : float :=
  match compute_mult p t with
  | Ok (Some v) => F64.abs v
  | _ => S754_nan
  end.

(** The magnitudes at rows 0 to 18. *)
Definition mags (t : string) : list (Z * float) :=
  map (fun p => (p, mag_at t p)) (zrange 0 19).

(** The comparison of one pair of rows: the magnitude at [p] is at most the
    magnitude at [q] when [p <= q] and [p] is not a checkpoint. *)
Definition mono_entry (pm qm : Z * float) : bool :=
  implb ((fst pm <=? fst qm) && negb (is_checkpoint (fst pm)))
        (F64.leb (snd pm) (snd qm)).

Definition mono_pairs (ms : list (Z * float)) : bool :=
  forallb (fun pm => forallb (fun qm => mono_entry pm qm) ms) ms.

(** The integer nearest to [|x| * 10^nd]. *)
Definition decimal_digits (x : float) (nd : Z) : Z :=
  match x with
  | S754_finite _ m e => F64.scaled_digits m e nd
  | _ => 0
  end.

(** The value at a row if the checkpoint factors [fs] were applied to the
    interpolated magnitude, one after the other. *)
Definition with_factors (t : string) (c : curve) (fr : float)
    (fs : list float) : float :=
  apply_sign t (round_floor (fold_left F64.mul fs (interpolate c fr))).

(** A line as [readlines] gives it: the text and its line feed. *)
Definition ln (s : string) : text := tx s ++ [10%N].

(** A skill file whose third line names a multiplier before and after its
    target. *)
Definition two_multipliers : list text :=
  [ ln "row: 0";
    ln "effectDescription: '+9%'";
    ln "multiplier: 0.5, target: 'allIncome', multiplier: 0.07";
    ln "target: 'jobEfficiency', multiplier: 0.07" ].

Definition two_multipliers_once : list text :=
  [ ln "row: 0";
    ln "effectDescription: '+5%'";
    ln "multiplier: 0.01, target: 'allIncome', multiplier: 0.07";
    ln "target: 'jobEfficiency', multiplier: 0.05" ].

Definition two_multipliers_twice : list text :=
  [ ln "row: 0";
    ln "effectDescription: '+1%'";
    ln "multiplier: 0.01, target: 'allIncome', multiplier: 0.07";
    ln "target: 'jobEfficiency', multiplier: 0.05" ].

(** The four stored literals at 0.0009 and 0.0011 from [k] hundredths. *)
Definition tolerance_probe (s : bool) (k : Z) : bool :=
  within_tolerance (hundredths s k) (float_of_literal (lit4 s (100 * k - 9)))
  && within_tolerance (hundredths s k) (float_of_literal (lit4 s (100 * k + 9)))
  && negb (within_tolerance (hundredths s k)
             (float_of_literal (lit4 s (100 * k - 11))))
  && negb (within_tolerance (hundredths s k)
             (float_of_literal (lit4 s (100 * k + 11)))).

(** An occurrence at row 0 whose stored value 0.0111 is 0.0011 away from
    the computed 0.01, on a line with another multiplier before the
    target. *)
Definition stale_line : text :=
  ln "multiplier: 0.5, target: 'allIncome', multiplier: 0.0111".

Definition stale_line_once : text :=
  ln "multiplier: 0.01, target: 'allIncome', multiplier: 0.0111".

Definition stale_literal : list text := [ ln "row: 0"; stale_line ].

Definition stale_literal_once : list text := [ ln "row: 0"; stale_line_once ].

(** The scenario of the specification: an xpGain node at row 10. *)
Definition xp_node : list text :=
  [ ln "    row: 10,";
    ln "    effectDescription: '+5% XP',";
    ln "    effects: [{ target: 'xpGain', multiplier: 0.05 }]," ].

Definition xp_line : text :=
  ln "    effects: [{ target: 'xpGain', multiplier: 0.05 }],".

(** A row marker eight lines before the occurrence, and none nearer. *)
Definition far_marker : list text :=
  [ ln "row: 4"; ln "a"; ln "b"; ln "c"; ln "d"; ln "e"; ln "f"; ln "g";
    ln "target: 'allIncome', multiplier: 3" ].

(** A text of the shape: optional minus sign, [0.], two ASCII digits. *)
Definition two_decimals (s : text) : Prop :=
  exists sg d1 d2, s = sign_text sg ++ tx "0." ++ [d1; d2] /\
                   (ch "0" <= d1 <= ch "9")%N /\ (ch "0" <= d2 <= ch "9")%N.

(** A text of the shape [0.] and one to four ASCII digits, the last of
    which is not a zero unless it is the only one. *)
Definition trimmed_decimals (s : text) : bool :=
  match s with
  | z :: d :: frac =>
      char_eqb z (ch "0") && char_eqb d (ch ".")
      && forallb (fun c => (ch "0" <=? c) && (c <=? ch "9"))%N frac
      && (1 <=? Z.of_nat (length frac)) && (Z.of_nat (length frac) <=? 4)
      && (Nat.eqb (length frac) 1
          || negb (char_eqb (List.last frac (ch "1")) (ch "0")))
  | _ => false
  end.

Definition milestone_entry_ok (kv : (string * string) * float) : bool :=
  trimmed_decimals (milestone_text (snd kv))
  && float_eqb (float_of_literal (milestone_text (snd kv))) (snd kv).

(** Two lines of a milestone entry, before and after the loop body has
    run on the second. *)
Definition milestone_entry : list text :=
  [ ln "  { id: 'ms_points_50', name: 'x',";
    ln "    rewards: [{ type: 'prestige_gain', value: 0.5 }]," ].

Definition milestone_entry_out : list text :=
  [ ln "  { id: 'ms_points_50', name: 'x',";
    ln "    rewards: [{ type: 'prestige_gain', value: 0.015 }]," ].

(** A skill file whose row marker is the first row too large for the
    division by 17. *)
Definition huge_row : list text :=
  [ tx "row: " ++ str_of_nat_Z overflow_row ++ [10%N];
    ln "target: 'allIncome', multiplier: 0.05" ].

(** A skill file whose row marker has 4301 digits, before an occurrence
    of a target without a curve. *)
Definition long_marker : list text :=
  [ tx "row: " ++ repeat (ch "0") 4300 ++ tx "5" ++ [10%N];
    ln "target: 'nothing', multiplier: 0.05" ].

(** The table entry of [fmt_pct] and of the written literal at [k]
    hundredths with sign [s]: the percentage is the text of [k], and the
    two-decimal text reads back as the same float, within tolerance of
    itself. *)
Definition written_entry_ok (s : bool) (k : Z) : bool :=
  match fmt_pct (hundredths s k) with
  | Ok ps => text_eqb ps (str_of_nat_Z k)
  | Raise _ => false
  end
  && float_eqb (float_of_literal (format_fixed 2 (hundredths s k)))
               (hundredths s k)
  && within_tolerance (hundredths s k)
       (float_of_literal (format_fixed 2 (hundredths s k)))
  && text_eqb (sign_of (hundredths s k)) (if s then tx "-" else tx "+").

(** A row marker written with the Arabic-Indic digit three, a no-break
    space after the colon, before an occurrence. *)
Definition indic_marker : list text :=
  [ tx "row:" ++ [160%N; 1635%N; 10%N];
    ln "target: 'allIncome', multiplier: 0.5" ].

(** A milestone file with a reward before the first milestone id. *)
Definition milestone_doc : list text :=
  [ ln "  rewards: [{ type: 'prestige_gain', value: 0.5 }],";
    ln "  { id: 'ms_points_50', name: 'x',";
    ln "    rewards: [{ type: 'prestige_gain', value: 0.5 }]," ].

Definition milestone_doc_out : list text :=
  [ ln "  rewards: [{ type: 'prestige_gain', value: 0.5 }],";
    ln "  { id: 'ms_points_50', name: 'x',";
    ln "    rewards: [{ type: 'prestige_gain', value: 0.015 }]," ].

(** The characters other than the letter m, which starts every match of
    [pat_coeff] and occurs nowhere else in one. *)
Definition not_m (c : char) : bool := negb (char_eqb c (ch "m")).

(** A file with two coefficient calls. *)
Definition coeff_doc : text :=
  tx "const a = mul(prestige.points,   0.001); const b = mul(prestige.points,2.)".

(** A line of perks.ts after the description pass, against the line before:
    the same line, or a description line in which the first occurrence of
    the old phrase of some perk has become the new phrase. *)
Definition description_fixed (l l' : text) : Prop :=
  l' = l \/
  (contains kw_description l = true /\
   exists id old new pre post,
     In (id, (old, new)) PERK_DESC_FIXES /\
     l = pre ++ tx old ++ post /\
     l' = pre ++ tx new ++ post /\
     forall j, (j < length pre)%nat -> strip (tx old) (drop j l) = None).

(** Four lines of a perk entry. *)
Definition perk_doc : list text :=
  [ tx "  {";
    tx "    id: 'perk_tax_haven',";
    tx "    description: 'Lowers rates by 3% (rates by 3%).',";
    tx "  }," ].

Definition perk_doc_out : list text :=
  [ tx "  {";
    tx "    id: 'perk_tax_haven',";
    tx "    description: 'Lowers rates by 0.5% (rates by 3%).',";
    tx "  }," ].

(** ** Facts about binary64 rounding *)

Lemma digits2_pos_size (p : positive) : digits2_pos p = Pos.size p.
Proof. induction p; simpl; congruence. Qed.

Lemma Zdigits2_log2 (p : positive) : Zdigits2 (Zpos p) = Z.log2 (Zpos p) + 1.
Proof.
  unfold Zdigits2. rewrite digits2_pos_size.
  destruct p; simpl; try reflexivity; rewrite Pos2Z.inj_succ; lia.
Qed.

Lemma Zdigits2_bounds (m : Z) :
  0 < m -> 2 ^ (Zdigits2 m - 1) <= m < 2 ^ Zdigits2 m.
Proof.
  intros H. destruct m as [|p|p]; try lia.
  rewrite Zdigits2_log2.
  replace (Z.log2 (Z.pos p) + 1 - 1) with (Z.log2 (Z.pos p)) by lia.
  replace (Z.log2 (Z.pos p) + 1) with (Z.succ (Z.log2 (Z.pos p))) by lia.
  apply Z.log2_spec. lia.
Qed.

Lemma Zdigits2_unique (m d : Z) :
  0 < d -> 2 ^ (d - 1) <= m < 2 ^ d -> Zdigits2 m = d.
Proof.
  intros Hd H.
  assert (0 < m) by (pose proof (Z.pow_pos_nonneg 2 (d - 1)); lia).
  destruct m as [|p|p]; try lia.
  rewrite Zdigits2_log2.
  enough (Z.log2 (Z.pos p) = d - 1) by lia.
  apply Z.log2_unique; [lia|]. replace (Z.succ (d - 1)) with d by lia. exact H.
Qed.

Lemma shr_1_m (r : shr_record) :
  0 <= shr_m r -> shr_m (shr_1 r) = Z.shiftr (shr_m r) 1.
Proof.
  destruct r as [m b s]; simpl. intros H.
  rewrite <- Z.div2_spec.
  destruct m as [|p|p]; try lia; try reflexivity.
  destruct p; reflexivity.
Qed.

Lemma shr_1_r (r : shr_record) :
  0 <= shr_m r -> shr_r (shr_1 r) = Z.testbit (shr_m r) 0.
Proof.
  destruct r as [m b s]; simpl. intros H.
  destruct m as [|p|p]; try lia; try reflexivity.
  destruct p; reflexivity.
Qed.

Lemma iter_shr_1 (n : positive) :
  forall r, 0 <= shr_m r ->
    shr_m (SpecFloat.iter_pos shr_1 n r) = Z.shiftr (shr_m r) (Zpos n) /\
    shr_r (SpecFloat.iter_pos shr_1 n r) = Z.testbit (shr_m r) (Zpos n - 1).
Proof.
  induction n as [n IH|n IH|]; intros r Hr; cbn [SpecFloat.iter_pos].
  - assert (H1 : 0 <= shr_m (shr_1 r))
      by (rewrite shr_1_m by lia; apply Z.shiftr_nonneg; lia).
    destruct (IH (shr_1 r) H1) as [A1 A2].
    assert (H2 : 0 <= shr_m (SpecFloat.iter_pos shr_1 n (shr_1 r)))
      by (rewrite A1; apply Z.shiftr_nonneg; lia).
    destruct (IH _ H2) as [B1 B2].
    rewrite B1, B2, A1, shr_1_m by lia.
    rewrite !Z.shiftr_shiftr by lia.
    rewrite Z.shiftr_spec by lia.
    split; f_equal; lia.
  - destruct (IH r Hr) as [A1 A2].
    assert (H2 : 0 <= shr_m (SpecFloat.iter_pos shr_1 n r))
      by (rewrite A1; apply Z.shiftr_nonneg; lia).
    destruct (IH _ H2) as [B1 B2].
    rewrite B1, B2, A1.
    rewrite !Z.shiftr_shiftr by lia.
    rewrite Z.shiftr_spec by lia.
    split; f_equal; lia.
  - rewrite shr_1_m, shr_1_r by lia. split; reflexivity.
Qed.

Lemma loc_of_record_of_loc (m : Z) (l : location) :
  loc_of_shr_record (shr_record_of_loc m l) = l.
Proof. destruct l as [|[]]; reflexivity. Qed.

Lemma shr_m_record_of_loc (m : Z) (l : location) :
  shr_m (shr_record_of_loc m l) = m.
Proof. destruct l as [|[]]; reflexivity. Qed.

Lemma round_nearest_even_cases (r : shr_record) :
  let m := round_nearest_even (shr_m r) (loc_of_shr_record r) in
  m = shr_m r \/ (m = shr_m r + 1 /\ shr_r r = true).
Proof.
  destruct r as [m [] []]; simpl; auto.
  destruct (Z.even m); auto.
Qed.

(** The first normalisation of [binary_round_aux] on a mantissa of at least
    53 digits: the mantissa is shifted down to 53 digits. *)
Lemma shr_fexp_normal (mx ex : Z) (lx : location) :
  0 < mx -> 53 <= Zdigits2 mx -> -1074 <= ex ->
  let n := Zdigits2 mx - 53 in
  exists mrs,
    shr_fexp 53 1024 mx ex lx = (mrs, ex + n) /\
    shr_m mrs = Z.shiftr mx n /\
    (0 < n -> shr_r mrs = Z.testbit mx (n - 1)).
Proof.
  intros Hm Hd He n. unfold shr_fexp, fexp, emin.
  replace (Z.max (Zdigits2 mx + ex - 53) (3 - 1024 - 53) - ex) with n by lia.
  destruct n as [|p|p] eqn:En; try lia; unfold shr.
  - eexists; split; [rewrite Z.add_0_r; reflexivity|].
    rewrite shr_m_record_of_loc, Z.shiftr_0_r. split; [reflexivity|lia].
  - assert (H0 : 0 <= shr_m (shr_record_of_loc mx lx))
      by (rewrite shr_m_record_of_loc; lia).
    destruct (iter_shr_1 p _ H0) as [A B].
    rewrite shr_m_record_of_loc in A, B.
    eexists; split; [reflexivity|]. split; [exact A|intros _; exact B].
Qed.

Lemma binary_round_aux_normal (s : bool) (mx ex : Z) (lx : location) :
  0 < mx -> 53 <= Zdigits2 mx -> -1074 <= ex ->
  let n := Zdigits2 mx - 53 in
  exists m e,
    binary_round_aux 53 1024 s mx ex lx =
      (if e <=? 971 then S754_finite s m e else S754_infinity s) /\
    2 ^ 52 <= Zpos m < 2 ^ 53 /\
    (e = ex + n \/
     (e = ex + n + 1 /\ Z.shiftr mx n = 2 ^ 53 - 1 /\
      (0 < n -> Z.testbit mx (n - 1) = true))).
Proof.
  intros Hm Hd He n.
  destruct (shr_fexp_normal mx ex lx Hm Hd He) as (mrs & E1 & M1 & R1).
  fold n in E1, M1, R1.
  assert (Hn : 0 <= n) by (unfold n; lia).
  assert (B1 : 2 ^ 52 <= shr_m mrs < 2 ^ 53).
  { rewrite M1, Z.shiftr_div_pow2 by lia.
    pose proof (Zdigits2_bounds mx Hm) as [L U].
    replace (Zdigits2 mx - 1) with (52 + n) in L by (unfold n; lia).
    replace (Zdigits2 mx) with (53 + n) in U by (unfold n; lia).
    rewrite Z.pow_add_r in L, U by lia.
    assert (0 < 2 ^ n) by (apply Z.pow_pos_nonneg; lia).
    split.
    - apply Z.div_le_lower_bound; lia.
    - apply Z.div_lt_upper_bound; lia. }
  unfold binary_round_aux. rewrite E1.
  set (m2 := round_nearest_even (shr_m mrs) (loc_of_shr_record mrs)).
  assert (C : m2 = shr_m mrs \/ (m2 = shr_m mrs + 1 /\ shr_r mrs = true))
    by apply round_nearest_even_cases.
  assert (Hm2 : 0 < m2) by lia.
  destruct (Z.eq_dec m2 (2 ^ 53)) as [Ec|Nc].
  - (* the rounding carries into a 54th digit *)
    assert (D2 : Zdigits2 m2 = 54) by (rewrite Ec; reflexivity).
    unfold shr_fexp, fexp, emin. rewrite D2.
    replace (Z.max (54 + (ex + n) - 53) (3 - 1024 - 53) - (ex + n)) with 1 by lia.
    rewrite Ec. cbn [shr shr_record_of_loc SpecFloat.iter_pos shr_1 shr_m].
    exists (4503599627370496%positive), (ex + n + 1).
    change (1024 - 53) with 971.
    split; [reflexivity|]. split; [split; [reflexivity|reflexivity]|].
    right. split; [reflexivity|].
    destruct C as [C|[C R]]; [lia|].
    split; [lia|]. intros Hp. rewrite <- R1 by lia. exact R.
  - assert (D2 : Zdigits2 m2 = 53) by (apply Zdigits2_unique; lia).
    unfold shr_fexp, fexp, emin. rewrite D2.
    replace (Z.max (53 + (ex + n) - 53) (3 - 1024 - 53) - (ex + n)) with 0 by lia.
    cbn [shr shr_record_of_loc shr_m].
    destruct m2 as [|p|p] eqn:E2; try lia.
    exists p, (ex + n). change (1024 - 53) with 971.
    split; [reflexivity|]. split; [lia|]. left; reflexivity.
Qed.

Lemma Zdigits2_lower (q k : Z) :
  0 < q -> 0 <= k -> 2 ^ k <= q -> k + 1 <= Zdigits2 q.
Proof.
  intros Hq Hk H. pose proof (Zdigits2_bounds q Hq) as [_ U].
  assert (0 < Zdigits2 q) by (destruct q; simpl in *; lia).
  assert (2 ^ k < 2 ^ Zdigits2 q) by lia.
  apply Z.pow_lt_mono_r_iff in H1; lia.
Qed.

Lemma Zdigits2_upper (q k : Z) :
  0 < q -> 0 <= k -> q < 2 ^ k -> Zdigits2 q <= k.
Proof.
  intros Hq Hk H. pose proof (Zdigits2_bounds q Hq) as [L _].
  assert (0 < Zdigits2 q) by (destruct q; simpl in *; lia).
  assert (2 ^ (Zdigits2 q - 1) < 2 ^ k) by lia.
  apply Z.pow_lt_mono_r_iff in H1; lia.
Qed.

Lemma div_eucl_div (a b q r : Z) : Z.div_eucl a b = (q, r) -> q = a / b.
Proof. intros E. unfold Z.div. rewrite E. reflexivity. Qed.

Lemma of_ratio_17 (s : bool) (p : Z) :
  17 <= p ->
  exists m e,
    F64.of_ratio s p 17 =
      (if e <=? 971 then S754_finite s m e else S754_infinity s) /\
    2 ^ 52 <= Zpos m < 2 ^ 53 /\ -52 <= e /\
    (p < overflow_row -> e <= 971).
Proof.
  intros Hp. assert (Hp0 : 0 < p) by lia.
  unfold F64.of_ratio. destruct p as [|p'|p'] eqn:Ep; try lia. rewrite <- Ep in *.
  clear Ep p'.
  unfold SFdiv_core_binary, F64.prec, F64.emax, fexp, emin.
  change (Zdigits2 17) with 5.
  pose proof (Zdigits2_bounds p Hp0) as [L U].
  assert (D5 : 5 <= Zdigits2 p) by (apply (Zdigits2_lower p 4); lia).
  set (d1 := Zdigits2 p) in *.
  replace (Z.min (Z.max (d1 + 0 - (5 + 0) - 53) (3 - 1024 - 53)) (0 - 0))
    with (Z.min (d1 - 58) 0) by lia.
  replace (0 - 0 - Z.min (d1 - 58) 0) with (- Z.min (d1 - 58) 0) by lia.
  destruct (Z_le_gt_dec d1 57) as [Hs|Hs].
  - (* small rows: the dividend is shifted up to 58 digits *)
    replace (Z.min (d1 - 58) 0) with (d1 - 58) by lia.
    set (sh := - (d1 - 58)).
    assert (Hsh : 0 < sh) by (unfold sh; lia).
    destruct sh as [|ps|ps] eqn:Esh; try lia. rewrite <- Esh in *.
    rewrite Z.shiftl_mul_pow2 by lia.
    destruct (Z.div_eucl (p * 2 ^ sh) 17) as [q r] eqn:Ed.
    apply div_eucl_div in Ed.
    assert (P2 : 0 < 2 ^ sh) by (apply Z.pow_pos_nonneg; lia).
    assert (L' : 2 ^ 57 <= p * 2 ^ sh).
    { replace 57 with (d1 - 1 + sh) by (unfold sh; lia).
      rewrite Z.pow_add_r by lia. nia. }
    assert (U' : p * 2 ^ sh < 2 ^ 58).
    { replace 58 with (d1 + sh) by (unfold sh; lia).
      rewrite Z.pow_add_r by lia. nia. }
    assert (Q1 : 2 ^ 52 <= q) by (subst q; apply Z.div_le_lower_bound; lia).
    assert (Q2 : q < 2 ^ 54) by (subst q; apply Z.div_lt_upper_bound; lia).
    assert (Q3 : 2 ^ sh <= q) by (subst q; apply Z.div_le_lower_bound; nia).
    assert (Hq : 0 < q) by lia.
    assert (Dq1 : 53 <= Zdigits2 q) by (apply (Zdigits2_lower q 52); lia).
    assert (Dq2 : Zdigits2 q <= 54) by (apply (Zdigits2_upper q 54); lia).
    assert (Dq3 : sh + 1 <= Zdigits2 q) by (apply (Zdigits2_lower q sh); lia).
    destruct (binary_round_aux_normal s q (d1 - 58) (new_location 17 r) Hq Dq1)
      as (m & e & E & B & C); [lia|].
    exists m, e. split; [exact E|]. split; [exact B|].
    unfold sh in Dq3. split; [lia|]. intros _. lia.
  - (* large rows: the quotient is taken as it is *)
    replace (Z.min (d1 - 58) 0) with 0 by lia. change (- 0) with 0. cbv iota.
    destruct (Z.div_eucl p 17) as [q r] eqn:Ed.
    apply div_eucl_div in Ed.
    assert (L' : 2 ^ 57 <= p).
    { assert (2 ^ 57 <= 2 ^ (d1 - 1)) by (apply Z.pow_le_mono_r; lia). lia. }
    assert (Q1 : 2 ^ 52 <= q) by (subst q; apply Z.div_le_lower_bound; lia).
    assert (Hq : 0 < q) by lia.
    assert (Dq1 : 53 <= Zdigits2 q) by (apply (Zdigits2_lower q 52); lia).
    destruct (binary_round_aux_normal s q 0 (new_location 17 r) Hq)
      as (m & e & E & B & C); [lia|lia|].
    exists m, e. split; [exact E|]. split; [exact B|].
    split; [lia|]. intros Hov.
    assert (Q2 : q < 2 ^ 1024 - 2 ^ 970).
    { subst q. apply Z.div_lt_upper_bound; [lia|]. unfold overflow_row in Hov. lia. }
    assert (Dq2 : Zdigits2 q <= 1024) by (apply (Zdigits2_upper q 1024); lia).
    destruct C as [C|(C1 & C2 & C3)]; [lia|].
    destruct (Z_lt_le_dec (Zdigits2 q - 53) 971) as [Hn|Hn]; [lia|].
    assert (En : Zdigits2 q - 53 = 971) by lia.
    rewrite En in *. exfalso.
    specialize (C3 ltac:(lia)). change (971 - 1) with 970 in C3.
    rewrite Z.shiftr_div_pow2 in C2 by lia.
    apply Z.testbit_true in C3; [|lia].
    assert (E970 : q / 2 ^ 970 = 2 * (q / 2 ^ 971) + 1).
    { replace (2 ^ 971) with (2 ^ 970 * 2) by reflexivity.
      rewrite <- Z.div_div by lia.
      pose proof (Z.div_mod (q / 2 ^ 970) 2). lia. }
    rewrite C2 in E970.
    pose proof (Z.mul_div_le q (2 ^ 970) ltac:(lia)) as M.
    rewrite E970 in M. lia.
Qed.

(** ** The values of the curves *)

Lemma f_1_0_eq : f_1_0 = S754_finite false 4503599627370496 (-52).
Proof. vm_compute. reflexivity. Qed.

Lemma min_one (m : positive) (e : Z) :
  2 ^ 52 <= Zpos m < 2 ^ 53 -> -52 <= e ->
  F64.min (S754_finite false m e) f_1_0 = f_1_0.
Proof.
  intros B He. rewrite f_1_0_eq. unfold F64.min, F64.ltb, SFltb, SFcompare.
  destruct (Z.compare_spec (-52) e) as [E|E|E].
  - subst e.
    change (PosDef.Pos.compare_cont Eq 4503599627370496 m)
      with (Z.compare (Zpos 4503599627370496) (Zpos m)).
    change (Z.pos 4503599627370496) with (2 ^ 52).
    destruct (Z.compare_spec (2 ^ 52) (Zpos m)) as [E|E|E].
    + change (2 ^ 52) with (Z.pos 4503599627370496) in E.
      injection E as <-. reflexivity.
    + reflexivity.
    + exfalso; lia.
  - reflexivity.
  - exfalso; lia.
Qed.

Lemma interp_fraction_top (p : Z) :
  17 <= p -> p < overflow_row -> interp_fraction p = Ok f_1_0.
Proof.
  intros Hp Ho. unfold interp_fraction, F64.int_truediv, MAX_ROW.
  change (17 =? 0) with false. cbv iota.
  replace (p <? 0) with false by (symmetry; apply Z.ltb_ge; lia).
  change (xorb false (17 <? 0)) with false.
  replace (Z.abs p) with p by lia. change (Z.abs 17) with 17.
  destruct (of_ratio_17 false p Hp) as (m & e & E & B & He & Hov).
  rewrite E. specialize (Hov Ho).
  replace (e <=? 971) with true by (symmetry; apply Z.leb_le; lia).
  cbn [F64.is_inf bind]. f_equal. apply min_one; assumption.
Qed.

Lemma interp_fraction_top_or_raise (p : Z) :
  17 <= p -> interp_fraction p = Ok f_1_0 \/ interp_fraction p = Raise OverflowError.
Proof.
  intros Hp. unfold interp_fraction, F64.int_truediv, MAX_ROW.
  change (17 =? 0) with false. cbv iota.
  replace (p <? 0) with false by (symmetry; apply Z.ltb_ge; lia).
  change (xorb false (17 <? 0)) with false.
  replace (Z.abs p) with p by lia. change (Z.abs 17) with 17.
  destruct (of_ratio_17 false p Hp) as (m & e & E & B & He & Hov).
  rewrite E. destruct (e <=? 971).
  - left. cbn [F64.is_inf bind]. f_equal. apply min_one; assumption.
  - right. reflexivity.
Qed.

Lemma checkpoint_above (p : Z) (m : float) : 17 < p -> checkpoint p m = m.
Proof.
  intros H. unfold checkpoint.
  replace (p =? 8) with false by (symmetry; apply Z.eqb_neq; lia).
  replace (p =? 12) with false by (symmetry; apply Z.eqb_neq; lia).
  replace (p =? 16) with false by (symmetry; apply Z.eqb_neq; lia).
  replace (p =? 17) with false by (symmetry; apply Z.eqb_neq; lia).
  reflexivity.
Qed.

Lemma compute_mult_above (p : Z) (t : string) (c : curve) :
  17 < p -> p < overflow_row -> lookup_name t CURVES = Some c ->
  compute_mult p t = Ok (Some (top_value t c)).
Proof.
  intros Hp Ho Hc. unfold compute_mult. rewrite Hc.
  rewrite interp_fraction_top by lia. cbn [bind].
  rewrite checkpoint_above by lia. reflexivity.
Qed.

Lemma lookup_name_In {A} (t : string) (d : list (string * A)) (c : A) :
  lookup_name t d = Some c -> In (t, c) d.
Proof.
  induction d as [|[k v] d IH]; cbn [lookup_name In]; [discriminate|].
  destruct (String.eqb_spec t k) as [->|N].
  - intros [= ->]. left; reflexivity.
  - intros H. right. auto.
Qed.

Ltac each_curve H :=
  apply lookup_name_In in H; unfold CURVES in H; cbn [In] in H;
  repeat (destruct H as [H|H]; [injection H as <- <-|]); [..|contradiction].

Lemma small_cases (p : Z) : 0 <= p <= 17 ->
  p = 0 \/ p = 1 \/ p = 2 \/ p = 3 \/ p = 4 \/ p = 5 \/ p = 6 \/ p = 7 \/ p = 8 \/
  p = 9 \/ p = 10 \/ p = 11 \/ p = 12 \/ p = 13 \/ p = 14 \/ p = 15 \/ p = 16 \/ p = 17.
Proof. lia. Qed.

Ltac each_row H :=
  apply small_cases in H;
  repeat (destruct H as [H|H]; [subst|]); [..|subst].

(** The values of the curve at rows 0 to 17, as hundredths. *)

Lemma top_value_ok t c : lookup_name t CURVES = Some c -> value_ok t (top_value t c).
Proof.
  intros H. each_curve H;
  match goal with |- value_ok ?t ?v =>
    let k := eval vm_compute in
      (match v with S754_finite _ m e => F64.scaled_digits m e 2 | _ => 0 end) in
    exists k; split; [lia|vm_compute; reflexivity] end.
Qed.

Lemma compute_mult_small (p : Z) t c :
  0 <= p <= 17 -> lookup_name t CURVES = Some c ->
  exists v, compute_mult p t = Ok (Some v) /\ value_ok t v.
Proof.
  intros Hp H. each_curve H; each_row Hp;
  match goal with |- exists v, ?r = _ /\ _ =>
    let r' := eval vm_compute in r in
    match r' with Ok (Some ?v) =>
      exists v; split; [vm_compute; reflexivity|];
      let k := eval vm_compute in
        (match v with S754_finite _ m e => F64.scaled_digits m e 2 | _ => 0 end) in
      exists k; split; [lia|vm_compute; reflexivity]
    end
  end.
Qed.

(** ** Facts about the patterns and substitutions *)

(** *** Characters and classes *)

Lemma char_eqb_eq (a b : char) : char_eqb a b = true -> a = b.
Proof. apply N.eqb_eq. Qed.

Lemma char_eqb_refl (c : char) : char_eqb c c = true.
Proof. apply N.eqb_refl. Qed.

Lemma char_eqb_neq (a b : char) : char_eqb a b = false -> a <> b.
Proof. apply N.eqb_neq. Qed.

Lemma ranges_apart_sound (rs1 rs2 : list (N * N)) (c : char) :
  ranges_apart rs1 rs2 = true ->
  in_ranges rs1 c = true -> in_ranges rs2 c = false.
Proof.
  unfold ranges_apart, in_ranges. intros A H.
  apply existsb_exists in H as (a & Ia & Ha).
  rewrite forallb_forall in A. specialize (A a Ia).
  rewrite forallb_forall in A.
  apply not_true_is_false. intros K.
  apply existsb_exists in K as (b & Ib & Hb).
  specialize (A b Ib).
  apply andb_prop in Ha as [A1 A2]. apply andb_prop in Hb as [B1 B2].
  apply N.leb_le in A1, A2, B1, B2.
  apply orb_prop in A as [A|A]; apply N.ltb_lt in A; lia.
Qed.

Lemma digit_not_space (c : char) : is_digit c = true -> is_space c = false.
Proof.
  apply ranges_apart_sound. vm_compute. reflexivity.
Qed.

Lemma space_not_digit (c : char) : is_space c = true -> is_digit c = false.
Proof.
  apply ranges_apart_sound. vm_compute. reflexivity.
Qed.

(** A character of a class is not a given character outside it. *)
Lemma class_excludes (f : char -> bool) (k c : char) :
  f k = false -> f c = true -> char_eqb c k = false.
Proof.
  intros Hk Hc. destruct (char_eqb c k) eqn:E; [|reflexivity].
  apply char_eqb_eq in E. congruence.
Qed.

Lemma digit_val_range (c : char) : 0 <= digit_val c <= 9.
Proof.
  unfold digit_val.
  destruct (find _ DIGIT_ZEROS) as [z|] eqn:E; [|lia].
  apply find_some in E as [_ E]. apply andb_prop in E as [A B].
  apply N.leb_le in A, B. lia.
Qed.

(** *** Literals and greedy classes *)

Lemma strip_spec (p s r : text) : strip p s = Some r -> s = p ++ r.
Proof.
  revert s. induction p as [|c p IH]; intros s; cbn [strip].
  - intros [= ->]. reflexivity.
  - destruct s as [|d s]; [discriminate|].
    destruct (char_eqb c d) eqn:E; [|discriminate].
    apply char_eqb_eq in E. subst d. intros H. apply IH in H. subst s. reflexivity.
Qed.

Lemma strip_app (p r : text) : strip p (p ++ r) = Some r.
Proof.
  induction p as [|c p IH]; cbn [strip app]; [reflexivity|].
  rewrite char_eqb_refl. exact IH.
Qed.

Lemma strip_some_iff (p s : text) :
  strip p s <> None <-> exists r, s = p ++ r.
Proof.
  split.
  - destruct (strip p s) as [r|] eqn:E; [|congruence].
    intros _. exists r. apply strip_spec. exact E.
  - intros [r ->]. rewrite strip_app. discriminate.
Qed.

Lemma span_spec (f : char -> bool) (s a b : text) :
  span f s = (a, b) -> s = a ++ b /\ forallb f a = true.
Proof.
  revert a b. induction s as [|c s IH]; intros a b; cbn [span].
  - intros [= <- <-]. split; reflexivity.
  - destruct (f c) eqn:E.
    + destruct (span f s) as [a' b'] eqn:E'. intros [= <- <-].
      destruct (IH a' b' eq_refl) as [-> F]. split; [reflexivity|].
      cbn [forallb]. rewrite E, F. reflexivity.
    + intros [= <- <-]. split; reflexivity.
Qed.

Lemma span_all (f : char -> bool) (a b : text) :
  forallb f a = true ->
  match b with [] => True | c :: _ => f c = false end ->
  span f (a ++ b) = (a, b).
Proof.
  induction a as [|c a IH]; cbn [app forallb]; intros Ha Hb.
  - destruct b as [|c b]; cbn [span]; [reflexivity|]. rewrite Hb. reflexivity.
  - apply andb_true_iff in Ha as [H1 H2]. cbn [span]. rewrite H1, (IH H2 Hb).
    reflexivity.
Qed.

Lemma span_all_nil (f : char -> bool) (a : text) :
  forallb f a = true -> span f a = (a, []).
Proof.
  intros H. pose proof (span_all f a [] H I) as E.
  rewrite app_nil_r in E. exact E.
Qed.

Lemma span_head (f : char -> bool) (s a b : text) :
  span f s = (a, b) -> match b with [] => True | c :: _ => f c = false end.
Proof.
  revert a b. induction s as [|c s IH]; intros a b; cbn [span].
  - intros [= <- <-]. exact I.
  - destruct (f c) eqn:E.
    + destruct (span f s) as [a' b'] eqn:E'. intros [= <- <-]. eapply IH. reflexivity.
    + intros [= <- <-]. exact E.
Qed.

Lemma span_cons (f : char -> bool) (c : char) (s : text) :
  f c = true -> exists a b, span f (c :: s) = (c :: a, b).
Proof.
  intros H. cbn [span]. rewrite H. destruct (span f s) as [a b]. eauto.
Qed.

Lemma contains_app (p pre r : text) : contains p (pre ++ p ++ r) = true.
Proof.
  induction pre as [|c pre IH]; cbn [app].
  - destruct (p ++ r) as [|d s] eqn:E; cbn [contains].
    + destruct p; [reflexivity|discriminate].
    + rewrite <- E, strip_app. reflexivity.
  - cbn [contains]. destruct (strip p (c :: pre ++ p ++ r)); [reflexivity|exact IH].
Qed.

(** *** Replacing the leftmost match

    Every [re.sub] with [count=1] of the source has this shape: [M] gives
    the text that takes the place of a line which starts with a match. *)

Section Leftmost.

Variable M : text -> option text.
Variable sub : text -> text.
Hypothesis sub_eq : forall s,
  sub s = match M s with
          | Some r => r
          | None => match s with [] => [] | c :: s' => c :: sub s' end
          end.

Lemma leftmost_sub (s : text) :
  ((forall j, M (drop j s) = None) /\ sub s = s) \/
  (exists pre tl r,
     s = pre ++ tl /\ M tl = Some r /\
     (forall j, (j < length pre)%nat -> M (drop j s) = None) /\
     sub s = pre ++ r).
Proof.
  induction s as [|c s IH]; rewrite sub_eq.
  - destruct (M []) as [r|] eqn:E.
    + right. exists [], [], r. cbn [app length]. repeat split; try assumption.
      intros j Hj. lia.
    + left. split; [|reflexivity]. intros j. rewrite drop_nil. exact E.
  - destruct (M (c :: s)) as [r|] eqn:E.
    + right. exists [], (c :: s), r. cbn [app length]. repeat split; try assumption.
      intros j Hj. lia.
    + destruct IH as [[N1 E1]|(pre & tl & r & S1 & M1 & N1 & E1)].
      * left. split; [|rewrite E1; reflexivity].
        intros [|j]; [exact E|]. cbn [drop]. apply N1.
      * right. exists (c :: pre), tl, r. cbn [app length]. rewrite E1, S1.
        repeat split; try assumption.
        intros [|j] Hj; [rewrite <- S1; exact E|]. cbn [drop].
        rewrite <- S1. apply N1. lia.
Qed.

End Leftmost.

(** *** The number and the multiplier literal *)

Lemma match_number_spec (s lit rest : text) :
  match_number s = Some (lit, rest) -> s = lit ++ rest.
Proof.
  unfold match_number.
  destruct (match s with
            | [] => ([], s)
            | c :: s' => if char_eqb c (ch "-") then ([c], s') else ([], s)
            end) as [sg s1] eqn:E1.
  assert (H1 : s = sg ++ s1).
  { destruct s as [|c s']; [injection E1 as <- <-; reflexivity|].
    destruct (char_eqb c (ch "-")); injection E1 as <- <-; reflexivity. }
  destruct (span is_digit s1) as [d1 s2] eqn:E2.
  apply span_spec in E2 as [H2 _].
  destruct (is_nil d1); [discriminate|].
  destruct (match s2 with
            | [] => ([], s2)
            | c :: s' => if char_eqb c (ch ".") then ([c], s') else ([], s2)
            end) as [dot s3] eqn:E3.
  assert (H3 : s2 = dot ++ s3).
  { destruct s2 as [|c s']; [injection E3 as <- <-; reflexivity|].
    destruct (char_eqb c (ch ".")); injection E3 as <- <-; reflexivity. }
  destruct (span is_digit s3) as [d2 s4] eqn:E4.
  apply span_spec in E4 as [H4 _].
  intros [= <- <-]. subst. rewrite <- !app_assoc. reflexivity.
Qed.

Lemma match_number_at (s : text) (x : text * text) :
  match_number s = Some x -> number_at s.
Proof.
  unfold match_number. destruct s as [|c s'].
  - cbn [span is_nil]. discriminate.
  - destruct (char_eqb c (ch "-")) eqn:Ec.
    + apply char_eqb_eq in Ec. subst c.
      destruct s' as [|d r]; [cbn [span is_nil]; discriminate|].
      cbn [span]. destruct (is_digit d) eqn:Ed; [|cbn [is_nil]; discriminate].
      intros _. exists (tx "-"), d, r. repeat split; [right; reflexivity|exact Ed].
    + cbn [span]. destruct (is_digit c) eqn:Ed; [|cbn [is_nil]; discriminate].
      intros _. exists [], c, s'. repeat split; [left; reflexivity|exact Ed].
Qed.

Lemma number_at_match (s : text) : number_at s -> match_number s <> None.
Proof.
  assert (D : forall d r, is_digit d = true ->
                match_number (d :: r) <> None).
  { intros d r Hd. unfold match_number.
    rewrite (class_excludes is_digit (ch "-") d eq_refl Hd).
    destruct (span_cons is_digit d r Hd) as (a & b & ->). cbn [is_nil].
    destruct (match b with
              | [] => ([], b)
              | c :: s' => if char_eqb c (ch ".") then ([c], s') else ([], b)
              end) as [dot s3].
    destruct (span is_digit s3). discriminate. }
  intros (sg & d & r & -> & [->| ->] & Hd).
  - exact (D d r Hd).
  - unfold match_number. cbn [tx list_ascii_of_string map app].
    rewrite char_eqb_refl.
    destruct (span_cons is_digit d r Hd) as (a & b & ->). cbn [is_nil].
    destruct (match b with
              | [] => ([], b)
              | c :: s' => if char_eqb c (ch ".") then ([c], s') else ([], b)
              end) as [dot s3].
    destruct (span is_digit s3). discriminate.
Qed.

(** [match_number] succeeds exactly where a number starts. *)
Lemma match_number_none_iff (s : text) :
  match_number s = None <-> ~ number_at s.
Proof.
  split.
  - intros H K. exact (number_at_match s K H).
  - intros H. destruct (match_number s) as [x|] eqn:E; [|reflexivity].
    exfalso. apply H. eapply match_number_at. exact E.
Qed.

Lemma number_at_head (s : text) :
  number_at s -> match s with [] => True | c :: _ => is_space c = false end.
Proof.
  intros (sg & d & r & -> & [->| ->] & Hd); cbn [app tx list_ascii_of_string map].
  - apply digit_not_space. exact Hd.
  - reflexivity.
Qed.

Lemma match_multiplier_spec (s ws lit rest : text) :
  match_multiplier s = Some (ws, lit, rest) ->
  s = kw_multiplier ++ ws ++ lit ++ rest /\
  forallb is_space ws = true /\
  match_number (lit ++ rest) = Some (lit, rest).
Proof.
  unfold match_multiplier.
  destruct (strip kw_multiplier s) as [s1|] eqn:E1; [|discriminate].
  apply strip_spec in E1.
  destruct (span is_space s1) as [ws' s2] eqn:E2.
  apply span_spec in E2 as [H2 W].
  destruct (match_number s2) as [[lit' rest']|] eqn:E3; [|discriminate].
  intros [= <- <- <-]. pose proof (match_number_spec _ _ _ E3) as H3.
  subst. split; [reflexivity|]. split; [exact W|exact E3].
Qed.

(** [match_multiplier] succeeds exactly where a match of the substitution
    pattern starts. *)
Lemma match_multiplier_none_iff (s : text) :
  match_multiplier s = None <-> ~ multiplier_at s.
Proof.
  split.
  - intros H (ws & t & -> & W & Nt). revert H. unfold match_multiplier.
    rewrite strip_app.
    rewrite (span_all is_space ws t W (number_at_head t Nt)).
    destruct (match_number t) as [[lit rest]|] eqn:E; [discriminate|].
    apply match_number_none_iff in E. contradiction.
  - intros H. destruct (match_multiplier s) as [[[ws lit] rest]|] eqn:E; [|reflexivity].
    exfalso. apply H. revert E. unfold match_multiplier.
    destruct (strip kw_multiplier s) as [s1|] eqn:E1; [|discriminate].
    apply strip_spec in E1.
    destruct (span is_space s1) as [ws' s2] eqn:E2.
    apply span_spec in E2 as [H2 W].
    destruct (match_number s2) as [[lit' rest']|] eqn:E3; [|discriminate].
    intros _. exists ws', s2. subst. repeat split; [exact W|].
    eapply match_number_at. exact E3.
Qed.

(** What the substitution of the multiplier literal does to a line: no
    match and no change, or the literal of the leftmost match replaced. *)
Lemma sub_multiplier_spec (repl s : text) :
  ((forall j, ~ multiplier_at (drop j s)) /\ sub_multiplier repl s = s) \/
  (exists pre ws old rest,
     s = pre ++ kw_multiplier ++ ws ++ old ++ rest /\
     forallb is_space ws = true /\
     match_number (old ++ rest) = Some (old, rest) /\
     (forall j, (j < length pre)%nat -> ~ multiplier_at (drop j s)) /\
     sub_multiplier repl s = pre ++ kw_multiplier ++ ws ++ repl ++ rest).
Proof.
  destruct (leftmost_sub
              (fun s => match match_multiplier s with
                        | Some (ws, _, rest) =>
                            Some (kw_multiplier ++ ws ++ repl ++ rest)
                        | None => None
                        end)
              (sub_multiplier repl)) with (s := s)
    as [[N E]|(pre & tl & r & S & M & N & E)].
  - intros s0. destruct s0; cbn [sub_multiplier];
      destruct (match_multiplier _) as [[[ws lit] rest]|]; reflexivity.
  - left. split; [|exact E]. intros j. apply match_multiplier_none_iff.
    specialize (N j). cbv beta in N.
    destruct (match_multiplier (drop j s)) as [[[ws lit] rest]|];
      [discriminate|reflexivity].
  - right. destruct (match_multiplier tl) as [[[ws lit] rest]|] eqn:Em;
      [|discriminate].
    injection M as <-.
    apply match_multiplier_spec in Em as (-> & W & Nm).
    exists pre, ws, lit, rest. split; [exact S|]. split; [exact W|].
    split; [exact Nm|]. split; [|exact E].
    intros j Hj. apply match_multiplier_none_iff.
    specialize (N j Hj). cbv beta in N.
    destruct (match_multiplier (drop j s)) as [[[ws' lit'] rest']|];
      [discriminate|reflexivity].
Qed.

Lemma multiplier_at_drop (pre s : text) :
  multiplier_at s -> multiplier_at (drop (length pre) (pre ++ s)).
Proof. rewrite drop_app_length. exact id. Qed.

Lemma lazy_multiplier_found (s lit : text) :
  lazy_multiplier s = Some lit ->
  exists pre s', s = pre ++ s' /\ multiplier_at s'.
Proof.
  induction s as [|c s IH]; cbn [lazy_multiplier].
  - destruct (match_multiplier []) as [[[ws l] r]|] eqn:E; [|discriminate].
    intros _. exists [], []. split; [reflexivity|].
    apply match_multiplier_spec in E as (E & _). destruct kw_multiplier eqn:K;
      discriminate.
  - destruct (match_multiplier (c :: s)) as [[[ws l] r]|] eqn:E.
    + intros _. exists [], (c :: s). split; [reflexivity|].
      apply match_multiplier_spec in E as (E & W & Nm).
      exists ws, (l ++ r). split; [exact E|]. split; [exact W|].
      eapply match_number_at. exact Nm.
    + destruct (is_newline c); [discriminate|]. intros H.
      destruct (IH H) as (pre & s' & -> & N).
      exists (c :: pre), s'. split; [reflexivity|assumption].
Qed.

Lemma match_target_found (s name lit : text) :
  match_target s = Some (name, lit) ->
  exists pre s', s = pre ++ s' /\ multiplier_at s'.
Proof.
  unfold match_target.
  destruct (strip kw_target s) as [s1|] eqn:E1; [|discriminate].
  apply strip_spec in E1.
  destruct (span is_space s1) as [ws s2] eqn:E2. apply span_spec in E2 as [E2 _].
  destruct (strip quote s2) as [s3|] eqn:E3; [|discriminate].
  apply strip_spec in E3.
  destruct (span is_word s3) as [nm s4] eqn:E4. apply span_spec in E4 as [E4 _].
  destruct (is_nil nm); [discriminate|].
  destruct (strip quote s4) as [s5|] eqn:E5; [|discriminate].
  apply strip_spec in E5.
  destruct (lazy_multiplier s5) as [l|] eqn:E6; [|discriminate].
  intros _. destruct (lazy_multiplier_found _ _ E6) as (pre & s' & -> & N).
  exists (kw_target ++ ws ++ quote ++ nm ++ quote ++ pre), s'.
  split; [|assumption]. subst. rewrite <- !app_assoc. reflexivity.
Qed.

Lemma search_target_found (s name lit : text) :
  search_target s = Some (name, lit) ->
  exists pre s', s = pre ++ s' /\ multiplier_at s'.
Proof.
  induction s as [|c s IH]; cbn [search_target].
  - destruct (match_target []) as [[n l]|] eqn:E; [|discriminate].
    intros _. eapply match_target_found; eassumption.
  - destruct (match_target (c :: s)) as [[n l]|] eqn:E.
    + intros _. eapply match_target_found; eassumption.
    + intros H. destruct (IH H) as (pre & s' & -> & N).
      exists (c :: pre), s'. split; [reflexivity|assumption].
Qed.

(** A line with a target occurrence has a multiplier literal, and the
    substitution replaces the literal of the leftmost one. *)
Lemma sub_multiplier_rewrites (repl s name lit : text) :
  search_target s = Some (name, lit) ->
  exists pre ws old rest,
    s = pre ++ kw_multiplier ++ ws ++ old ++ rest /\
    forallb is_space ws = true /\
    match_number (old ++ rest) = Some (old, rest) /\
    (forall j, (j < length pre)%nat -> ~ multiplier_at (drop j s)) /\
    sub_multiplier repl s = pre ++ kw_multiplier ++ ws ++ repl ++ rest.
Proof.
  intros H. destruct (search_target_found _ _ _ H) as (pre & s' & E & N).
  destruct (sub_multiplier_spec repl s) as [[F _]|F]; [|exact F].
  exfalso. apply (F (length pre)). rewrite E. apply multiplier_at_drop. exact N.
Qed.

(** *** The description pattern *)







(** *** The milestone pattern *)

Lemma match_unsigned_spec (s lit rest : text) :
  match_unsigned s = Some (lit, rest) -> s = lit ++ rest.
Proof.
  unfold match_unsigned.
  destruct (span is_digit s) as [d1 s2] eqn:E2.
  apply span_spec in E2 as [H2 _].
  destruct (is_nil d1); [discriminate|].
  destruct (match s2 with
            | [] => ([], s2)
            | c :: s' => if char_eqb c (ch ".") then ([c], s') else ([], s2)
            end) as [dot s3] eqn:E3.
  assert (H3 : s2 = dot ++ s3).
  { destruct s2 as [|c s']; [injection E3 as <- <-; reflexivity|].
    destruct (char_eqb c (ch ".")); injection E3 as <- <-; reflexivity. }
  destruct (span is_digit s3) as [d2 s4] eqn:E4.
  apply span_spec in E4 as [H4 _].
  intros [= <- <-]. subst. rewrite <- !app_assoc. reflexivity.
Qed.

(** [match_unsigned] succeeds exactly on a text that starts with a
    decimal digit. *)
Lemma match_unsigned_digit (d : char) (r : text) :
  is_digit d = true -> exists lit rest, match_unsigned (d :: r) = Some (lit, rest).
Proof.
  intros Hd. unfold match_unsigned.
  destruct (span_cons is_digit d r Hd) as (a & b & ->). cbn [is_nil].
  destruct (match b with
            | [] => ([], b)
            | c :: s' => if char_eqb c (ch ".") then ([c], s') else ([], b)
            end) as [dot s3].
  destruct (span is_digit s3). eauto.
Qed.

Lemma match_unsigned_head (s : text) (x : text * text) :
  match_unsigned s = Some x -> exists d r, s = d :: r /\ is_digit d = true.
Proof.
  unfold match_unsigned. destruct s as [|d r]; [cbn; discriminate|].
  cbn [span]. destruct (is_digit d) eqn:Ed; [|cbn; discriminate].
  intros _. eauto.
Qed.

Ltac kw_eq :=
  unfold reward_prefix, kw_type, kw_value, kw_brace, quote, comma, tx;
  cbn [list_ascii_of_string map];
  repeat first [rewrite <- app_assoc | progress cbn [app]]; reflexivity.

Lemma match_type_value_spec (name : option text) (s g1 w rest : text) :
  match_type_value name s = Some (g1, w, rest) ->
  s = g1 ++ rest /\
  exists ws1 ws2 ws3,
    g1 = reward_prefix w ws1 ws2 ws3 /\
    forallb is_space ws1 = true /\ forallb is_space ws2 = true /\
    forallb is_space ws3 = true /\
    match rest with [] => True | c :: _ => is_space c = false end /\
    match name with Some n => w = n | None => True end.
Proof.
  unfold match_type_value.
  destruct (strip kw_type s) as [s1|] eqn:E1; [|discriminate].
  apply strip_spec in E1.
  destruct (span is_space s1) as [ws1 s2] eqn:E2. apply span_spec in E2 as [E2 W1].
  destruct (strip quote s2) as [s3|] eqn:E3; [|discriminate].
  apply strip_spec in E3.
  destruct (match name with
            | Some n => match strip n s3 with Some s4 => Some (n, s4) | None => None end
            | None => let '(w0, s4) := span is_word s3 in
                      if is_nil w0 then None else Some (w0, s4)
            end) as [[w0 s4]|] eqn:E4; [|discriminate].
  assert (H4 : s3 = w0 ++ s4 /\ match name with Some n => w0 = n | None => True end).
  { destruct name as [n|].
    - destruct (strip n s3) as [s4'|] eqn:E; [|discriminate].
      injection E4 as <- <-. apply strip_spec in E. split; [exact E|reflexivity].
    - destruct (span is_word s3) as [w1 s4'] eqn:E. apply span_spec in E as [E _].
      destruct (is_nil w1); [discriminate|]. injection E4 as <- <-.
      split; [exact E|exact I]. }
  destruct H4 as [H4 Hn].
  destruct (strip quote s4) as [s5|] eqn:E5; [|discriminate].
  apply strip_spec in E5.
  destruct (strip comma s5) as [s6|] eqn:E6; [|discriminate].
  apply strip_spec in E6.
  destruct (span is_space s6) as [ws2 s7] eqn:E7. apply span_spec in E7 as [E7 W2].
  destruct (strip kw_value s7) as [s8|] eqn:E8; [|discriminate].
  apply strip_spec in E8.
  destruct (span is_space s8) as [ws3 s9] eqn:E9.
  pose proof (span_head _ _ _ _ E9) as Hh.
  apply span_spec in E9 as [E9 W3].
  intros H. injection H as <- <- <-. split.
  - subst. kw_eq.
  - exists ws1, ws2, ws3. repeat split; assumption.
Qed.

(** A line that starts with the pattern for [rtype] is matched, with the
    prefix the shape describes. *)
Lemma match_type_value_complete (rtype ws1 ws2 ws3 rest : text) :
  forallb is_space ws1 = true -> forallb is_space ws2 = true ->
  forallb is_space ws3 = true ->
  match rest with [] => True | c :: _ => is_space c = false end ->
  match_type_value (Some rtype) (reward_prefix rtype ws1 ws2 ws3 ++ rest) =
    Some (reward_prefix rtype ws1 ws2 ws3, rtype, rest).
Proof.
  intros W1 W2 W3 Hr. unfold match_type_value, reward_prefix.
  rewrite <- !app_assoc. rewrite strip_app.
  rewrite (span_all is_space ws1) by (exact W1 || reflexivity).
  rewrite strip_app, strip_app, strip_app, strip_app.
  rewrite (span_all is_space ws2) by (exact W2 || reflexivity).
  rewrite strip_app.
  rewrite (span_all is_space ws3 rest W3 Hr).
  reflexivity.
Qed.

Lemma match_sub_reward_spec (rtype ns s r : text) :
  match_sub_reward rtype ns s = Some r ->
  exists ws1 ws2 ws3 old rest,
    s = reward_prefix rtype ws1 ws2 ws3 ++ old ++ rest /\
    forallb is_space ws1 = true /\ forallb is_space ws2 = true /\
    forallb is_space ws3 = true /\
    match_unsigned (old ++ rest) = Some (old, rest) /\
    r = reward_prefix rtype ws1 ws2 ws3 ++ ns ++ rest.
Proof.
  unfold match_sub_reward.
  destruct (match_type_value (Some rtype) s) as [[[g1 w] s1]|] eqn:E; [|discriminate].
  destruct (match_unsigned s1) as [[old rest]|] eqn:U; [|discriminate].
  intros [= <-].
  destruct (match_type_value_spec _ _ _ _ _ E)
    as (-> & ws1 & ws2 & ws3 & -> & W1 & W2 & W3 & _ & ->).
  pose proof (match_unsigned_spec _ _ _ U) as ->.
  exists ws1, ws2, ws3, old, rest. repeat split; assumption.
Qed.

Lemma match_sub_reward_none_iff (rtype ns s : text) :
  match_sub_reward rtype ns s = None <-> ~ reward_at rtype s.
Proof.
  split.
  - intros H (ws1 & ws2 & ws3 & d & r & -> & W1 & W2 & W3 & Hd).
    revert H. unfold match_sub_reward.
    rewrite (match_type_value_complete rtype ws1 ws2 ws3 (d :: r) W1 W2 W3
               (digit_not_space d Hd)).
    destruct (match_unsigned_digit d r Hd) as (lit & rest & ->). discriminate.
  - intros H. destruct (match_sub_reward rtype ns s) as [r|] eqn:E; [|reflexivity].
    exfalso. apply H.
    destruct (match_sub_reward_spec _ _ _ _ E)
      as (ws1 & ws2 & ws3 & old & rest & -> & W1 & W2 & W3 & U & _).
    destruct (match_unsigned_head _ _ U) as (d & r0 & -> & Hd).
    exists ws1, ws2, ws3, d, r0. repeat split; assumption.
Qed.

Lemma sub_reward_unfold (rtype ns s : text) :
  sub_reward rtype ns s =
    match match_sub_reward rtype ns s with
    | Some r => r
    | None =>
        match s with
        | [] => []
        | c :: s' => c :: sub_reward rtype ns s'
        end
    end.
Proof. destruct s; reflexivity. Qed.

(** What the substitution of a milestone value does to a line: no match
    and no change, or the number of the leftmost match replaced. *)
Lemma sub_reward_spec (rtype ns s : text) :
  ((forall j, ~ reward_at rtype (drop j s)) /\ sub_reward rtype ns s = s) \/
  (exists pre ws1 ws2 ws3 old rest,
     s = pre ++ reward_prefix rtype ws1 ws2 ws3 ++ old ++ rest /\
     forallb is_space ws1 = true /\ forallb is_space ws2 = true /\
     forallb is_space ws3 = true /\
     match_unsigned (old ++ rest) = Some (old, rest) /\
     (forall j, (j < length pre)%nat -> ~ reward_at rtype (drop j s)) /\
     sub_reward rtype ns s =
       pre ++ reward_prefix rtype ws1 ws2 ws3 ++ ns ++ rest).
Proof.
  destruct (leftmost_sub (match_sub_reward rtype ns) (sub_reward rtype ns)
              (sub_reward_unfold rtype ns) s)
    as [[N E]|(pre & tl & r & S & M & N & E)].
  - left. split; [|exact E]. intros j.
    apply (match_sub_reward_none_iff rtype ns). apply N.
  - right.
    destruct (match_sub_reward_spec _ _ _ _ M)
      as (ws1 & ws2 & ws3 & old & rest & -> & W1 & W2 & W3 & U & ->).
    exists pre, ws1, ws2, ws3, old, rest. repeat split; try assumption.
    intros j Hj. apply (match_sub_reward_none_iff rtype ns). apply N. exact Hj.
Qed.

(** *** Groups as dictionary keys *)

Lemma ch_ascii_of_N (n : N) : (n < 256)%N -> ch (ascii_of_N n) = n.
Proof. apply N_ascii_embedding. Qed.

Lemma utf8_head (c : char) :
  (c < 1114112)%N ->
  ((c < 128)%N /\ utf8 c = [ascii_of_N c]) \/
  (exists b r, utf8 c = b :: r /\ (128 <= ch b)%N).
Proof.
  intros V. unfold utf8.
  destruct (c <? 128)%N eqn:E1.
  - left. apply N.ltb_lt in E1. split; [exact E1|reflexivity].
  - right. apply N.ltb_ge in E1.
    destruct (c <? 2048)%N eqn:E2; [|destruct (c <? 65536)%N eqn:E3].
    + apply N.ltb_lt in E2. eexists _, _. split; [reflexivity|].
      assert (c / 64 < 32)%N by (apply N.Div0.div_lt_upper_bound; lia).
      rewrite ch_ascii_of_N; [apply N.le_trans with 192%N; [lia|apply N.le_add_r] | lia].
    + apply N.ltb_lt in E3. eexists _, _. split; [reflexivity|].
      assert (c / 4096 < 16)%N by (apply N.Div0.div_lt_upper_bound; lia).
      rewrite ch_ascii_of_N; [apply N.le_trans with 224%N; [lia|apply N.le_add_r] | lia].
    + eexists _, _. split; [reflexivity|].
      assert (c / 262144 < 5)%N by (apply N.Div0.div_lt_upper_bound; lia).
      rewrite ch_ascii_of_N; [apply N.le_trans with 240%N; [lia|apply N.le_add_r] | lia].
Qed.

Lemma utf8_ascii_text (t : text) (l : list ascii) :
  Forall (fun c => (c < 1114112)%N) t ->
  Forall (fun a => (ch a < 128)%N) l ->
  flat_map utf8 t = l -> t = map ch l.
Proof.
  revert l. induction t as [|c t IH]; intros l V A; cbn [flat_map].
  - intros <-. reflexivity.
  - inversion V as [|? ? Vc Vt]; subst.
    destruct (utf8_head c Vc) as [[Hc ->]|(b & r & -> & Hb)]; cbn [app].
    + intros <-. inversion A as [|? ? _ At]; subst. cbn [map].
      rewrite ch_ascii_of_N by lia. f_equal. apply IH; [assumption..|reflexivity].
    + intros <-. inversion A as [|? ? Ab _]; subst. lia.
Qed.

Lemma utf8_of_ascii (l : list ascii) :
  Forall (fun a => (ch a < 128)%N) l -> flat_map utf8 (map ch l) = l.
Proof.
  induction l as [|a l IH]; intros A; [reflexivity|].
  inversion A as [|? ? Aa Al]; subst. cbn [map flat_map].
  rewrite (IH Al). unfold utf8.
  destruct (ch a <? 128)%N eqn:E; [|apply N.ltb_ge in E; lia].
  unfold ch. rewrite ascii_N_embedding. reflexivity.
Qed.

(** The lookup of a group under an ASCII key finds the key exactly when
    the group is the text of the key. *)
Lemma target_name_key (t : text) (k : string) :
  Forall (fun c => (c < 1114112)%N) t ->
  Forall (fun a => (ch a < 128)%N) (list_ascii_of_string k) ->
  target_name t = k <-> t = tx k.
Proof.
  intros V A. unfold target_name, tx. split.
  - intros H. apply utf8_ascii_text; [exact V|exact A|].
    rewrite <- H. symmetry. apply list_ascii_of_string_of_list_ascii.
  - intros ->. rewrite (utf8_of_ascii _ A).
    apply string_of_list_ascii_of_string.
Qed.

(** ** The backward scans *)

Lemma int_of_digits_ok (ds : text) (r : Z) :
  int_of_digits ds = Ok r <->
  (N.of_nat (length ds) <= default_max_str_digits)%N /\ r = digits_val ds.
Proof.
  unfold int_of_digits.
  destruct (default_max_str_digits <? N.of_nat (length ds))%N eqn:E.
  - apply N.ltb_lt in E. split; [discriminate|]. intros [H _]. lia.
  - apply N.ltb_ge in E. split.
    + intros [= <-]. split; [exact E|reflexivity].
    + intros [_ ->]. reflexivity.
Qed.

Lemma int_of_digits_raise (ds : text) (e : pyexn) :
  int_of_digits ds = Raise e <->
  e = ValueError /\ (default_max_str_digits < N.of_nat (length ds))%N.
Proof.
  unfold int_of_digits.
  destruct (default_max_str_digits <? N.of_nat (length ds))%N eqn:E.
  - apply N.ltb_lt in E. split.
    + intros [= <-]. split; [reflexivity|exact E].
    + intros [-> _]. reflexivity.
  - apply N.ltb_ge in E. split; [discriminate|]. intros [_ H]. lia.
Qed.

(** The scan stops at the nearest line of the window with a row marker,
    and reads that marker only. *)
Lemma first_row_window (lines : list text) (w i : nat) :
  match first_row lines (window w i) with
  | Ok None =>
      forall j l, (j < i <= j + w)%nat -> lines !! j = Some l ->
                  search_row l = None
  | r =>
      exists j l ds,
        (j < i <= j + w)%nat /\ lines !! j = Some l /\
        search_row l = Some ds /\
        (forall j' l', (j < j' < i)%nat -> lines !! j' = Some l' ->
                       search_row l' = None) /\
        r = (do row <- int_of_digits ds; Ok (Some (j, row)))
  end.
Proof.
  revert i. induction w as [|w IH]; intros i.
  - cbn [window first_row]. intros j l H. lia.
  - destruct i as [|i]; cbn [window first_row].
    + intros j l H. lia.
    + specialize (IH i).
      assert (Skip : lines !! i = None \/
                     (exists l, lines !! i = Some l /\ search_row l = None) ->
        match first_row lines (window w i) with
        | Ok None =>
            forall j l, (j < S i <= j + S w)%nat -> lines !! j = Some l ->
                        search_row l = None
        | r =>
            exists j l ds,
              (j < S i <= j + S w)%nat /\ lines !! j = Some l /\
              search_row l = Some ds /\
              (forall j' l', (j < j' < S i)%nat -> lines !! j' = Some l' ->
                             search_row l' = None) /\
              r = (do row <- int_of_digits ds; Ok (Some (j, row)))
        end).
      { intros Hi.
        assert (Hn : forall l, lines !! i = Some l -> search_row l = None).
        { intros l El. destruct Hi as [Hi|(l0 & Hi & Hs)]; congruence. }
        destruct (first_row lines (window w i)) as [[[j r]|]|e].
        - destruct IH as (j0 & l0 & ds & B & A1 & A2 & A4 & A5).
          exists j0, l0, ds. split; [lia|]. repeat split; try assumption.
          intros j' l' H Hl. destruct (Nat.eq_dec j' i) as [->|N].
          + apply Hn. exact Hl.
          + apply (A4 j' l'); [lia|assumption].
        - intros j l0 H Hl. destruct (Nat.eq_dec j i) as [->|N].
          + apply Hn. exact Hl.
          + apply (IH j l0); [lia|assumption].
        - destruct IH as (j0 & l0 & ds & B & A1 & A2 & A4 & A5).
          exists j0, l0, ds. split; [lia|]. repeat split; try assumption.
          intros j' l' H Hl. destruct (Nat.eq_dec j' i) as [->|N].
          + apply Hn. exact Hl.
          + apply (A4 j' l'); [lia|assumption]. }
      destruct (lines !! i) as [l|] eqn:El; [|apply Skip; left; reflexivity].
      destruct (search_row l) as [ds|] eqn:Er;
        [|apply Skip; right; exists l; split; [reflexivity|exact Er]].
      assert (G : exists j0 l0 ds0,
                (j0 < S i <= j0 + S w)%nat /\ lines !! j0 = Some l0 /\
                search_row l0 = Some ds0 /\
                (forall j' l', (j0 < j' < S i)%nat -> lines !! j' = Some l' ->
                               search_row l' = None) /\
                (do row <- int_of_digits ds; Ok (Some (i, row))) =
                (do row <- int_of_digits ds0; Ok (Some (j0, row)))).
      { exists i, l, ds. split; [lia|]. repeat split; try assumption.
        intros j' l' H. lia. }
      destruct (int_of_digits ds) as [r|e]; cbn [bind] in *; exact G.
Qed.

Lemma first_row_local (lines lines2 : list text) (w i : nat) :
  (forall j, (j < i <= j + w)%nat -> lines2 !! j = lines !! j) ->
  first_row lines2 (window w i) = first_row lines (window w i).
Proof.
  revert i. induction w as [|w IH]; intros i H; [reflexivity|].
  destruct i as [|i]; [reflexivity|]. cbn [window first_row].
  rewrite (H i) by lia. rewrite (IH i) by (intros j Hj; apply H; lia).
  reflexivity.
Qed.

Lemma first_effect_window (lines : list text) (w i : nat) :
  match first_effect lines (window w i) with
  | Some j =>
      (j < i <= j + w)%nat /\
      (exists l, lines !! j = Some l /\ contains kw_effect_name l = true) /\
      forall j' l', (j < j' < i)%nat -> lines !! j' = Some l' ->
                    contains kw_effect_name l' = false
  | None =>
      forall j l, (j < i <= j + w)%nat -> lines !! j = Some l ->
                  contains kw_effect_name l = false
  end.
Proof.
  revert i. induction w as [|w IH]; intros i.
  - cbn [window first_effect]. intros j l H. lia.
  - destruct i as [|i]; cbn [window first_effect].
    + intros j l H. lia.
    + specialize (IH i).
      destruct (lines !! i) as [l|] eqn:El.
      * destruct (contains kw_effect_name l) eqn:Er.
        -- split; [lia|]. split; [exists l; split; assumption|].
           intros j' l' H. lia.
        -- destruct (first_effect lines (window w i)) as [j|].
           ++ destruct IH as (B & A1 & A4).
              split; [lia|]. split; [assumption|].
              intros j' l' H Hl. destruct (Nat.eq_dec j' i) as [->|N].
              ** congruence.
              ** apply (A4 j' l'); [lia|assumption].
           ++ intros j l0 H Hl. destruct (Nat.eq_dec j i) as [->|N].
              ** congruence.
              ** apply (IH j l0); [lia|assumption].
      * destruct (first_effect lines (window w i)) as [j|].
        -- destruct IH as (B & A1 & A4).
           split; [lia|]. split; [assumption|].
           intros j' l' H Hl. destruct (Nat.eq_dec j' i) as [->|N].
           ++ congruence.
           ++ apply (A4 j' l'); [lia|assumption].
        -- intros j l0 H Hl. destruct (Nat.eq_dec j i) as [->|N].
           ++ congruence.
           ++ apply (IH j l0); [lia|assumption].
Qed.

Lemma first_effect_local (lines lines2 : list text) (w i : nat) :
  (forall j, (j < i)%nat -> lines2 !! j = lines !! j) ->
  first_effect lines2 (window w i) = first_effect lines (window w i).
Proof.
  revert i. induction w as [|w IH]; intros i H; [reflexivity|].
  destruct i as [|i]; [reflexivity|]. cbn [window first_effect].
  rewrite (H i) by lia. rewrite (IH i) by (intros j Hj; apply H; lia).
  reflexivity.
Qed.

Lemma propagate_length (lines : list text) (i : nat) (repl : text) :
  length (propagate lines i repl) = length lines.
Proof.
  unfold propagate. destruct (first_effect lines (window 4 i)) as [j|]; [|reflexivity].
  destruct (lines !! j); [|reflexivity]. apply length_insert.
Qed.

(** The propagation touches at most the nearest description line of the
    four lines before line [i]. *)
Lemma propagate_frame (lines : list text) (i : nat) (repl : text) (k : nat) :
  propagate lines i repl !! k = lines !! k \/
  ((k < i <= k + 4)%nat /\
   (exists l, lines !! k = Some l /\ contains kw_effect_name l = true /\
      propagate lines i repl !! k = Some (sub_effect repl l)) /\
   forall k' l', (k < k' < i)%nat -> lines !! k' = Some l' ->
                 contains kw_effect_name l' = false).
Proof.
  unfold propagate. pose proof (first_effect_window lines 4 i) as W.
  destruct (first_effect lines (window 4 i)) as [j|]; [|left; reflexivity].
  destruct W as (B & (l & El & Cl) & A).
  rewrite El. destruct (Nat.eq_dec k j) as [->|N].
  - right. split; [exact B|]. split; [|exact A].
    exists l. repeat split; try assumption.
    apply list_lookup_insert_eq. apply lookup_lt_Some in El. exact El.
  - left. apply list_lookup_insert_ne. congruence.
Qed.

(** ** The loop body of the patcher *)

(** Integer ranges for exhaustive checks. *)

Lemma zrange_In (lo : Z) (n : nat) (k : Z) :
  lo <= k < lo + Z.of_nat n -> In k (zrange lo n).
Proof.
  intros H. unfold zrange. apply in_map_iff.
  exists (Z.to_nat (k - lo)). split; [lia|]. apply in_seq. lia.
Qed.

Lemma zrange_check (P : Z -> bool) (lo : Z) (n : nat) :
  forallb P (zrange lo n) = true ->
  forall k, lo <= k < lo + Z.of_nat n -> P k = true.
Proof.
  intros H k Hk. rewrite forallb_forall in H. apply H. apply zrange_In. exact Hk.
Qed.

Lemma fmt_pct_hundredths (s : bool) (k : Z) :
  1 <= k <= 28 -> exists ps, fmt_pct (hundredths s k) = Ok ps.
Proof.
  intros Hk.
  assert (C : forallb (fun k => is_ok (fmt_pct (hundredths true k))
                             && is_ok (fmt_pct (hundredths false k)))
                (zrange 1 28) = true) by (vm_compute; reflexivity).
  assert (Hr : 1 <= k < 1 + Z.of_nat 28) by lia.
  pose proof (zrange_check _ _ _ C k Hr) as H. cbv beta in H.
  apply andb_true_iff in H as [H1 H2].
  destruct s.
  - destruct (fmt_pct (hundredths true k)) as [ps|]; [eauto|discriminate].
  - destruct (fmt_pct (hundredths false k)) as [ps|]; [eauto|discriminate].
Qed.

Lemma compute_mult_configured (row : Z) (t : string) (v : float) :
  compute_mult row t = Ok (Some v) -> exists c, lookup_name t CURVES = Some c.
Proof.
  unfold compute_mult. destruct (lookup_name t CURVES) as [c|]; [eauto|discriminate].
Qed.

Lemma compute_mult_above_value (p : Z) (t : string) (c : curve) (v : float) :
  17 < p -> lookup_name t CURVES = Some c ->
  compute_mult p t = Ok (Some v) -> v = top_value t c.
Proof.
  intros Hp Hc. unfold compute_mult. rewrite Hc.
  destruct (interp_fraction_top_or_raise p ltac:(lia)) as [E|E]; rewrite E; cbn [bind].
  - rewrite checkpoint_above by lia. intros [= <-]. reflexivity.
  - discriminate.
Qed.

(** Every multiplier computed for a non-negative row is one of the
    hundredths 0.01 to 0.28, signed by the target. *)
Lemma compute_mult_value_ok (row : Z) (t : string) (v : float) :
  0 <= row -> compute_mult row t = Ok (Some v) -> value_ok t v.
Proof.
  intros Hr H. destruct (compute_mult_configured _ _ _ H) as [c Hc].
  destruct (Z_le_gt_dec row 17) as [Hs|Hs].
  - destruct (compute_mult_small row t c ltac:(lia) Hc) as (v' & E & V).
    rewrite E in H. injection H as <-. exact V.
  - rewrite (compute_mult_above_value row t c v) by (assumption || lia).
    apply top_value_ok. exact Hc.
Qed.

Lemma fold_digits_nonneg (ds : text) (acc : Z) :
  0 <= acc -> 0 <= fold_left (fun a c => 10 * a + digit_val c) ds acc.
Proof.
  revert acc. induction ds as [|c ds IH]; intros acc Ha; cbn [fold_left]; [lia|].
  apply IH. pose proof (digit_val_range c). lia.
Qed.

Lemma fold_digits_bound (ds : text) (acc : Z) :
  0 <= acc ->
  fold_left (fun a c => 10 * a + digit_val c) ds acc
    < (acc + 1) * 10 ^ Z.of_nat (length ds).
Proof.
  revert acc. induction ds as [|c ds IH]; intros acc Ha; cbn [fold_left length].
  - cbn. lia.
  - pose proof (digit_val_range c) as R.
    eapply Z.lt_le_trans; [apply IH; lia|].
    rewrite Nat2Z.inj_succ, Z.pow_succ_r by lia.
    assert (0 < 10 ^ Z.of_nat (length ds)) by (apply Z.pow_pos_nonneg; lia).
    nia.
Qed.

Lemma digits_val_range (ds : text) :
  0 <= digits_val ds < 10 ^ Z.of_nat (length ds).
Proof.
  unfold digits_val. split; [apply fold_digits_nonneg; lia|].
  pose proof (fold_digits_bound ds 0 ltac:(lia)) as H. lia.
Qed.

Lemma match_row_digits (s ds : text) :
  match_row s = Some ds -> ds <> [] /\ forallb is_digit ds = true.
Proof.
  unfold match_row. destruct (strip kw_row s) as [s1|]; [|discriminate].
  destruct (span is_space s1) as [ws s2].
  destruct (span is_digit s2) as [d r] eqn:E. apply span_spec in E as [_ F].
  destruct d as [|c d]; [discriminate|]. intros [= <-]. split; [discriminate|exact F].
Qed.

Lemma search_row_from_digits (s ds : text) (b : bool) :
  search_row_from b s = Some ds -> ds <> [] /\ forallb is_digit ds = true.
Proof.
  revert b. induction s as [|c s IH]; intros b; cbn [search_row_from].
  - destruct b; [discriminate|].
    destruct (match_row []) as [d|] eqn:E; [|discriminate].
    intros [= <-]. eapply match_row_digits; eassumption.
  - destruct (if b then None else match_row (c :: s)) as [d|] eqn:E.
    + intros [= <-]. destruct b; [discriminate|]. eapply match_row_digits; eassumption.
    + apply IH.
Qed.

(** What the backward scan returns, case by case. *)
Lemma find_row_cases (lines : list text) (i : nat) :
  match find_row lines i with
  | Ok None =>
      forall j l, (j < i <= j + 7)%nat -> lines !! j = Some l ->
                  search_row l = None
  | r =>
      exists j l ds,
        (j < i <= j + 7)%nat /\ lines !! j = Some l /\
        search_row l = Some ds /\
        (forall j' l', (j < j' < i)%nat -> lines !! j' = Some l' ->
                       search_row l' = None) /\
        r = (do row <- int_of_digits ds; Ok (Some row))
  end.
Proof.
  unfold find_row. pose proof (first_row_window lines 7 i) as W.
  destruct (first_row lines (window 7 i)) as [[[j r]|]|e]; cbn [bind option_map snd].
  - destruct W as (j0 & l & ds & B & A1 & A2 & A3 & A4).
    exists j0, l, ds. split; [exact B|]. split; [exact A1|].
    split; [exact A2|]. split; [exact A3|].
    destruct (int_of_digits ds) as [r0|e0]; cbn [bind] in *; congruence.
  - exact W.
  - destruct W as (j0 & l & ds & B & A1 & A2 & A3 & A4).
    exists j0, l, ds. split; [exact B|]. split; [exact A1|].
    split; [exact A2|]. split; [exact A3|].
    destruct (int_of_digits ds) as [r0|e0]; cbn [bind] in *; congruence.
Qed.

(** A row found by the backward scan is a natural number. *)
Lemma find_row_nonneg (lines : list text) (i : nat) (row : Z) :
  find_row lines i = Ok (Some row) -> 0 <= row.
Proof.
  intros H. pose proof (find_row_cases lines i) as W. rewrite H in W.
  destruct W as (j & l & ds & _ & _ & _ & _ & E).
  destruct (int_of_digits ds) as [r|e] eqn:Ei; cbn [bind] in E; [|discriminate].
  injection E as ->. apply int_of_digits_ok in Ei as [_ ->].
  apply digits_val_range.
Qed.

Lemma find_row_raise (lines : list text) (i : nat) (e : pyexn) :
  find_row lines i = Raise e -> e = ValueError.
Proof.
  intros H. pose proof (find_row_cases lines i) as W. rewrite H in W.
  destruct W as (j & l & ds & _ & _ & _ & _ & E).
  destruct (int_of_digits ds) as [r|e0] eqn:Ei; cbn [bind] in E; [discriminate|].
  injection E as ->. apply int_of_digits_raise in Ei as [-> _]. reflexivity.
Qed.

(** The rewrite never raises on a multiplier computed for a found row. *)
Lemma rewrite_at_ok (lines : list text) (line : text) (i : nat) (t : string)
    (new_mult : float) :
  value_ok t new_mult ->
  exists ps,
    fmt_pct new_mult = Ok ps /\
    rewrite_at lines line i new_mult =
      Ok (propagate (<[ i := sub_multiplier (format_fixed 2 new_mult) line ]> lines) i
            (sign_of new_mult ++ ps)).
Proof.
  intros (k & Hk & ->).
  destruct (fmt_pct_hundredths (mem_name t NEGATIVE_TARGETS) k Hk) as [ps E].
  exists ps. split; [exact E|]. unfold rewrite_at. rewrite E. reflexivity.
Qed.

(** A step that returns: a skip, or the rewrite of one occurrence. *)
Lemma step_ok_cases (lines : list text) (changes : Z) (i : nat)
    (lines' : list text) (changes' : Z) :
  step (lines, changes) i = Ok (lines', changes') ->
  (lines' = lines /\ changes' = changes) \/
  (exists line target lit row new_mult ps,
     lines !! i = Some line /\
     search_target line = Some (target, lit) /\
     find_row lines i = Ok (Some row) /\ 0 <= row /\
     compute_mult row (target_name target) = Ok (Some new_mult) /\
     value_ok (target_name target) new_mult /\
     within_tolerance new_mult (float_of_literal lit) = false /\
     fmt_pct new_mult = Ok ps /\
     lines' = propagate
                (<[ i := sub_multiplier (format_fixed 2 new_mult) line ]> lines)
                i (sign_of new_mult ++ ps) /\
     changes' = changes + 1).
Proof.
  unfold step. destruct (lines !! i) as [line|] eqn:Hi; [|discriminate].
  destruct (search_target line) as [[target lit]|] eqn:Es;
    [|intros [= <- <-]; left; split; reflexivity].
  destruct (find_row lines i) as [[row|]|e] eqn:Er; cbn [bind];
    [|intros [= <- <-]; left; split; reflexivity|discriminate].
  pose proof (find_row_nonneg _ _ _ Er) as Hr.
  destruct (compute_mult row (target_name target)) as [[new_mult|]|e] eqn:Ec;
    cbn [bind]; [|intros [= <- <-]; left; split; reflexivity|discriminate].
  pose proof (compute_mult_value_ok _ _ _ Hr Ec) as V.
  destruct (within_tolerance new_mult (float_of_literal lit)) eqn:Et;
    [intros [= <- <-]; left; split; reflexivity|].
  destruct (rewrite_at_ok lines line i _ _ V) as (ps & Ep & Ew).
  rewrite Ew. cbn [bind]. intros [= <- <-]. right.
  exists line, target, lit, row, new_mult, ps. repeat split; assumption.
Qed.

(** A step that raises: [int] on the digits of the marker, or the division
    in [compute_mult]. *)
Lemma step_raise_cases (lines : list text) (changes : Z) (i : nat) (e : pyexn) :
  (i < length lines)%nat ->
  step (lines, changes) i = Raise e ->
  exists line target lit,
    lines !! i = Some line /\ search_target line = Some (target, lit) /\
    ((find_row lines i = Raise ValueError /\ e = ValueError) \/
     (exists row, find_row lines i = Ok (Some row) /\ 0 <= row /\
                  compute_mult row (target_name target) = Raise e)).
Proof.
  intros Hi. destruct (lookup_lt_is_Some_2 lines i Hi) as [line Hl].
  unfold step. rewrite Hl.
  destruct (search_target line) as [[target lit]|] eqn:Es; [|discriminate].
  intros H. exists line, target, lit. split; [reflexivity|]. split; [exact Es|].
  destruct (find_row lines i) as [[row|]|e0] eqn:Er; cbn [bind] in H;
    [|discriminate|].
  - right. exists row. split; [reflexivity|].
    pose proof (find_row_nonneg _ _ _ Er) as Hr. split; [exact Hr|].
    destruct (compute_mult row (target_name target)) as [[new_mult|]|e1] eqn:Ec;
      cbn [bind] in H; [|discriminate|congruence].
    pose proof (compute_mult_value_ok _ _ _ Hr Ec) as V.
    destruct (within_tolerance new_mult (float_of_literal lit)); [discriminate|].
    destruct (rewrite_at_ok lines line i _ _ V) as (ps & Ep & Ew).
    rewrite Ew in H. discriminate.
  - left. injection H as <-. pose proof (find_row_raise _ _ _ Er) as ->.
    split; reflexivity.
Qed.

(** ** Sign, floor and order of the multipliers *)

Lemma f_0_01_eq : f_0_01 = S754_finite false 5764607523034235 (-59).
Proof. vm_compute. reflexivity. Qed.

Lemma f_zero_eq : f_zero = S754_zero false.
Proof. vm_compute. reflexivity. Qed.

Lemma abs_opp (v : float) : F64.abs (F64.opp v) = F64.abs v.
Proof. destruct v; reflexivity. Qed.

(** A float above a positive float is positive. *)
Lemma above_positive (ma : positive) (ea : Z) (v : float) :
  SFltb (S754_finite false ma ea) v = true ->
  SFleb (S754_finite false ma ea) v = true /\
  SFleb (S754_zero false) v = true /\
  SFleb (SFopp v) (S754_zero false) = true /\
  SFabs v = v.
Proof.
  unfold SFltb, SFleb. intros H. split.
  - destruct (SFcompare (S754_finite false ma ea) v) as [[]|]; congruence.
  - destruct v as [s|s| |s m e]; try destruct s; cbn [SFcompare SFopp SFabs] in *;
      try discriminate; repeat split; reflexivity.
Qed.

Lemma round_floor_positive (x : float) :
  fle f_0_01 (round_floor x) /\ fle f_zero (round_floor x) /\
  fle (F64.opp (round_floor x)) f_zero /\
  F64.abs (round_floor x) = round_floor x.
Proof.
  unfold round_floor, F64.max.
  destruct (F64.ltb f_0_01 (F64.round x 2)) eqn:E.
  - revert E. rewrite f_0_01_eq, f_zero_eq. apply above_positive.
  - repeat split; vm_compute; reflexivity.
Qed.

Lemma interp_fraction_total (p : Z) :
  - overflow_row < p < overflow_row -> exists t, interp_fraction p = Ok t.
Proof.
  intros H.
  destruct (Z_le_gt_dec 17 p) as [H1|H1].
  { exists f_1_0. apply interp_fraction_top; lia. }
  destruct (Z_le_gt_dec p (-17)) as [H2|H2].
  { unfold interp_fraction, F64.int_truediv, MAX_ROW.
    change (17 =? 0) with false. cbv iota.
    replace (p <? 0) with true by (symmetry; apply Z.ltb_lt; lia).
    change (xorb true (17 <? 0)) with true. change (Z.abs 17) with 17.
    assert (Ha : 17 <= Z.abs p) by lia.
    assert (Hb : Z.abs p < overflow_row) by lia.
    destruct (of_ratio_17 true (Z.abs p) Ha) as (m & e & E & B & He & Hov).
    rewrite E. specialize (Hov Hb).
    replace (e <=? 971) with true by (symmetry; apply Z.leb_le; lia).
    cbn [F64.is_inf bind]. eauto. }
  assert (C : forallb (fun p => is_ok (interp_fraction p)) (zrange (-16) 33) = true)
    by (vm_compute; reflexivity).
  assert (Hr : -16 <= p < -16 + Z.of_nat 33) by lia.
  pose proof (zrange_check _ _ _ C p Hr) as K. cbv beta in K.
  destruct (interp_fraction p) as [t|]; [eauto|discriminate].
Qed.

Lemma compute_mult_total (p : Z) (t : string) (c : curve) :
  lookup_name t CURVES = Some c -> - overflow_row < p < overflow_row ->
  exists x, compute_mult p t = Ok (Some (apply_sign t (round_floor x))).
Proof.
  intros Hc H. unfold compute_mult. rewrite Hc.
  destruct (interp_fraction_total p H) as [f E]. rewrite E. cbn [bind]. eauto.
Qed.

Lemma apply_sign_abs (t : string) (v : float) :
  F64.abs (apply_sign t v) = F64.abs v.
Proof. unfold apply_sign. destruct (mem_name t NEGATIVE_TARGETS); [apply abs_opp|reflexivity]. Qed.

Lemma overflow_row_large : 18 < overflow_row.
Proof. vm_compute. reflexivity. Qed.

Lemma compute_mult_clamp (p : Z) (t : string) (c : curve) :
  lookup_name t CURVES = Some c -> 18 <= p < overflow_row ->
  compute_mult p t = compute_mult 18 t.
Proof.
  intros Hc H. pose proof overflow_row_large.
  rewrite (compute_mult_above p t c), (compute_mult_above 18 t c) by (assumption || lia).
  reflexivity.
Qed.

Lemma monotone_table_ok :
  forallb (fun tc : string * curve => mono_pairs (mags (fst tc))) CURVES = true.
Proof. vm_compute. reflexivity. Qed.

Lemma mag_at_monotone (t : string) (c : curve) (p q : Z) :
  lookup_name t CURVES = Some c -> 0 <= p <= q -> q <= 18 ->
  is_checkpoint p = false -> F64.leb (mag_at t p) (mag_at t q) = true.
Proof.
  intros Hc H Hq Hk.
  assert (Hp' : 0 <= p < 0 + Z.of_nat 19) by lia.
  assert (Hq' : 0 <= q < 0 + Z.of_nat 19) by lia.
  pose proof monotone_table_ok as T. rewrite forallb_forall in T.
  specialize (T (t, c) (lookup_name_In _ _ _ Hc)). cbv beta in T. cbn [fst] in T.
  unfold mono_pairs in T. rewrite forallb_forall in T.
  assert (Ip : In (p, mag_at t p) (mags t))
    by (unfold mags; apply (in_map (fun p => (p, mag_at t p))); apply zrange_In; exact Hp').
  assert (Iq : In (q, mag_at t q) (mags t))
    by (unfold mags; apply (in_map (fun p => (p, mag_at t p))); apply zrange_In; exact Hq').
  specialize (T _ Ip). cbv beta in T. rewrite forallb_forall in T.
  specialize (T _ Iq). unfold mono_entry in T. cbn [fst snd] in T.
  replace (p <=? q) with true in T by (symmetry; apply Z.leb_le; lia).
  rewrite Hk in T. exact T.
Qed.

(** ** The curve evaluator: the claims *)

(** C3. The two evaluations the specification works out: at row 17 the
    target allIncome, curve (0.01, 0.03), gives exactly 0.06 (fraction 1.0,
    interpolated 0.03, doubled); at row 8 the target costReduction, curve
    (0.02, 0.06), gives exactly -0.06 (fraction 8/17, interpolated about
    0.0388, times 1.5 about 0.0582, rounded to 0.06, negated). *)
Theorem compute_mult_scenarios :
  (lookup_name "allIncome" CURVES = Some (F64.dec 1 2, F64.dec 3 2) /\
   interp_fraction 17 = Ok f_1_0 /\
   interpolate (F64.dec 1 2, F64.dec 3 2) f_1_0 = F64.dec 3 2 /\
   checkpoint 17 (F64.dec 3 2) = F64.mul (F64.dec 3 2) f_2_0 /\
   F64.mul (F64.dec 3 2) f_2_0 = F64.dec 6 2 /\
   mem_name "allIncome" NEGATIVE_TARGETS = false /\
   compute_mult 17 "allIncome" = Ok (Some (F64.dec 6 2))) /\
  (lookup_name "costReduction" CURVES = Some (F64.dec 2 2, F64.dec 6 2) /\
   interp_fraction 8 = Ok (F64.of_ratio false 8 17) /\
   decimal_digits
     (interpolate (F64.dec 2 2, F64.dec 6 2) (F64.of_ratio false 8 17)) 4 = 388 /\
   decimal_digits
     (checkpoint 8
        (interpolate (F64.dec 2 2, F64.dec 6 2) (F64.of_ratio false 8 17))) 4
     = 582 /\
   F64.round
     (F64.mul (interpolate (F64.dec 2 2, F64.dec 6 2) (F64.of_ratio false 8 17))
        f_1_5) 2 = F64.dec 6 2 /\
   mem_name "costReduction" NEGATIVE_TARGETS = true /\
   compute_mult 8 "costReduction" = Ok (Some (F64.opp (F64.dec 6 2)))).
Proof. split; repeat split; vm_compute; reflexivity. Qed.

(** C6, as the code has it. In the range of rows where [row / 17] is a
    float, [compute_mult] returns a number that is at most zero for the
    targets of the negative set and at least zero for every other target
    with a curve. *)
Theorem sign_invariant (p : Z) (t : string) (c : curve) :
  lookup_name t CURVES = Some c ->
  - overflow_row < p < overflow_row ->
  exists v, compute_mult p t = Ok (Some v) /\
    (mem_name t NEGATIVE_TARGETS = true -> fle v f_zero) /\
    (mem_name t NEGATIVE_TARGETS = false -> fle f_zero v).
Proof.
  intros Hc H. destruct (compute_mult_total p t c Hc H) as [x E].
  eexists. split; [exact E|].
  destruct (round_floor_positive x) as (_ & P & N & _).
  unfold apply_sign. split; intros M; rewrite M; assumption.
Qed.

Lemma sign_invariant_witness :
  exists v, compute_mult 8 "costReduction" = Ok (Some v) /\
    (mem_name "costReduction" NEGATIVE_TARGETS = true -> fle v f_zero) /\
    (mem_name "costReduction" NEGATIVE_TARGETS = false -> fle f_zero v).
Proof.
  apply (sign_invariant 8 "costReduction" (F64.dec 2 2, F64.dec 6 2)).
  - vm_compute. reflexivity.
  - split; vm_compute; reflexivity.
Defined.

(** C6 as stated fails: at the first row whose quotient by 17 is too large
    for a float, [compute_mult] raises [OverflowError] and returns no
    number, for a target of the negative set. *)
Lemma sign_invariant_counterexample :
  mem_name "costReduction" NEGATIVE_TARGETS = true /\
  compute_mult overflow_row "costReduction" = Raise OverflowError /\
  ~ (exists v, compute_mult overflow_row "costReduction" = Ok (Some v) /\
               fle v f_zero).
Proof.
  assert (E : compute_mult overflow_row "costReduction" = Raise OverflowError)
    by (vm_compute; reflexivity).
  split; [vm_compute; reflexivity|]. split; [exact E|].
  intros (v & H & _). rewrite E in H. discriminate.
Qed.

(** C4, as the code has it. For a target with a curve and rows in the
    range where [row / 17] is a float: the magnitude of the multiplier at
    any such row [r] is at least 0.01; and for rows [0 <= p <= q] the
    magnitude at [p] is at most the magnitude at [q] unless [p] is one of
    the checkpoint rows 8, 12, 16 and 17, whose bonus lifts the value above
    the rows that follow. *)
Theorem curve_floor_and_monotone (t : string) (c : curve) (r p q : Z) :
  lookup_name t CURVES = Some c ->
  - overflow_row < r < overflow_row ->
  0 <= p <= q -> q < overflow_row ->
  (exists v, compute_mult r t = Ok (Some v) /\ fle f_0_01 (F64.abs v)) /\
  (exists vp vq,
     compute_mult p t = Ok (Some vp) /\ compute_mult q t = Ok (Some vq) /\
     (is_checkpoint p = false -> fle (F64.abs vp) (F64.abs vq))).
Proof.
  intros Hc Hr Hpq Hq. pose proof overflow_row_large as L. split.
  - destruct (compute_mult_total r t c Hc Hr) as [x E].
    eexists. split; [exact E|]. rewrite apply_sign_abs.
    destruct (round_floor_positive x) as (F & _ & _ & A). rewrite A. exact F.
  - destruct (compute_mult_total p t c Hc ltac:(lia)) as [xp Ep].
    destruct (compute_mult_total q t c Hc ltac:(lia)) as [xq Eq].
    eexists. eexists. split; [exact Ep|]. split; [exact Eq|]. intros Hk.
    set (p' := Z.min p 18). set (q' := Z.min q 18).
    assert (Ep' : compute_mult p' t = compute_mult p t).
    { destruct (Z_le_gt_dec p 18) as [A|A].
      - unfold p'. rewrite Z.min_l by lia. reflexivity.
      - unfold p'. rewrite Z.min_r by lia. symmetry.
        apply (compute_mult_clamp p t c Hc). lia. }
    assert (Eq' : compute_mult q' t = compute_mult q t).
    { destruct (Z_le_gt_dec q 18) as [A|A].
      - unfold q'. rewrite Z.min_l by lia. reflexivity.
      - unfold q'. rewrite Z.min_r by lia. symmetry.
        apply (compute_mult_clamp q t c Hc). lia. }
    assert (Hk' : is_checkpoint p' = false).
    { destruct (Z_le_gt_dec p 18) as [A|A].
      - unfold p'. rewrite Z.min_l by lia. exact Hk.
      - unfold p'. rewrite Z.min_r by lia. reflexivity. }
    pose proof (mag_at_monotone t c p' q' Hc ltac:(unfold p', q'; lia)
                  ltac:(unfold q'; lia) Hk') as M.
    unfold mag_at in M. rewrite Ep', Eq', Ep, Eq in M. exact M.
Qed.

Lemma curve_floor_and_monotone_witness :
  (exists v, compute_mult (-3) "jobEfficiency" = Ok (Some v) /\
             fle f_0_01 (F64.abs v)) /\
  (exists vp vq,
     compute_mult 9 "jobEfficiency" = Ok (Some vp) /\
     compute_mult 1000 "jobEfficiency" = Ok (Some vq) /\
     (is_checkpoint 9 = false -> fle (F64.abs vp) (F64.abs vq))).
Proof.
  apply (curve_floor_and_monotone "jobEfficiency" (F64.dec 5 2, F64.dec 14 2)).
  - vm_compute. reflexivity.
  - split; vm_compute; reflexivity.
  - split; vm_compute; discriminate.
  - vm_compute. reflexivity.
Defined.

(** C4 as stated fails at a row too large for the division: there the
    function raises [OverflowError], so there is no magnitude at all. *)
Lemma curve_floor_counterexample :
  lookup_name "allIncome" CURVES <> None /\
  compute_mult overflow_row "allIncome" = Raise OverflowError /\
  ~ (exists v, compute_mult overflow_row "allIncome" = Ok (Some v) /\
               fle f_0_01 (F64.abs v)).
Proof.
  assert (E : compute_mult overflow_row "allIncome" = Raise OverflowError)
    by (vm_compute; reflexivity).
  split; [vm_compute; discriminate|]. split; [exact E|].
  intros (v & H & _). rewrite E in H. discriminate.
Qed.

Lemma top_value_is_top (t : string) (c : curve) :
  lookup_name t CURVES = Some c -> top_value t c = apply_sign t (snd c).
Proof. intros H. each_curve H; vm_compute; reflexivity. Qed.

Lemma capstone_above_top (t : string) (c : curve) :
  lookup_name t CURVES = Some c ->
  compute_mult 17 t = Ok (Some (with_factors t c f_1_0 [f_2_0])) /\
  flt (F64.abs (apply_sign t (snd c))) (F64.abs (with_factors t c f_1_0 [f_2_0])).
Proof. intros H. each_curve H; split; vm_compute; reflexivity. Qed.

(** C9, as the code has it. For a target with a curve and a row above 17
    in the range where [row / 17] is a float: the fraction is clamped to
    1.0, no checkpoint factor applies, the result is the top endpoint of
    the curve with the target's sign, and its magnitude is below the
    magnitude at row 17, where the factor 2.0 applies. *)
Theorem above_max_row (p : Z) (t : string) (c : curve) :
  lookup_name t CURVES = Some c ->
  17 < p < overflow_row ->
  interp_fraction p = Ok f_1_0 /\
  (forall m, checkpoint p m = m) /\
  compute_mult p t = Ok (Some (apply_sign t (snd c))) /\
  compute_mult 17 t = Ok (Some (with_factors t c f_1_0 [f_2_0])) /\
  flt (F64.abs (apply_sign t (snd c)))
      (F64.abs (with_factors t c f_1_0 [f_2_0])).
Proof.
  intros Hc H. split; [apply interp_fraction_top; lia|].
  split; [intros m; apply checkpoint_above; lia|].
  split.
  - rewrite (compute_mult_above p t c) by (assumption || lia).
    rewrite (top_value_is_top t c Hc). reflexivity.
  - apply capstone_above_top. exact Hc.
Qed.

Lemma above_max_row_witness :
  interp_fraction 18 = Ok f_1_0 /\
  (forall m, checkpoint 18 m = m) /\
  compute_mult 18 "loanRate" = Ok (Some (apply_sign "loanRate" (snd (F64.dec 2 2, F64.dec 6 2)))) /\
  compute_mult 17 "loanRate" =
    Ok (Some (with_factors "loanRate" (F64.dec 2 2, F64.dec 6 2) f_1_0 [f_2_0])) /\
  flt (F64.abs (apply_sign "loanRate" (snd (F64.dec 2 2, F64.dec 6 2))))
      (F64.abs (with_factors "loanRate" (F64.dec 2 2, F64.dec 6 2) f_1_0 [f_2_0])).
Proof.
  apply (above_max_row 18 "loanRate" (F64.dec 2 2, F64.dec 6 2)).
  - vm_compute. reflexivity.
  - split; vm_compute; reflexivity.
Defined.

(** C9 as stated fails for the rows from [overflow_row] on: the division
    [row / 17] raises [OverflowError] and nothing is returned. *)
Lemma above_max_row_counterexample :
  17 < overflow_row /\
  lookup_name "xpGain" CURVES = Some (F64.dec 3 2, F64.dec 8 2) /\
  interp_fraction overflow_row = Raise OverflowError /\
  compute_mult overflow_row "xpGain" = Raise OverflowError /\
  compute_mult overflow_row "xpGain" <> Ok (Some (F64.dec 8 2)).
Proof.
  assert (E : compute_mult overflow_row "xpGain" = Raise OverflowError)
    by (vm_compute; reflexivity).
  split; [vm_compute; reflexivity|]. split; [vm_compute; reflexivity|].
  split; [vm_compute; reflexivity|]. split; [exact E|].
  rewrite E. discriminate.
Qed.

Lemma float_eqb_refl (a : float) : float_eqb a a = true.
Proof.
  destruct a as [s|s| |s m e]; cbn [float_eqb];
    rewrite ?eqb_reflx, ?Pos.eqb_refl, ?Z.eqb_refl; reflexivity.
Qed.

Lemma float_eqb_neq (a b : float) : float_eqb a b = false -> a <> b.
Proof. intros H ->. rewrite float_eqb_refl in H. discriminate. Qed.

Lemma checkpoint_cases (p : Z) (m : float) :
  (is_checkpoint p = false /\ checkpoint p m = m) \/
  ((p = 8 \/ p = 12 \/ p = 16) /\ checkpoint p m = F64.mul m f_1_5) \/
  (p = 17 /\ checkpoint p m = F64.mul m f_2_0).
Proof.
  unfold checkpoint, is_checkpoint.
  destruct (Z.eqb_spec p 8) as [->|N8]; [right; left; split; [auto|reflexivity]|].
  destruct (Z.eqb_spec p 12) as [->|N12]; [right; left; split; [auto|reflexivity]|].
  destruct (Z.eqb_spec p 16) as [->|N16]; [right; left; split; [auto|reflexivity]|].
  destruct (Z.eqb_spec p 17) as [->|N17]; [right; right; split; reflexivity|].
  left. split; reflexivity.
Qed.

Lemma checkpoint_rows_table (t : string) (c : curve) (r : Z) :
  lookup_name t CURVES = Some c -> r = 8 \/ r = 12 \/ r = 16 ->
  exists fr, interp_fraction r = Ok fr /\
    compute_mult r t = Ok (Some (with_factors t c fr [f_1_5])) /\
    float_eqb (with_factors t c fr [f_1_5]) (with_factors t c fr [f_2_0]) = false /\
    float_eqb (with_factors t c fr [f_1_5]) (with_factors t c fr [f_1_5; f_2_0]) = false /\
    float_eqb (with_factors t c fr [f_1_5]) (with_factors t c fr []) = false.
Proof.
  intros H Hr.
  each_curve H; destruct Hr as [ -> | [ -> | -> ] ];
    match goal with |- context [interp_fraction ?r] =>
      let f := eval vm_compute in (interp_fraction r) in
      match f with Ok ?x => exists x end
    end; repeat split; vm_compute; reflexivity.
Qed.

Lemma capstone_row_table (t : string) (c : curve) :
  lookup_name t CURVES = Some c ->
  float_eqb (with_factors t c f_1_0 [f_2_0]) (with_factors t c f_1_0 [f_1_5]) = false /\
  float_eqb (with_factors t c f_1_0 [f_2_0]) (with_factors t c f_1_0 [f_1_5; f_2_0]) = false /\
  float_eqb (with_factors t c f_1_0 [f_2_0]) (with_factors t c f_1_0 []) = false.
Proof. intros H. each_curve H; repeat split; vm_compute; reflexivity. Qed.

(** C5. For every target with a curve: at row 17 the result is the
    interpolated magnitude times 2.0 only, and differs from what the factor
    1.5, both factors or no factor would give; at rows 8, 12 and 16 it is
    the magnitude times 1.5 only, and differs from what 2.0, both factors
    or no factor would give; and on every row the checkpoint branch applies
    either no factor, or 1.5 alone (rows 8, 12, 16), or 2.0 alone (row 17). *)
Theorem checkpoint_precedence (t : string) (c : curve) :
  lookup_name t CURVES = Some c ->
  (interp_fraction 17 = Ok f_1_0 /\
   compute_mult 17 t = Ok (Some (with_factors t c f_1_0 [f_2_0])) /\
   compute_mult 17 t <> Ok (Some (with_factors t c f_1_0 [f_1_5])) /\
   compute_mult 17 t <> Ok (Some (with_factors t c f_1_0 [f_1_5; f_2_0])) /\
   compute_mult 17 t <> Ok (Some (with_factors t c f_1_0 []))) /\
  (forall r, r = 8 \/ r = 12 \/ r = 16 ->
     exists fr, interp_fraction r = Ok fr /\
       compute_mult r t = Ok (Some (with_factors t c fr [f_1_5])) /\
       compute_mult r t <> Ok (Some (with_factors t c fr [f_2_0])) /\
       compute_mult r t <> Ok (Some (with_factors t c fr [f_1_5; f_2_0])) /\
       compute_mult r t <> Ok (Some (with_factors t c fr []))) /\
  (forall p m,
     (is_checkpoint p = false /\ checkpoint p m = m) \/
     ((p = 8 \/ p = 12 \/ p = 16) /\ checkpoint p m = F64.mul m f_1_5) \/
     (p = 17 /\ checkpoint p m = F64.mul m f_2_0)).
Proof.
  intros Hc. split; [|split].
  - destruct (capstone_above_top t c Hc) as [E _].
    destruct (capstone_row_table t c Hc) as (A & B & C).
    split; [vm_compute; reflexivity|]. split; [exact E|].
    rewrite E. repeat split; intros [= K]; revert K; apply float_eqb_neq; assumption.
  - intros r Hr.
    destruct (checkpoint_rows_table t c r Hc Hr) as (fr & F & E & A & B & C).
    exists fr. split; [exact F|]. split; [exact E|].
    rewrite E. repeat split; intros [= K]; revert K; apply float_eqb_neq; assumption.
  - apply checkpoint_cases.
Qed.

Lemma checkpoint_precedence_witness :
  compute_mult 17 "allIncome" =
    Ok (Some (with_factors "allIncome" (F64.dec 1 2, F64.dec 3 2) f_1_0 [f_2_0])) /\
  exists fr, interp_fraction 12 = Ok fr /\
    compute_mult 12 "allIncome" =
      Ok (Some (with_factors "allIncome" (F64.dec 1 2, F64.dec 3 2) fr [f_1_5])).
Proof.
  assert (Hc : lookup_name "allIncome" CURVES = Some (F64.dec 1 2, F64.dec 3 2))
    by (vm_compute; reflexivity).
  destruct (checkpoint_precedence "allIncome" (F64.dec 1 2, F64.dec 3 2) Hc)
    as ((_ & E & _) & R & _).
  split; [exact E|].
  destruct (R 12 (or_intror (or_introl eq_refl))) as (fr & F & E12 & _).
  exists fr. split; assumption.
Defined.

(** ** The patcher: the claims *)

(** C1 fails on the code. On [two_multipliers] the first run rewrites two
    occurrences; the second run, on the output of the first, reports one
    change and alters the description line again: the substitution replaces
    the first multiplier literal of the line while the comparison reads the
    one after the target, so that occurrence never comes within tolerance. *)
Theorem second_run_changes_output :
  process_skill_file two_multipliers = Ok (two_multipliers_once, 2) /\
  process_skill_file two_multipliers_once = Ok (two_multipliers_twice, 1) /\
  two_multipliers_twice <> two_multipliers_once.
Proof.
  split; [vm_compute; reflexivity|]. split; [vm_compute; reflexivity|].
  intros E. apply (f_equal (fun l : list text => l !! 1%nat)) in E.
  vm_compute in E. discriminate.
Qed.

(** C2 fails on the code. On [stale_literal] the occurrence has a row
    marker (row 0) and a configured target, its stored literal 0.0111
    differs from the computed multiplier 0.01 by 0.0011, and the run counts
    one change; but the literal that was compared is not rewritten: the
    substitution replaces the first multiplier literal of the line, 0.5,
    and the stored 0.0111 stays, so every further run counts the occurrence
    again. *)
Theorem stored_literal_not_rewritten :
  search_target stale_line = Some (tx "allIncome", tx "0.0111") /\
  find_row stale_literal 1 = Ok (Some 0) /\
  compute_mult 0 "allIncome" = Ok (Some (F64.dec 1 2)) /\
  within_tolerance (F64.dec 1 2) (float_of_literal (tx "0.0111")) = false /\
  process_skill_file stale_literal = Ok (stale_literal_once, 1) /\
  search_target stale_line_once = Some (tx "allIncome", tx "0.0111") /\
  process_skill_file stale_literal_once = Ok (stale_literal_once, 1).
Proof. repeat split; vm_compute; reflexivity. Qed.

Lemma tolerance_probe_ok (s : bool) (k : Z) :
  1 <= k <= 28 -> tolerance_probe s k = true.
Proof.
  intros Hk.
  assert (C : forallb (fun k => tolerance_probe true k && tolerance_probe false k)
                (zrange 1 28) = true) by (vm_compute; reflexivity).
  assert (Hr : 1 <= k < 1 + Z.of_nat 28) by lia.
  pose proof (zrange_check _ _ _ C k Hr) as H. cbv beta in H.
  apply andb_true_iff in H as [H1 H2]. destruct s; assumption.
Qed.

Lemma propagate_at (lines : list text) (i : nat) (repl : text) :
  propagate lines i repl !! i = lines !! i.
Proof.
  destruct (propagate_frame lines i repl i) as [E|[B _]]; [exact E|lia].
Qed.

(** C7. The row of an occurrence on line [i] comes from the nearest line
    among the seven before it that has a row marker; when none of these
    seven lines has one, no row is found and the step leaves lines and
    counter unchanged, without an error; and the result of the scan depends
    on these seven lines only, so a marker eight or more lines before the
    occurrence is never used. *)
Theorem scan_window_bound (lines : list text) (i : nat) :
  (forall row, find_row lines i = Ok (Some row) ->
     exists j l ds, (j < i <= j + 7)%nat /\ lines !! j = Some l /\
       search_row l = Some ds /\ int_of_digits ds = Ok row /\
       forall j' l', (j < j' < i)%nat -> lines !! j' = Some l' ->
                     search_row l' = None) /\
  ((forall j l, (j < i <= j + 7)%nat -> lines !! j = Some l ->
                search_row l = None) ->
   find_row lines i = Ok None /\
   forall changes, (i < length lines)%nat ->
     step (lines, changes) i = Ok (lines, changes)) /\
  (forall lines2,
     (forall j, (j < i <= j + 7)%nat -> lines2 !! j = lines !! j) ->
     find_row lines2 i = find_row lines i).
Proof.
  split; [|split].
  - intros row H. pose proof (find_row_cases lines i) as W. rewrite H in W.
    destruct W as (j & l & ds & B & A1 & A2 & A3 & E).
    exists j, l, ds. split; [exact B|]. split; [exact A1|]. split; [exact A2|].
    split; [|exact A3].
    destruct (int_of_digits ds) as [r|e]; cbn [bind] in E; congruence.
  - intros H.
    assert (E : find_row lines i = Ok None).
    { pose proof (find_row_cases lines i) as W.
      destruct (find_row lines i) as [[r|]|e]; [| reflexivity |];
        destruct W as (j & l & ds & B & A1 & A2 & _);
        rewrite (H j l B A1) in A2; discriminate. }
    split; [exact E|]. intros changes Hi.
    destruct (lookup_lt_is_Some_2 lines i Hi) as [line Hl].
    unfold step. rewrite Hl, E.
    destruct (search_target line) as [[target lit]|]; reflexivity.
  - intros lines2 H. unfold find_row. rewrite (first_row_local lines lines2 7 i H).
    reflexivity.
Qed.

Lemma scan_window_bound_witness :
  find_row far_marker 8 = Ok None /\
  forall changes, (8 < length far_marker)%nat ->
    step (far_marker, changes) 8 = Ok (far_marker, changes).
Proof.
  destruct (scan_window_bound far_marker 8) as (_ & H & _).
  apply H. intros j l B E.
  assert (C : forallb (fun j => match far_marker !! j with
                                | Some l => match search_row l with
                                            | None => true | Some _ => false end
                                | None => true end) (seq 1 7) = true)
    by (vm_compute; reflexivity).
  rewrite forallb_forall in C.
  specialize (C j ltac:(apply in_seq; lia)). cbv beta in C. rewrite E in C.
  destruct (search_row l); [discriminate|reflexivity].
Defined.

Lemma step_length (lines : list text) (changes : Z) (i : nat)
    (lines' : list text) (changes' : Z) :
  step (lines, changes) i = Ok (lines', changes') ->
  length lines' = length lines.
Proof.
  intros H. destruct (step_ok_cases _ _ _ _ _ H)
    as [[-> _]|(line & t & lit & row & nm & ps & _ & _ & _ & _ & _ & _ & _ & _ & -> & _)];
    [reflexivity|].
  rewrite propagate_length. apply length_insert.
Qed.

Lemma run_length (idx : list nat) (lines : list text) (changes : Z)
    (lines' : list text) (changes' : Z) :
  run (lines, changes) idx = Ok (lines', changes') ->
  length lines' = length lines.
Proof.
  revert lines changes. induction idx as [|i idx IH]; intros lines changes; cbn [run].
  - intros [= <- <-]. reflexivity.
  - destruct (step (lines, changes) i) as [[l1 c1]|e] eqn:E; cbn [bind]; [|discriminate].
    intros H. apply IH in H. apply step_length in E. congruence.
Qed.

Lemma format_hundredths (s : bool) (k : Z) :
  1 <= k <= 28 ->
  text_eqb (format_fixed 2 (hundredths s k))
           (sign_text s ++ tx "0." ++ frac_digits 2 k) = true /\
  forallb is_digit (frac_digits 2 k) = true.
Proof.
  intros Hk.
  assert (C : forallb (fun k =>
      text_eqb (format_fixed 2 (hundredths true k))
               (sign_text true ++ tx "0." ++ frac_digits 2 k)
      && text_eqb (format_fixed 2 (hundredths false k))
               (sign_text false ++ tx "0." ++ frac_digits 2 k)
      && forallb is_digit (frac_digits 2 k)) (zrange 1 28) = true)
    by (vm_compute; reflexivity).
  assert (Hr : 1 <= k < 1 + Z.of_nat 28) by lia.
  pose proof (zrange_check _ _ _ C k Hr) as H. cbv beta in H.
  apply andb_true_iff in H as [H H3]. apply andb_true_iff in H as [H1 H2].
  split; [destruct s; assumption|exact H3].
Qed.

Lemma text_eqb_eq (a b : text) : text_eqb a b = true -> a = b.
Proof.
  revert b. induction a as [|c a IH]; intros [|d b]; cbn [text_eqb];
    try discriminate; [reflexivity|].
  intros H. apply andb_true_iff in H as [H1 H2].
  apply char_eqb_eq in H1. apply IH in H2. congruence.
Qed.

Lemma frac_digit_ascii (n : nat) (k : Z) :
  Forall (fun c => (ch "0" <= c <= ch "9")%N) (frac_digits n k).
Proof.
  induction n as [|n IH]; cbn [frac_digits]; constructor; [|exact IH].
  pose proof (Z.mod_pos_bound (k / 10 ^ Z.of_nat n) 10 ltac:(lia)) as B.
  change (ch "0") with 48%N. change (ch "9") with 57%N. lia.
Qed.

Lemma format_two_decimals (t : string) (v : float) :
  value_ok t v -> two_decimals (format_fixed 2 v).
Proof.
  intros (k & Hk & ->).
  destruct (format_hundredths (mem_name t NEGATIVE_TARGETS) k Hk) as [E _].
  apply text_eqb_eq in E. rewrite E.
  pose proof (frac_digit_ascii 2 k) as F. cbn [frac_digits] in *.
  inversion F as [|? ? F1 F2]; subst. inversion F2 as [|? ? F3 _]; subst.
  eexists _, _, _. split; [reflexivity|]. split; assumption.
Qed.

Lemma milestone_table_ok :
  forallb milestone_entry_ok MILESTONE_REWARDS = true.
Proof. vm_compute. reflexivity. Qed.

Lemma float_eqb_eq (a b : float) : float_eqb a b = true -> a = b.
Proof.
  destruct a as [s|s| |s m e], b as [s'|s'| |s' m' e']; cbn [float_eqb];
    try discriminate; try reflexivity.
  - intros H. apply eqb_prop in H. congruence.
  - intros H. apply eqb_prop in H. congruence.
  - intros H. apply andb_true_iff in H as [H H3]. apply andb_true_iff in H as [H1 H2].
    apply eqb_prop in H1. apply Pos.eqb_eq in H2. apply Z.eqb_eq in H3. congruence.
Qed.

Lemma lookup_pair_In {A} (k : string * string) (d : list ((string * string) * A))
    (v : A) :
  lookup_pair k d = Some v -> In (k, v) d.
Proof.
  induction d as [|[[k1 k2] w] d IH]; cbn [lookup_pair In]; [discriminate|].
  destruct (String.eqb_spec (fst k) k1) as [E1|N]; cbn [andb].
  - destruct (String.eqb_spec (snd k) k2) as [E2|N].
    + intros [= ->]. left. destruct k; cbn [fst snd] in *; subst. reflexivity.
    + intros H. right. auto.
  - intros H. right. auto.
Qed.

Lemma milestone_value_ok (key : string * string) (nv : float) :
  In (key, nv) MILESTONE_REWARDS ->
  trimmed_decimals (milestone_text nv) = true /\
  float_of_literal (milestone_text nv) = nv.
Proof.
  intros H. pose proof milestone_table_ok as T.
  rewrite forallb_forall in T. specialize (T _ H).
  unfold milestone_entry_ok in T. cbn [snd] in T.
  apply andb_true_iff in T as [T1 T2]. split; [exact T1|].
  apply float_eqb_eq. exact T2.
Qed.

(** A reward the search finds is a place where the substitution pattern
    for its type matches. *)
Lemma match_reward_at (s rtype lit : text) :
  match_reward s = Some (rtype, lit) ->
  exists pre tl, s = pre ++ tl /\ reward_at rtype tl.
Proof.
  unfold match_reward.
  destruct (strip kw_brace s) as [s1|] eqn:E1; [|discriminate].
  apply strip_spec in E1.
  destruct (span is_space s1) as [ws s2] eqn:E2. apply span_spec in E2 as [E2 _].
  destruct (match_type_value None s2) as [[[g1 w] s3]|] eqn:E3; [|discriminate].
  destruct (match_unsigned s3) as [[l r]|] eqn:E4; [|discriminate].
  intros [= <- <-].
  destruct (match_type_value_spec _ _ _ _ _ E3)
    as (-> & ws1 & ws2 & ws3 & -> & W1 & W2 & W3 & _ & _).
  destruct (match_unsigned_head _ _ E4) as (d & r0 & -> & Hd).
  exists (kw_brace ++ ws), (reward_prefix w ws1 ws2 ws3 ++ d :: r0).
  split; [subst; rewrite <- !app_assoc; reflexivity|].
  exists ws1, ws2, ws3, d, r0. repeat split; assumption.
Qed.

Lemma search_reward_at (s rtype lit : text) :
  search_reward s = Some (rtype, lit) ->
  exists pre tl, s = pre ++ tl /\ reward_at rtype tl.
Proof.
  induction s as [|c s IH]; cbn [search_reward].
  - destruct (match_reward []) as [[w l]|] eqn:E; [|discriminate].
    intros [= <- <-]. eapply match_reward_at. exact E.
  - destruct (match_reward (c :: s)) as [[w l]|] eqn:E.
    + intros [= <- <-]. eapply match_reward_at. exact E.
    + intros H. destruct (IH H) as (pre & tl & -> & R).
      exists (c :: pre), tl. split; [reflexivity|exact R].
Qed.

(** The milestone loop body that counts: what it read and what it wrote. *)
Lemma milestone_step_cases (lines : list text) (cur : option text) (mc : Z)
    (i : nat) (lines' : list text) (cur' : option text) (mc' : Z) :
  milestone_step (lines, cur, mc) i = Ok (lines', cur', mc') ->
  (lines' = lines /\ mc' = mc) \/
  (exists line ms rtype lit nv,
     lines !! i = Some line /\
     cur' = Some ms /\
     cur' = match search_ms_id line with Some g => Some g | None => cur end /\
     search_reward line = Some (rtype, lit) /\
     lookup_pair (target_name ms, target_name rtype) MILESTONE_REWARDS = Some nv /\
     lines' = <[ i := sub_reward rtype (milestone_text nv) line ]> lines /\
     mc' = mc + 1).
Proof.
  unfold milestone_step. destruct (lines !! i) as [line|] eqn:Hi; [|discriminate].
  destruct (match search_ms_id line with Some g => Some g | None => cur end)
    as [ms|] eqn:Ec; [|intros [= <- <- <-]; left; split; reflexivity].
  destruct (search_reward line) as [[rtype lit]|] eqn:Er;
    [|intros [= <- <- <-]; left; split; reflexivity].
  destruct (lookup_pair (target_name ms, target_name rtype) MILESTONE_REWARDS)
    as [nv|] eqn:El; [|intros [= <- <- <-]; left; split; reflexivity].
  intros [= <- <- <-]. right. exists line, ms, rtype, lit, nv.
  split; [reflexivity|]. split; [reflexivity|]. split; [symmetry; exact Ec|].
  split; [exact Er|]. split; [exact El|]. split; reflexivity.
Qed.

(** C8. The patcher returns as many lines as it was given. A rewrite of
    line [i] replaces, in that line, the number literal after the leftmost
    [multiplier:] that is followed by a number by the text of the
    multiplier, which is a sign, [0.] and two digits; the text before it
    and after it stays as it was. A milestone value is written as [0.] and
    one to four digits without a trailing zero, unless the zero is the only
    digit, and that text reads back as the table value. A milestone step
    that counts replaces, in line [i], the number after the leftmost
    [type: 'RTYPE', value:] by that text, where the type is the one the
    search found on the line and the value is the table entry of the
    current milestone and that type; the rest of the line and the other
    lines stay as they were. *)
Theorem rewrite_locality :
  (forall lines lines' n,
     process_skill_file lines = Ok (lines', n) ->
     length lines' = length lines) /\
  (forall lines changes i lines',
     step (lines, changes) i = Ok (lines', changes + 1) ->
     exists line pre ws old rest new_mult,
       lines !! i = Some line /\
       line = pre ++ kw_multiplier ++ ws ++ old ++ rest /\
       forallb is_space ws = true /\
       match_number (old ++ rest) = Some (old, rest) /\
       (forall j, (j < length pre)%nat -> ~ multiplier_at (drop j line)) /\
       two_decimals (format_fixed 2 new_mult) /\
       lines' !! i =
         Some (pre ++ kw_multiplier ++ ws ++ format_fixed 2 new_mult ++ rest)) /\
  (forall key nv, In (key, nv) MILESTONE_REWARDS ->
     trimmed_decimals (milestone_text nv) = true /\
     float_of_literal (milestone_text nv) = nv) /\
  (forall lines cur mc i lines' cur',
     milestone_step (lines, cur, mc) i = Ok (lines', cur', mc + 1) ->
     exists line ms rtype lit nv pre ws1 ws2 ws3 old rest,
       lines !! i = Some line /\
       cur' = Some ms /\
       cur' = match search_ms_id line with Some g => Some g | None => cur end /\
       search_reward line = Some (rtype, lit) /\
       lookup_pair (target_name ms, target_name rtype) MILESTONE_REWARDS
         = Some nv /\
       trimmed_decimals (milestone_text nv) = true /\
       line = pre ++ reward_prefix rtype ws1 ws2 ws3 ++ old ++ rest /\
       forallb is_space ws1 = true /\ forallb is_space ws2 = true /\
       forallb is_space ws3 = true /\
       match_unsigned (old ++ rest) = Some (old, rest) /\
       (forall j, (j < length pre)%nat -> ~ reward_at rtype (drop j line)) /\
       lines' !! i =
         Some (pre ++ reward_prefix rtype ws1 ws2 ws3 ++ milestone_text nv
                 ++ rest) /\
       (forall k, k <> i -> lines' !! k = lines !! k) /\
       length lines' = length lines).
Proof.
  split; [|split; [|split]].
  - intros lines lines' n H. unfold process_skill_file in H.
    eapply run_length. exact H.
  - intros lines changes i lines' H.
    destruct (step_ok_cases _ _ _ _ _ H)
      as [[_ E]|(line & t & lit & row & nm & ps & Hi & Hs & _ & _ & _ & V & _ & _
                  & -> & _)]; [lia|].
    destruct (sub_multiplier_rewrites (format_fixed 2 nm) line t lit Hs)
      as (pre & ws & old & rest & L & W & M & N & S).
    exists line, pre, ws, old, rest, nm.
    split; [exact Hi|]. split; [exact L|]. split; [exact W|]. split; [exact M|].
    split; [exact N|].
    split; [eapply format_two_decimals; exact V|].
    rewrite propagate_at. rewrite <- S. apply list_lookup_insert_eq.
    apply lookup_lt_Some in Hi. exact Hi.
  - apply milestone_value_ok.
  - intros lines cur mc i lines' cur' H.
    destruct (milestone_step_cases _ _ _ _ _ _ _ H)
      as [[_ E]|(line & ms & rtype & lit & nv & Hi & C1 & C2 & Sr & L & -> & _)];
      [lia|].
    destruct (search_reward_at _ _ _ Sr) as (p0 & tl & E0 & R0).
    destruct (sub_reward_spec rtype (milestone_text nv) line)
      as [[N _]|(pre & ws1 & ws2 & ws3 & old & rest & S & W1 & W2 & W3 & U & N & E)].
    { exfalso. apply (N (length p0)). rewrite E0, drop_app_length. exact R0. }
    exists line, ms, rtype, lit, nv, pre, ws1, ws2, ws3, old, rest.
    split; [exact Hi|]. split; [exact C1|]. split; [exact C2|].
    split; [exact Sr|]. split; [exact L|].
    split; [apply (milestone_value_ok _ _ (lookup_pair_In _ _ _ L))|].
    split; [exact S|]. split; [exact W1|]. split; [exact W2|].
    split; [exact W3|]. split; [exact U|]. split; [exact N|].
    split; [|split].
    + rewrite <- E. apply list_lookup_insert_eq. apply lookup_lt_Some in Hi. exact Hi.
    + intros k Hk. apply list_lookup_insert_ne. congruence.
    + apply length_insert.
Qed.

Lemma rewrite_locality_witness :
  length two_multipliers_once = length two_multipliers /\
  (exists line pre ws old rest new_mult,
    xp_node !! 2%nat = Some line /\
    line = pre ++ kw_multiplier ++ ws ++ old ++ rest /\
    forallb is_space ws = true /\
    match_number (old ++ rest) = Some (old, rest) /\
    (forall j, (j < length pre)%nat -> ~ multiplier_at (drop j line)) /\
    two_decimals (format_fixed 2 new_mult) /\
    [ ln "    row: 10,";
      ln "    effectDescription: '+6% XP',";
      ln "    effects: [{ target: 'xpGain', multiplier: 0.06 }]," ] !! 2%nat =
      Some (pre ++ kw_multiplier ++ ws ++ format_fixed 2 new_mult ++ rest)) /\
  (exists line ms rtype lit nv pre ws1 ws2 ws3 old rest,
    milestone_entry !! 1%nat = Some line /\
    Some (tx "ms_points_50") = Some ms /\
    Some (tx "ms_points_50") =
      match search_ms_id line with
      | Some g => Some g
      | None => Some (tx "ms_points_50")
      end /\
    search_reward line = Some (rtype, lit) /\
    lookup_pair (target_name ms, target_name rtype) MILESTONE_REWARDS
      = Some nv /\
    trimmed_decimals (milestone_text nv) = true /\
    line = pre ++ reward_prefix rtype ws1 ws2 ws3 ++ old ++ rest /\
    forallb is_space ws1 = true /\ forallb is_space ws2 = true /\
    forallb is_space ws3 = true /\
    match_unsigned (old ++ rest) = Some (old, rest) /\
    (forall j, (j < length pre)%nat -> ~ reward_at rtype (drop j line)) /\
    milestone_entry_out !! 1%nat =
      Some (pre ++ reward_prefix rtype ws1 ws2 ws3 ++ milestone_text nv
              ++ rest) /\
    (forall k, k <> 1%nat -> milestone_entry_out !! k = milestone_entry !! k) /\
    length milestone_entry_out = length milestone_entry).
Proof.
  destruct rewrite_locality as (L & R & _ & M). split; [|split].
  - apply (L two_multipliers two_multipliers_once 2). vm_compute. reflexivity.
  - apply (R xp_node 0 2%nat). vm_compute. reflexivity.
  - apply (M milestone_entry (Some (tx "ms_points_50")) 0 1%nat).
    vm_compute. reflexivity.
Defined.



(** ** Values, errors and counts of the patcher *)

Lemma written_entry_table (s : bool) (k : Z) :
  1 <= k <= 28 -> written_entry_ok s k = true.
Proof.
  intros Hk.
  assert (C : forallb (fun k => written_entry_ok true k && written_entry_ok false k)
                (zrange 1 28) = true) by (vm_compute; reflexivity).
  assert (Hr : 1 <= k < 1 + Z.of_nat 28) by lia.
  pose proof (zrange_check _ _ _ C k Hr) as H. cbv beta in H.
  apply andb_true_iff in H as [H1 H2]. destruct s; assumption.
Qed.

(** X1. For a row that a row marker can name (a natural number) and a
    target with a curve, the multiplier is [k] hundredths for a [k] from 1
    to 28, negative exactly for the targets of the negative set; its
    percentage text is the whole number [k] without a decimal point, and
    the sign written before it is [-] for the negative targets and [+] for
    the others. *)
Theorem multiplier_values_and_percent (row : Z) (t : string) (v : float) :
  0 <= row -> compute_mult row t = Ok (Some v) ->
  exists k, 1 <= k <= 28 /\
    v = hundredths (mem_name t NEGATIVE_TARGETS) k /\
    fmt_pct v = Ok (str_of_nat_Z k) /\
    sign_of v = (if mem_name t NEGATIVE_TARGETS then tx "-" else tx "+").
Proof.
  intros Hr H. destruct (compute_mult_value_ok row t v Hr H) as (k & Hk & ->).
  exists k. split; [exact Hk|]. split; [reflexivity|].
  pose proof (written_entry_table (mem_name t NEGATIVE_TARGETS) k Hk) as T.
  unfold written_entry_ok in T.
  apply andb_true_iff in T as [T T4]. apply andb_true_iff in T as [T T3].
  apply andb_true_iff in T as [T1 T2].
  split.
  - destruct (fmt_pct (hundredths (mem_name t NEGATIVE_TARGETS) k)) as [ps|];
      [|discriminate]. apply text_eqb_eq in T1. congruence.
  - apply text_eqb_eq in T4. exact T4.
Qed.

Lemma multiplier_values_and_percent_witness :
  exists k, 1 <= k <= 28 /\
    F64.opp (F64.dec 6 2) = hundredths (mem_name "costReduction" NEGATIVE_TARGETS) k /\
    fmt_pct (F64.opp (F64.dec 6 2)) = Ok (str_of_nat_Z k) /\
    sign_of (F64.opp (F64.dec 6 2)) =
      (if mem_name "costReduction" NEGATIVE_TARGETS then tx "-" else tx "+").
Proof.
  apply (multiplier_values_and_percent 8 "costReduction").
  - vm_compute. discriminate.
  - vm_compute. reflexivity.
Defined.



(** [compute_mult] gives [None] exactly for the targets without a
    curve, whatever the row: the lookup comes before the division, so an
    unknown target never raises, and a known target never gives [None]. *)
Lemma compute_mult_none_iff (row : Z) (t : string) :
  compute_mult row t = Ok None <-> lookup_name t CURVES = None.
Proof.
  unfold compute_mult. destruct (lookup_name t CURVES) as [c|].
  - split; [|discriminate].
    destruct (interp_fraction row); cbn [bind]; discriminate.
  - split; reflexivity.
Qed.

Lemma compute_mult_raises_overflow (row : Z) (t : string) (e : pyexn) :
  compute_mult row t = Raise e ->
  e = OverflowError /\ (row <= - overflow_row \/ overflow_row <= row).
Proof.
  intros H. split.
  - revert H. unfold compute_mult. destruct (lookup_name t CURVES) as [c|]; [|discriminate].
    unfold interp_fraction, F64.int_truediv, MAX_ROW.
    change (17 =? 0) with false. cbv iota.
    destruct (F64.is_inf _); cbn [bind]; [|discriminate]. intros [= <-]. reflexivity.
  - destruct (Z_le_gt_dec row (- overflow_row)) as [A|A]; [left; exact A|].
    destruct (Z_le_gt_dec overflow_row row) as [B|B]; [right; exact B|].
    exfalso. unfold compute_mult in H.
    destruct (lookup_name t CURVES) as [c|]; [|discriminate].
    destruct (interp_fraction_total row ltac:(lia)) as [f E].
    rewrite E in H. discriminate.
Qed.

Lemma step_raises (lines : list text) (changes : Z) (i : nat) (e : pyexn) :
  (i < length lines)%nat -> step (lines, changes) i = Raise e ->
  (e = ValueError /\
   exists j l ds,
     (j < i <= j + 7)%nat /\ lines !! j = Some l /\
     search_row l = Some ds /\
     (forall j' l', (j < j' < i)%nat -> lines !! j' = Some l' ->
                    search_row l' = None) /\
     (default_max_str_digits < N.of_nat (length ds))%N) \/
  (e = OverflowError /\
   exists row, find_row lines i = Ok (Some row) /\ overflow_row <= row).
Proof.
  intros Hi H.
  destruct (step_raise_cases _ _ _ _ Hi H)
    as (line & t & lit & Hl & Hs & [[Hr ->]|(row & Hr & Hn & Ec)]).
  - left. split; [reflexivity|].
    pose proof (find_row_cases lines i) as W. rewrite Hr in W.
    destruct W as (j & l & ds & B & A1 & A2 & A3 & E).
    exists j, l, ds. split; [exact B|]. split; [exact A1|]. split; [exact A2|].
    split; [exact A3|].
    destruct (int_of_digits ds) as [r|e0] eqn:Ei; cbn [bind] in E; [discriminate|].
    apply int_of_digits_raise in Ei as [_ Ei]. exact Ei.
  - right. destruct (compute_mult_raises_overflow _ _ _ Ec) as [-> [B|B]].
    + pose proof overflow_row_large. lia.
    + split; [reflexivity|]. exists row. split; assumption.
Qed.

Lemma run_raises (idx : list nat) (lines : list text) (changes : Z) (e : pyexn) :
  Forall (fun i => (i < length lines)%nat) idx ->
  run (lines, changes) idx = Raise e -> e = ValueError \/ e = OverflowError.
Proof.
  revert lines changes. induction idx as [|i idx IH]; intros lines changes F; cbn [run].
  - discriminate.
  - inversion F as [|? ? Hi F']; subst.
    destruct (step (lines, changes) i) as [[l1 c1]|e1] eqn:E; cbn [bind].
    + apply IH. apply step_length in E. rewrite E. exact F'.
    + intros [= <-].
      destruct (step_raises _ _ _ _ Hi E) as [[-> _]|[-> _]]; [left|right]; reflexivity.
Qed.

(** X4. The patcher raises only [ValueError] and [OverflowError], and it
    raises both: a step raises [ValueError] only when the nearest row
    marker of the window has more than 4300 digits, which [int] refuses,
    and [OverflowError] only when the row found is at least
    [overflow_row], the first row whose quotient by 17 is too large for a
    float. The loop never indexes outside the lines. *)
Theorem patcher_exceptions :
  (forall lines e,
     process_skill_file lines = Raise e ->
     e = ValueError \/ e = OverflowError) /\
  (forall lines changes i e,
     (i < length lines)%nat -> step (lines, changes) i = Raise e ->
     (e = ValueError /\
      exists j l ds,
        (j < i <= j + 7)%nat /\ lines !! j = Some l /\
        search_row l = Some ds /\
        (forall j' l', (j < j' < i)%nat -> lines !! j' = Some l' ->
                       search_row l' = None) /\
        (default_max_str_digits < N.of_nat (length ds))%N) \/
     (e = OverflowError /\
      exists row, find_row lines i = Ok (Some row) /\ overflow_row <= row)) /\
  process_skill_file long_marker = Raise ValueError /\
  process_skill_file huge_row = Raise OverflowError.
Proof.
  split; [|split; [|split]].
  - intros lines e. unfold process_skill_file. apply run_raises.
    apply List.Forall_forall. intros i Hi. apply in_seq in Hi. lia.
  - apply step_raises.
  - vm_compute. reflexivity.
  - vm_compute. reflexivity.
Qed.

Lemma step_count (lines : list text) (changes : Z) (i : nat)
    (lines' : list text) (changes' : Z) :
  step (lines, changes) i = Ok (lines', changes') ->
  (lines' = lines /\ changes' = changes) \/ changes' = changes + 1.
Proof.
  intros H. destruct (step_ok_cases _ _ _ _ _ H)
    as [E|(line & t & lit & row & nm & ps & _ & _ & _ & _ & _ & _ & _ & _ & _ & E)];
    [left; exact E|right; exact E].
Qed.

Lemma run_count (idx : list nat) (lines : list text) (changes : Z)
    (lines' : list text) (changes' : Z) :
  run (lines, changes) idx = Ok (lines', changes') ->
  changes <= changes' <= changes + Z.of_nat (length idx) /\
  (changes' = changes -> lines' = lines).
Proof.
  revert lines changes. induction idx as [|i idx IH]; intros lines changes; cbn [run].
  - intros [= <- <-]. cbn [length]. split; [lia|reflexivity].
  - destruct (step (lines, changes) i) as [[l1 c1]|e] eqn:E; cbn [bind]; [|discriminate].
    intros H. destruct (IH _ _ H) as [B Z0]. cbn [length].
    destruct (step_count _ _ _ _ _ E) as [ [ -> -> ] | -> ].
    + split; [lia|exact Z0].
    + split; [lia|]. intros K. lia.
Qed.

(** X5. The count the patcher returns lies between 0 and the number of
    lines, and a count of 0 means the lines come back exactly as they were
    given. *)
Theorem count_bounds_and_zero (lines lines' : list text) (n : Z) :
  process_skill_file lines = Ok (lines', n) ->
  0 <= n <= Z.of_nat (length lines) /\ (n = 0 -> lines' = lines).
Proof.
  unfold process_skill_file. intros H.
  destruct (run_count _ _ _ _ _ H) as [B Z0]. rewrite length_seq in B.
  split; [lia|exact Z0].
Qed.

Lemma count_bounds_and_zero_witness :
  0 <= 2 <= Z.of_nat (length two_multipliers) /\
  (2 = 0 -> two_multipliers_once = two_multipliers).
Proof.
  apply (count_bounds_and_zero two_multipliers two_multipliers_once 2).
  vm_compute. reflexivity.
Defined.

(** X14. The tolerance gate of a step. For an occurrence on line [i] with
    a found row and a computed multiplier: when the float test
    [abs(new_mult - old_mult) < 0.001] holds, the step leaves the lines
    and the counter as they are; when it fails, the step counts one change
    and line [i] has the number after its leftmost [multiplier:] replaced
    by the two-decimal text of the multiplier. The multiplier is [k]
    hundredths for some [k] from 1 to 28, and for such a value a stored
    literal at 0.0009 from it, on either side, passes the test while a
    stored literal at 0.0011 from it fails it. *)
Theorem tolerance_gate (lines : list text) (changes : Z) (i : nat)
    (line target lit : text) (row : Z) (new_mult : float) :
  lines !! i = Some line ->
  search_target line = Some (target, lit) ->
  find_row lines i = Ok (Some row) ->
  compute_mult row (target_name target) = Ok (Some new_mult) ->
  (within_tolerance new_mult (float_of_literal lit) = true ->
   step (lines, changes) i = Ok (lines, changes)) /\
  (within_tolerance new_mult (float_of_literal lit) = false ->
   exists lines' pre ws old rest,
     step (lines, changes) i = Ok (lines', changes + 1) /\
     line = pre ++ kw_multiplier ++ ws ++ old ++ rest /\
     forallb is_space ws = true /\
     match_number (old ++ rest) = Some (old, rest) /\
     (forall j, (j < length pre)%nat -> ~ multiplier_at (drop j line)) /\
     lines' !! i =
       Some (pre ++ kw_multiplier ++ ws ++ format_fixed 2 new_mult ++ rest)) /\
  (exists k, 1 <= k <= 28 /\
     new_mult = hundredths (mem_name (target_name target) NEGATIVE_TARGETS) k /\
     tolerance_probe (mem_name (target_name target) NEGATIVE_TARGETS) k = true).
Proof.
  intros Hi Hs Hr Hc.
  pose proof (find_row_nonneg _ _ _ Hr) as Hn.
  pose proof (compute_mult_value_ok _ _ _ Hn Hc) as V.
  split; [|split].
  - intros Ht. unfold step. rewrite Hi, Hs, Hr. cbn [bind]. rewrite Hc. cbn [bind].
    rewrite Ht. reflexivity.
  - intros Ht.
    destruct (rewrite_at_ok lines line i _ _ V) as (ps & Ep & Ew).
    destruct (sub_multiplier_rewrites (format_fixed 2 new_mult) line target lit Hs)
      as (pre & ws & old & rest & L & W & M & N & S).
    eexists _, pre, ws, old, rest. split.
    { unfold step. rewrite Hi, Hs, Hr. cbn [bind]. rewrite Hc. cbn [bind].
      rewrite Ht, Ew. cbn [bind]. reflexivity. }
    split; [exact L|]. split; [exact W|]. split; [exact M|]. split; [exact N|].
    rewrite propagate_at. rewrite <- S. apply list_lookup_insert_eq.
    apply lookup_lt_Some in Hi. exact Hi.
  - destruct V as (k & Hk & E). exists k. split; [exact Hk|]. split; [exact E|].
    apply tolerance_probe_ok. exact Hk.
Qed.

Lemma tolerance_gate_witness :
  exists lines' pre ws old rest,
    step (xp_node, 0) 2 = Ok (lines', 0 + 1) /\
    xp_line = pre ++ kw_multiplier ++ ws ++ old ++ rest /\
    forallb is_space ws = true /\
    match_number (old ++ rest) = Some (old, rest) /\
    (forall j, (j < length pre)%nat -> ~ multiplier_at (drop j xp_line)) /\
    lines' !! 2%nat =
      Some (pre ++ kw_multiplier ++ ws ++ format_fixed 2 (F64.dec 6 2) ++ rest).
Proof.
  assert (H1 : xp_node !! 2%nat = Some xp_line) by reflexivity.
  assert (H2 : search_target xp_line = Some (tx "xpGain", tx "0.05"))
    by (vm_compute; reflexivity).
  assert (H3 : find_row xp_node 2 = Ok (Some 10)) by (vm_compute; reflexivity).
  assert (H4 : compute_mult 10 (target_name (tx "xpGain")) = Ok (Some (F64.dec 6 2)))
    by (vm_compute; reflexivity).
  destruct (tolerance_gate xp_node 0 2 xp_line (tx "xpGain") (tx "0.05")
              10 (F64.dec 6 2) H1 H2 H3 H4) as (_ & R & _).
  apply R. vm_compute. reflexivity.
Defined.

(** ** Lines the patcher keeps *)

Lemma multiplier_at_contains (pre s : text) :
  multiplier_at s -> contains kw_multiplier (pre ++ s) = true.
Proof.
  intros (ws & t & -> & _). apply contains_app.
Qed.

Lemma search_target_contains (s name lit : text) :
  search_target s = Some (name, lit) -> contains kw_multiplier s = true.
Proof.
  intros H. destruct (search_target_found _ _ _ H) as (pre & s' & -> & N).
  apply multiplier_at_contains. exact N.
Qed.

Lemma step_frame (lines : list text) (changes : Z) (i : nat)
    (lines' : list text) (changes' : Z) (k : nat) (l : text) :
  step (lines, changes) i = Ok (lines', changes') ->
  lines !! k = Some l ->
  contains kw_multiplier l = false -> contains kw_effect_name l = false ->
  lines' !! k = Some l.
Proof.
  intros H Hk Hm He.
  destruct (step_ok_cases _ _ _ _ _ H)
    as [[-> _]|(line & t & lit & row & nm & ps & Hi & Hs & _ & _ & _ & _ & _ & _
                & -> & _)]; [exact Hk|].
  destruct (Nat.eq_dec k i) as [->|N].
  { rewrite Hi in Hk. injection Hk as ->.
    rewrite (search_target_contains _ _ _ Hs) in Hm. discriminate. }
  set (lines1 := <[ i := sub_multiplier (format_fixed 2 nm) line ]> lines).
  assert (F : lines1 !! k = Some l)
    by (unfold lines1; rewrite list_lookup_insert_ne by congruence; exact Hk).
  destruct (propagate_frame lines1 i (sign_of nm ++ ps) k)
    as [Q|(_ & (l1 & E1 & C1 & _) & _)].
  - rewrite Q. exact F.
  - rewrite F in E1. injection E1 as <-. rewrite C1 in He. discriminate.
Qed.

Lemma run_frame (idx : list nat) (lines : list text) (changes : Z)
    (lines' : list text) (changes' : Z) (k : nat) (l : text) :
  run (lines, changes) idx = Ok (lines', changes') ->
  lines !! k = Some l ->
  contains kw_multiplier l = false -> contains kw_effect_name l = false ->
  lines' !! k = Some l.
Proof.
  revert lines changes. induction idx as [|i idx IH]; intros lines changes; cbn [run].
  - intros [= <- <-] Hk _ _. exact Hk.
  - destruct (step (lines, changes) i) as [[l1 c1]|e] eqn:E; cbn [bind]; [|discriminate].
    intros H Hk Hm He. eapply IH; try eassumption.
    eapply step_frame; eassumption.
Qed.

(** X6. A line that contains neither [multiplier:] nor [effectDescription]
    comes back from the patcher exactly as it was given, whatever the rest
    of the document holds. *)
Theorem untouched_lines (lines lines' : list text) (n : Z) (k : nat) (l : text) :
  process_skill_file lines = Ok (lines', n) ->
  lines !! k = Some l ->
  contains kw_multiplier l = false ->
  contains kw_effect_name l = false ->
  lines' !! k = Some l.
Proof. unfold process_skill_file. apply run_frame. Qed.

Lemma untouched_lines_witness :
  two_multipliers_once !! 0%nat = Some (ln "row: 0").
Proof.
  apply (untouched_lines two_multipliers two_multipliers_once 2 0 (ln "row: 0")).
  - vm_compute. reflexivity.
  - reflexivity.
  - vm_compute. reflexivity.
  - vm_compute. reflexivity.
Defined.

(** X7. A row found by the backward scan is the value in base ten of the
    digits of the nearest row marker of the window; these are decimal
    digits, of any script, and there are between 1 and 4300 of them, so
    the row is a natural number below 10^4300. *)
Theorem found_row_is_natural (lines : list text) (i : nat) (row : Z) :
  find_row lines i = Ok (Some row) ->
  0 <= row < 10 ^ 4300 /\
  exists j l ds,
    (j < i <= j + 7)%nat /\ lines !! j = Some l /\
    search_row l = Some ds /\
    (forall j' l', (j < j' < i)%nat -> lines !! j' = Some l' ->
                   search_row l' = None) /\
    ds <> [] /\ forallb is_digit ds = true /\
    (N.of_nat (length ds) <= default_max_str_digits)%N /\
    row = digits_val ds.
Proof.
  intros H. pose proof (find_row_cases lines i) as W. rewrite H in W.
  destruct W as (j & l & ds & B & A1 & A2 & A3 & E).
  destruct (int_of_digits ds) as [r|e] eqn:Ei; cbn [bind] in E; [|discriminate].
  injection E as ->. apply int_of_digits_ok in Ei as [L ->].
  destruct (search_row_from_digits _ _ _ A2) as [Nn D].
  split.
  - pose proof (digits_val_range ds) as R. split; [lia|].
    eapply Z.lt_le_trans; [apply R|].
    apply Z.pow_le_mono_r; [lia|].
    unfold default_max_str_digits in L. lia.
  - exists j, l, ds. split; [exact B|]. split; [exact A1|]. split; [exact A2|].
    split; [exact A3|]. split; [exact Nn|]. split; [exact D|].
    split; [exact L|reflexivity].
Qed.

Lemma found_row_is_natural_witness :
  0 <= 3 < 10 ^ 4300 /\
  exists j l ds,
    (j < 1 <= j + 7)%nat /\ indic_marker !! j = Some l /\
    search_row l = Some ds /\
    (forall j' l', (j < j' < 1)%nat -> indic_marker !! j' = Some l' ->
                   search_row l' = None) /\
    ds <> [] /\ forallb is_digit ds = true /\
    (N.of_nat (length ds) <= default_max_str_digits)%N /\
    3 = digits_val ds.
Proof.
  apply (found_row_is_natural indic_marker 1 3). vm_compute. reflexivity.
Defined.


(** The classes beyond ASCII: a no-break space is white space and a
    zero-width space is not; an Arabic-Indic three is a digit of value 3;
    a letter with an accent is a word character, so it hides a row marker
    that follows it. *)
Lemma unicode_markers :
  is_space 160%N = true /\ is_space 8203%N = false /\
  is_digit 1635%N = true /\ digit_val 1635%N = 3 /\
  is_word 233%N = true /\
  search_row (tx "row:" ++ [160%N; 1635%N]) = Some [1635%N] /\
  int_of_digits [1635%N] = Ok 3 /\
  search_row (233%N :: tx "row: 3") = None /\
  find_row indic_marker 1 = Ok (Some 3).
Proof. repeat split; vm_compute; reflexivity. Qed.

(** ** The milestone section *)


Lemma milestone_step_ok (lines : list text) (cur : option text) (mc : Z) (i : nat) :
  (i < length lines)%nat ->
  exists lines' cur' mc', milestone_step (lines, cur, mc) i = Ok (lines', cur', mc').
Proof.
  intros Hi. destruct (lookup_lt_is_Some_2 lines i Hi) as [line Hl].
  unfold milestone_step. rewrite Hl.
  destruct (match search_ms_id line with Some g => Some g | None => cur end) as [ms|];
    [|eauto].
  destruct (search_reward line) as [[rtype old]|]; [|eauto].
  destruct (lookup_pair (target_name ms, target_name rtype) MILESTONE_REWARDS); eauto.
Qed.

Lemma milestone_step_frame (lines : list text) (cur : option text) (mc : Z)
    (i : nat) (lines' : list text) (cur' : option text) (mc' : Z) :
  milestone_step (lines, cur, mc) i = Ok (lines', cur', mc') ->
  length lines' = length lines /\ mc <= mc' <= mc + 1 /\
  (forall k, k <> i -> lines' !! k = lines !! k) /\
  (forall l, lines !! i = Some l -> contains kw_value l = false ->
             lines' !! i = Some l).
Proof.
  intros H. destruct (milestone_step_cases _ _ _ _ _ _ _ H)
    as [[-> ->]|(line & ms & rtype & old & nv & Hi & _ & _ & Sr & L & -> & ->)].
  - split; [reflexivity|]. split; [lia|]. split; [reflexivity|]. intros l E _. exact E.
  - split; [apply length_insert|]. split; [lia|]. split.
    + intros k N. apply list_lookup_insert_ne. congruence.
    + intros l E C. exfalso. rewrite Hi in E. injection E as ->.
      assert (K : contains kw_value l = true); [|congruence].
      destruct (search_reward_at _ _ _ Sr)
        as (pre & tl & -> & ws1 & ws2 & ws3 & d & r & -> & _).
      unfold reward_prefix.
      replace (pre ++ (kw_type ++ ws1 ++ quote ++ rtype ++ quote ++ comma
                         ++ ws2 ++ kw_value ++ ws3) ++ d :: r)
        with ((pre ++ kw_type ++ ws1 ++ quote ++ rtype ++ quote ++ comma ++ ws2)
                ++ kw_value ++ (ws3 ++ d :: r))
        by (repeat rewrite <- app_assoc; reflexivity).
      apply contains_app.
Qed.

Lemma milestone_run_frame (idx : list nat) (lines : list text)
    (cur : option text) (mc : Z) (lines' : list text) (cur' : option text)
    (mc' : Z) :
  milestone_run (lines, cur, mc) idx = Ok (lines', cur', mc') ->
  length lines' = length lines /\
  mc <= mc' <= mc + Z.of_nat (length idx) /\
  (forall k, ~ In k idx -> lines' !! k = lines !! k) /\
  (forall k l, lines !! k = Some l -> contains kw_value l = false ->
               lines' !! k = Some l).
Proof.
  revert lines cur mc. induction idx as [|i idx IH]; intros lines cur mc; cbn [milestone_run].
  - intros [= <- <- <-]. cbn [length]. split; [reflexivity|]. split; [lia|].
    split; [reflexivity|]. intros k l E _. exact E.
  - destruct (milestone_step (lines, cur, mc) i) as [[[l1 c1] m1]|e] eqn:E;
      cbn [bind]; [|discriminate].
    intros H. destruct (IH _ _ _ H) as (L & B & F & V).
    destruct (milestone_step_frame _ _ _ _ _ _ _ E) as (L1 & B1 & F1 & V1).
    cbn [length]. split; [congruence|]. split; [lia|]. split.
    + intros k N. rewrite F by (intros K; apply N; right; exact K).
      apply F1. intros ->. apply N. left. reflexivity.
    + intros k l Hk C. apply V; [|exact C].
      destruct (Nat.eq_dec k i) as [->|N]; [apply V1; assumption|].
      rewrite F1 by exact N. exact Hk.
Qed.

Lemma milestone_run_ok (idx : list nat) (lines : list text)
    (cur : option text) (mc : Z) :
  Forall (fun i => (i < length lines)%nat) idx ->
  exists st, milestone_run (lines, cur, mc) idx = Ok st.
Proof.
  revert lines cur mc. induction idx as [|i idx IH]; intros lines cur mc F; cbn [milestone_run].
  - eauto.
  - inversion F as [|? ? Hi F']; subst.
    destruct (milestone_step_ok lines cur mc i Hi) as (l1 & c1 & m1 & E).
    rewrite E. cbn [bind]. apply IH.
    destruct (milestone_step_frame _ _ _ _ _ _ _ E) as (L1 & _). rewrite L1. exact F'.
Qed.

Lemma milestone_run_prefix (n a : nat) (lines : list text) (mc : Z)
    (lines' : list text) (cur' : option text) (mc' : Z) (k : nat) :
  milestone_run (lines, None, mc) (seq a n) = Ok (lines', cur', mc') ->
  (forall j l, (j <= k)%nat -> lines !! j = Some l -> search_ms_id l = None) ->
  lines' !! k = lines !! k.
Proof.
  revert a lines mc. induction n as [|n IH]; intros a lines mc; cbn [seq milestone_run].
  - intros [= <- <- <-] _. reflexivity.
  - intros H N. destruct (Nat.le_gt_cases a k) as [A|A].
    + destruct (lines !! a) as [l|] eqn:El.
      * assert (E : milestone_step (lines, None, mc) a = Ok (lines, None, mc)).
        { unfold milestone_step. rewrite El, (N a l A El). reflexivity. }
        rewrite E in H. cbn [bind] in H. eapply IH; eassumption.
      * unfold milestone_step in H. rewrite El in H. discriminate.
    + destruct (milestone_run_frame (a :: seq (S a) n) lines None mc lines' cur' mc' H)
        as (_ & _ & F & _).
      apply F. cbn [In]. intros [->|K]; [lia|]. apply in_seq in K. lia.
Qed.

(** X10. The milestone section never raises: it returns as many lines as
    it was given and a count between 0 and the number of lines. A line
    without [value:] comes back as it was, and so does every line up to the
    first line with a milestone id: no reward is rewritten before a
    milestone id has been seen. *)
Theorem milestone_section_frame (lines : list text) :
  exists lines' mc,
    process_milestones lines = Ok (lines', mc) /\
    length lines' = length lines /\
    0 <= mc <= Z.of_nat (length lines) /\
    (forall k l, lines !! k = Some l -> contains kw_value l = false ->
                 lines' !! k = Some l) /\
    (forall k,
       (forall j l, (j <= k)%nat -> lines !! j = Some l -> search_ms_id l = None) ->
       lines' !! k = lines !! k).
Proof.
  unfold process_milestones.
  destruct (milestone_run_ok (seq 0 (length lines)) lines None 0) as [[[l1 c1] m1] E].
  { apply List.Forall_forall. intros i Hi. apply in_seq in Hi. lia. }
  rewrite E. cbn [bind fst snd]. exists l1, m1. split; [reflexivity|].
  destruct (milestone_run_frame _ _ _ _ _ _ _ E) as (L & B & _ & V).
  rewrite length_seq in B.
  split; [exact L|]. split; [lia|]. split; [exact V|].
  intros k N. eapply milestone_run_prefix; eassumption.
Qed.

Lemma milestone_doc_patched :
  process_milestones milestone_doc = Ok (milestone_doc_out, 1).
Proof. vm_compute. reflexivity. Qed.

(** ** The overflow boundary of the curve evaluator *)

(** When the 53 digits kept are all ones and the first digit dropped is a
    one, rounding to nearest even carries into the next binade. *)
Lemma binary_round_aux_carry (s : bool) (mx ex : Z) (lx : location) :
  0 < mx -> 53 < Zdigits2 mx -> -1074 <= ex ->
  Z.shiftr mx (Zdigits2 mx - 53) = 2 ^ 53 - 1 ->
  Z.testbit mx (Zdigits2 mx - 53 - 1) = true ->
  binary_round_aux 53 1024 s mx ex lx =
    (if ex + (Zdigits2 mx - 53) + 1 <=? 971
     then S754_finite s 4503599627370496 (ex + (Zdigits2 mx - 53) + 1)
     else S754_infinity s).
Proof.
  intros Hm Hd He Hs Hb.
  destruct (shr_fexp_normal mx ex lx Hm ltac:(lia) He) as (mrs & E1 & M1 & R1).
  set (n := Zdigits2 mx - 53) in *.
  assert (Hn : 0 < n) by (unfold n; lia).
  specialize (R1 Hn). rewrite Hb in R1. rewrite Hs in M1.
  unfold binary_round_aux. rewrite E1.
  assert (C : round_nearest_even (shr_m mrs) (loc_of_shr_record mrs) = 2 ^ 53).
  { destruct mrs as [m r st]. cbn [shr_m shr_r] in *. subst m r.
    destruct st; reflexivity. }
  rewrite C.
  unfold shr_fexp, fexp, emin. change (Zdigits2 (2 ^ 53)) with 54.
  replace (Z.max (54 + (ex + n) - 53) (3 - 1024 - 53) - (ex + n)) with 1 by lia.
  cbn [shr shr_record_of_loc SpecFloat.iter_pos shr_1 shr_m].
  change (1024 - 53) with 971. reflexivity.
Qed.

Lemma of_ratio_17_overflow (s : bool) (p : Z) :
  overflow_row <= p -> F64.of_ratio s p 17 = S754_infinity s.
Proof.
  intros Hp. pose proof overflow_row_large as L0.
  assert (Hp0 : 0 < p) by lia.
  assert (HB : 17 * (2 ^ 1024 - 2 ^ 970) <= p) by exact Hp.
  unfold F64.of_ratio. destruct p as [|p'|p'] eqn:Ep; try lia. rewrite <- Ep in *.
  clear Ep p'.
  unfold SFdiv_core_binary, F64.prec, F64.emax, fexp, emin.
  change (Zdigits2 17) with 5.
  assert (D : 1029 <= Zdigits2 p).
  { apply (Zdigits2_lower p 1028); [lia|lia|]. 
    assert (2 ^ 1028 <= 17 * (2 ^ 1024 - 2 ^ 970)) by (vm_compute; discriminate).
    lia. }
  set (d1 := Zdigits2 p) in *.
  replace (Z.min (Z.max (d1 + 0 - (5 + 0) - 53) (3 - 1024 - 53)) (0 - 0))
    with 0 by lia.
  change (0 - 0 - 0) with 0. cbv iota.
  destruct (Z.div_eucl p 17) as [q r] eqn:Ed.
  apply div_eucl_div in Ed.
  assert (Q1 : 2 ^ 1024 - 2 ^ 970 <= q)
    by (subst q; apply Z.div_le_lower_bound; lia).
  assert (P1023 : 2 ^ 1023 <= 2 ^ 1024 - 2 ^ 970) by (vm_compute; discriminate).
  assert (Hq : 0 < q).
  { assert (0 < 2 ^ 1023) by (vm_compute; reflexivity). lia. }
  assert (Dq : 1024 <= Zdigits2 q) by (apply (Zdigits2_lower q 1023); lia).
  destruct (Z_le_gt_dec (2 ^ 1024) q) as [Big|Small].
  - (* more than 1024 digits: the exponent alone overflows *)
    assert (Dq' : 1025 <= Zdigits2 q) by (apply (Zdigits2_lower q 1024); lia).
    destruct (binary_round_aux_normal s q 0 (new_location 17 r) Hq)
      as (m & e & E & B & C); [lia|lia|].
    rewrite E. replace (e <=? 971) with false; [reflexivity|].
    symmetry. apply Z.leb_gt. lia.
  - (* 1024 digits, the top 53 all ones and the next one set *)
    assert (Dq' : Zdigits2 q = 1024) by (apply Zdigits2_unique; lia).
    assert (S1 : Z.shiftr q (Zdigits2 q - 53) = 2 ^ 53 - 1).
    { rewrite Dq'. change (1024 - 53) with 971. rewrite Z.shiftr_div_pow2 by lia.
      symmetry. apply Z.div_unique with (q - (2 ^ 53 - 1) * 2 ^ 971).
      - left. split.
        + assert ((2 ^ 53 - 1) * 2 ^ 971 <= 2 ^ 1024 - 2 ^ 970) by (vm_compute; discriminate).
          lia.
        + assert (2 ^ 1024 = (2 ^ 53 - 1) * 2 ^ 971 + 2 ^ 971) by (vm_compute; reflexivity).
          lia.
      - lia. }
    assert (T1 : Z.testbit q (Zdigits2 q - 53 - 1) = true).
    { rewrite Dq'. change (1024 - 53 - 1) with 970.
      apply Z.testbit_true; [lia|].
      assert (E970 : q / 2 ^ 970 = 2 ^ 54 - 1).
      { symmetry. apply Z.div_unique with (q - (2 ^ 54 - 1) * 2 ^ 970).
        - left. split.
          + assert ((2 ^ 54 - 1) * 2 ^ 970 = 2 ^ 1024 - 2 ^ 970) by (vm_compute; reflexivity).
            lia.
          + assert (2 ^ 1024 = (2 ^ 54 - 1) * 2 ^ 970 + 2 ^ 970) by (vm_compute; reflexivity).
            lia.
        - lia. }
      rewrite E970. vm_compute. reflexivity. }
    rewrite (binary_round_aux_carry s q 0 (new_location 17 r) Hq) by (lia || assumption).
    rewrite Dq'. vm_compute. reflexivity.
Qed.

Lemma interp_fraction_overflow (p : Z) :
  p <= - overflow_row \/ overflow_row <= p ->
  interp_fraction p = Raise OverflowError.
Proof.
  intros H. pose proof overflow_row_large as L0.
  unfold interp_fraction, F64.int_truediv, MAX_ROW.
  change (17 =? 0) with false. cbv iota. change (Z.abs 17) with 17.
  rewrite (of_ratio_17_overflow _ (Z.abs p)) by lia. reflexivity.
Qed.

(** X3. For a target with a curve, [compute_mult] raises exactly on the
    rows whose quotient by 17 rounds beyond the largest float, which are
    the rows of absolute value at least 17 * (2^1024 - 2^970); the
    exception is [OverflowError]. On every other row it returns a number. *)
Theorem overflow_boundary (row : Z) (t : string) (c : curve) :
  lookup_name t CURVES = Some c ->
  (compute_mult row t = Raise OverflowError <->
   (row <= - overflow_row \/ overflow_row <= row)) /\
  (forall e, compute_mult row t = Raise e -> e = OverflowError) /\
  ((exists v, compute_mult row t = Ok (Some v)) <->
   - overflow_row < row < overflow_row).
Proof.
  intros Hc. split; [|split].
  - split.
    + intros H. apply (compute_mult_raises_overflow _ _ _ H).
    + intros H. unfold compute_mult. rewrite Hc.
      rewrite (interp_fraction_overflow row H). reflexivity.
  - intros e H. apply (compute_mult_raises_overflow _ _ _ H).
  - split.
    + intros [v H].
      destruct (Z_le_gt_dec row (- overflow_row)) as [A|A].
      { unfold compute_mult in H. rewrite Hc in H.
        rewrite (interp_fraction_overflow row (or_introl A)) in H. discriminate. }
      destruct (Z_le_gt_dec overflow_row row) as [B|B].
      { unfold compute_mult in H. rewrite Hc in H.
        rewrite (interp_fraction_overflow row (or_intror B)) in H. discriminate. }
      lia.
    + intros H. destruct (compute_mult_total row t c Hc H) as [x E]. eauto.
Qed.

Lemma overflow_boundary_witness :
  compute_mult (overflow_row - 1) "allIncome" <> Raise OverflowError /\
  compute_mult (- overflow_row) "allIncome" = Raise OverflowError.
Proof.
  assert (Hc : lookup_name "allIncome" CURVES = Some (F64.dec 1 2, F64.dec 3 2))
    by (vm_compute; reflexivity).
  split.
  - destruct (overflow_boundary (overflow_row - 1) "allIncome" _ Hc) as ([H _] & _).
    intros K. apply H in K. revert K. vm_compute.
    intros [K|K]; apply K; reflexivity.
  - destruct (overflow_boundary (- overflow_row) "allIncome" _ Hc) as ([_ H] & _).
    apply H. left. vm_compute. discriminate.
Defined.

(** ** The prestige-points coefficient *)

Lemma class_not_m (f : char -> bool) (l : text) :
  f (ch "m") = false -> forallb f l = true -> forallb not_m l = true.
Proof.
  intros Hm. induction l as [|c l IH]; [reflexivity|]. cbn [forallb].
  intros H. apply andb_prop in H as [H1 H2]. rewrite (IH H2), andb_true_r.
  unfold not_m. rewrite (class_excludes f (ch "m") c Hm H1). reflexivity.
Qed.

Lemma digit_not_m (l : text) : forallb is_digit l = true -> forallb not_m l = true.
Proof. apply class_not_m. reflexivity. Qed.

Lemma space_not_m (l : text) : forallb is_space l = true -> forallb not_m l = true.
Proof. apply class_not_m. reflexivity. Qed.

Ltac text_eq :=
  unfold paren, kw_coeff, tx; cbn [list_ascii_of_string map];
  repeat first [rewrite <- app_assoc | progress cbn [app]]; reflexivity.

Lemma match_unsigned_dot (d1 d2 r : text) :
  forallb is_digit d1 = true -> d1 <> [] -> forallb is_digit d2 = true ->
  match r with [] => True | c :: _ => is_digit c = false end ->
  match_unsigned (d1 ++ ch "." :: d2 ++ r) = Some (d1 ++ [ch "."] ++ d2, r).
Proof.
  intros D1 N1 D2 Hr. unfold match_unsigned.
  rewrite (span_all is_digit d1) by (exact D1 || reflexivity).
  destruct d1; [congruence|]. cbn [is_nil].
  rewrite char_eqb_refl. cbv iota.
  rewrite (span_all is_digit d2 r D2 Hr). reflexivity.
Qed.

Lemma match_unsigned_plain (d1 r : text) (c : char) :
  forallb is_digit d1 = true -> d1 <> [] ->
  is_digit c = false -> char_eqb c (ch ".") = false ->
  match_unsigned (d1 ++ c :: r) = Some (d1 ++ [] ++ [], c :: r).
Proof.
  intros D1 N1 Hc Hd. unfold match_unsigned.
  rewrite (span_all is_digit d1) by (exact D1 || exact Hc).
  destruct d1; [congruence|]. cbn [is_nil]. rewrite Hd.
  cbn [span]. rewrite Hc. reflexivity.
Qed.

(** A match of the number and the closing parenthesis is fixed by the
    characters it reads. *)
Lemma match_unsigned_paren (s lit s3 rest : text) :
  match_unsigned s = Some (lit, s3) -> strip paren s3 = Some rest ->
  s = lit ++ paren ++ rest /\ forallb not_m lit = true /\
  forall rest', match_unsigned (lit ++ paren ++ rest') = Some (lit, paren ++ rest').
Proof.
  intros H Hs. unfold match_unsigned in H.
  apply strip_spec in Hs. subst s3.
  destruct (span is_digit s) as [d1 s2] eqn:E1.
  pose proof (span_head _ _ _ _ E1) as Hh. apply span_spec in E1 as [-> D1].
  destruct (is_nil d1) eqn:N1; [discriminate|].
  assert (N1' : d1 <> []) by (intros ->; discriminate).
  destruct s2 as [|c s2].
  - destruct (span is_digit []) as [d2 s4] eqn:E2. cbn in E2.
    injection E2 as <- <-. injection H as _ K. discriminate.
  - destruct (char_eqb c (ch ".")) eqn:Ec.
    + apply char_eqb_eq in Ec. subst c.
      destruct (span is_digit s2) as [d2 s4] eqn:E2.
      apply span_spec in E2 as [-> D2].
      injection H as El Er. subst lit s4.
      split; [|split].
      * text_eq.
      * rewrite !forallb_app. cbn [forallb].
        rewrite (digit_not_m _ D1), (digit_not_m _ D2). reflexivity.
      * intros rest'. rewrite <- app_assoc.
        exact (match_unsigned_dot d1 d2 (paren ++ rest') D1 N1' D2 eq_refl).
    + destruct (span is_digit (c :: s2)) as [d2 s4] eqn:E2.
      cbn [span] in E2. rewrite Hh in E2. injection E2 as <- <-.
      injection H as El Er Es. subst lit c s2.
      split; [|split].
      * text_eq.
      * rewrite !forallb_app. cbn [forallb].
        rewrite (digit_not_m _ D1). reflexivity.
      * intros rest'. rewrite <- app_assoc.
        exact (match_unsigned_plain d1 rest' (ch ")") D1 N1' eq_refl eq_refl).
Qed.

(** A match starts with the letter m, has no other m, and is fixed by the
    characters it reads. *)
Lemma match_coeff_shape (s rest : text) :
  match_coeff s = Some rest ->
  exists b, s = ch "m" :: b ++ rest /\ forallb not_m b = true /\
            forall rest', match_coeff (ch "m" :: b ++ rest') = Some rest'.
Proof.
  unfold match_coeff. intros H.
  destruct (strip kw_coeff s) as [s1|] eqn:E1; [|discriminate].
  apply strip_spec in E1. subst s.
  destruct (span is_space s1) as [ws s2] eqn:E2.
  apply span_spec in E2 as [-> W].
  destruct (match_unsigned s2) as [[lit s3]|] eqn:E3; [|discriminate].
  destruct (match_unsigned_paren _ _ _ _ E3 H) as (-> & L & R).
  exists (tx "ul(prestige.points," ++ ws ++ lit ++ paren).
  split; [|split].
  - text_eq.
  - rewrite !forallb_app, (space_not_m _ W), L. reflexivity.
  - intros rest'.
    replace (ch "m" :: (tx "ul(prestige.points," ++ ws ++ lit ++ paren) ++ rest')
      with (kw_coeff ++ ws ++ lit ++ paren ++ rest')
      by text_eq.
    rewrite strip_app.
    assert (Hd : match lit ++ paren ++ rest' with
                 | [] => True | c :: _ => is_space c = false end).
    { pose proof (R rest') as R'. unfold match_unsigned in R'.
      destruct (lit ++ paren ++ rest') as [|c l]; [exact I|].
      cbn [span] in R'. destruct (is_digit c) eqn:Ed.
      - apply digit_not_space. exact Ed.
      - cbn in R'. discriminate. }
    rewrite (span_all is_space ws _ W Hd).
    rewrite R. apply strip_app.
Qed.

Lemma match_coeff_shorter (s rest : text) :
  match_coeff s = Some rest -> (length rest < length s)%nat.
Proof.
  intros H. destruct (match_coeff_shape _ _ H) as (b & -> & _).
  cbn [length]. rewrite length_app. lia.
Qed.

Lemma sub_coeff_from_enough (f1 f2 : nat) (s : text) :
  (length s <= f1)%nat -> (length s <= f2)%nat ->
  sub_coeff_from f1 s = sub_coeff_from f2 s.
Proof.
  revert f2 s. induction f1 as [|f1 IH]; intros f2 s H1 H2.
  - destruct s; [|cbn in H1; lia]. destruct f2; reflexivity.
  - destruct f2 as [|f2].
    + destruct s; [reflexivity|cbn in H2; lia].
    + cbn [sub_coeff_from]. destruct s as [|c s']; [reflexivity|].
      cbn [length] in H1, H2.
      destruct (match_coeff (c :: s')) as [rest|] eqn:E.
      * apply match_coeff_shorter in E. cbn [length] in E.
        f_equal. apply IH; lia.
      * f_equal. apply IH; lia.
Qed.

Lemma sub_coeff_nil : sub_coeff [] = [].
Proof. reflexivity. Qed.

Lemma sub_coeff_match (s rest : text) :
  match_coeff s = Some rest -> sub_coeff s = new_coeff ++ sub_coeff rest.
Proof.
  intros H. pose proof (match_coeff_shorter _ _ H) as L.
  unfold sub_coeff. destruct s as [|c s']; [cbn in L; lia|].
  cbn [length sub_coeff_from]. rewrite H. f_equal.
  cbn [length] in L. apply sub_coeff_from_enough; lia.
Qed.

Lemma sub_coeff_copy (c : char) (s' : text) :
  match_coeff (c :: s') = None -> sub_coeff (c :: s') = c :: sub_coeff s'.
Proof.
  intros H. unfold sub_coeff. cbn [length sub_coeff_from]. rewrite H. reflexivity.
Qed.

Lemma match_new_coeff (x : text) : match_coeff (new_coeff ++ x) = Some x.
Proof. vm_compute. reflexivity. Qed.

Lemma new_coeff_head : exists b, new_coeff = ch "m" :: b /\ forallb not_m b = true.
Proof. eexists. split; [reflexivity|]. vm_compute. reflexivity. Qed.

(** The substitution keeps the characters before the first m, and an m
    follows them in the result exactly when one does in the input. *)
Lemma sub_coeff_prefix (n : nat) (s : text) :
  (length s <= n)%nat ->
  exists pre tl tl',
    s = pre ++ tl /\ sub_coeff s = pre ++ tl' /\ forallb not_m pre = true /\
    ((tl = [] /\ tl' = []) \/
     (exists u u', tl = ch "m" :: u /\ tl' = ch "m" :: u')).
Proof.
  revert s. induction n as [|n IH]; intros s Hn.
  - destruct s; [|cbn in Hn; lia]. exists [], [], []. repeat split. now left.
  - destruct s as [|c s'].
    + exists [], [], []. repeat split. now left.
    + cbn [length] in Hn.
      destruct (match_coeff (c :: s')) as [rest|] eqn:E.
      * destruct (match_coeff_shape _ _ E) as (b & Es & _).
        destruct new_coeff_head as (nb & En & _).
        exists [], (c :: s'), (new_coeff ++ sub_coeff rest).
        rewrite (sub_coeff_match _ _ E). repeat split. right.
        injection Es as -> _. rewrite En. cbn [app]. eauto.
      * rewrite (sub_coeff_copy _ _ E).
        destruct (not_m c) eqn:Ec.
        -- destruct (IH s' ltac:(lia)) as (pre & tl & tl' & A & B & C & D).
           exists (c :: pre), tl, tl'. cbn [app forallb]. rewrite Ec, C.
           rewrite <- A, <- B. repeat split. exact D.
        -- exists [], (c :: s'), (c :: sub_coeff s'). repeat split. right.
           unfold not_m in Ec. apply negb_false_iff, char_eqb_eq in Ec. subst c.
           eauto.
Qed.

(** Where the input has no match, the result has none either. *)
Lemma no_new_match (c : char) (s' : text) :
  match_coeff (c :: s') = None -> match_coeff (c :: sub_coeff s') = None.
Proof.
  intros H. destruct (match_coeff (c :: sub_coeff s')) as [r|] eqn:E; [|reflexivity].
  exfalso.
  destruct (match_coeff_shape _ _ E) as (b & Es & Mb & R).
  injection Es as -> Eb.
  destruct (sub_coeff_prefix (length s') s' (le_n _))
    as (pre & tl & tl' & A & B & C & D).
  rewrite B in Eb.
  apply app_eq_app in Eb as [x [[E1 E2]|[E1 E2]]].
  - (* the match ends inside the kept prefix *)
    rewrite A, E1, <- app_assoc, R in H. discriminate.
  - (* the match would run over an m *)
    destruct x as [|cx x].
    + rewrite app_nil_r in E1. subst b.
      rewrite A, R in H. discriminate.
    + destruct D as [[_ ->]|(u & u' & _ & ->)]; [discriminate|].
      injection E2 as <- _. rewrite E1, forallb_app in Mb.
      apply andb_prop in Mb as [_ Mb]. cbn in Mb. discriminate.
Qed.

Lemma sub_coeff_idem_bounded (n : nat) (s : text) :
  (length s <= n)%nat -> sub_coeff (sub_coeff s) = sub_coeff s.
Proof.
  revert s. induction n as [|n IH]; intros s Hn.
  - destruct s; [reflexivity|cbn in Hn; lia].
  - destruct s as [|c s']; [reflexivity|]. cbn [length] in Hn.
    destruct (match_coeff (c :: s')) as [rest|] eqn:E.
    + rewrite (sub_coeff_match _ _ E).
      rewrite (sub_coeff_match _ _ (match_new_coeff _)).
      apply match_coeff_shorter in E. cbn [length] in E.
      rewrite IH by lia. reflexivity.
    + rewrite (sub_coeff_copy _ _ E).
      rewrite (sub_coeff_copy _ _ (no_new_match _ _ E)).
      rewrite IH by lia. reflexivity.
Qed.

(** X12. Patching the prestige-points coefficient twice gives the same
    file as patching it once. *)
Theorem coefficient_patch_idempotent (c : text) :
  sub_coeff (sub_coeff c) = sub_coeff c.
Proof. apply (sub_coeff_idem_bounded (length c)). lia. Qed.

Lemma fixed_point_matches (n : nat) (t : text) :
  (length t <= n)%nat -> sub_coeff t = t ->
  forall k r, match_coeff (drop k t) = Some r ->
  exists r', drop k t = new_coeff ++ r'.
Proof.
  revert t. induction n as [|n IH]; intros t Hn Hf k r Hm.
  - destruct t; [|cbn in Hn; lia]. rewrite drop_nil in Hm. discriminate.
  - destruct t as [|c t']; [rewrite drop_nil in Hm; discriminate|].
    cbn [length] in Hn.
    destruct (match_coeff (c :: t')) as [rest|] eqn:E.
    + pose proof (sub_coeff_match _ _ E) as S1. rewrite Hf in S1.
      pose proof E as E'. rewrite S1, match_new_coeff in E'.
      injection E' as E'.
      pose proof (match_coeff_shorter _ _ E) as Ls. cbn [length] in Ls.
      destruct (Nat.lt_ge_cases k (length new_coeff)) as [Lk|Lk].
      * destruct k as [|k].
        -- rewrite drop_0. rewrite S1. eauto.
        -- exfalso. rewrite S1 in Hm. rewrite drop_app_le in Hm by lia.
           destruct (match_coeff_shape _ _ Hm) as (b & Eb & _).
           destruct new_coeff_head as (nb & En & Mn).
           rewrite En in Eb, Lk. cbn [drop length] in Eb, Lk.
           assert (Hk : (k < length nb)%nat) by lia.
           destruct (lookup_lt_is_Some_2 nb k Hk) as [x Hx].
           rewrite (drop_S _ _ _ Hx) in Eb. injection Eb as -> _.
           apply list_elem_of_lookup_2 in Hx.
           rewrite forallb_forall in Mn.
           apply list_elem_of_In in Hx. apply Mn in Hx. discriminate.
      * rewrite S1 in Hm |- *. rewrite drop_app_ge in Hm |- * by lia.
        rewrite E' in Hm |- *. eapply (IH rest); [lia|exact E'|exact Hm].
    + pose proof (sub_coeff_copy _ _ E) as S1. rewrite Hf in S1.
      injection S1 as S1. symmetry in S1.
      destruct k as [|k].
      * rewrite drop_0 in Hm. congruence.
      * cbn [drop] in *. eapply (IH t'); [lia|exact S1|exact Hm].
Qed.

(** X13. After the patch every call the pattern recognises, at whatever
    position of the file, is the call with the coefficient 0.0003. *)
Theorem patched_coefficients (c : text) (k : nat) (r : text) :
  match_coeff (drop k (sub_coeff c)) = Some r ->
  exists r', drop k (sub_coeff c) = new_coeff ++ r'.
Proof.
  apply (fixed_point_matches (length (sub_coeff c))); [lia|].
  apply (sub_coeff_idem_bounded (length c)). lia.
Qed.

Lemma patched_coefficients_witness :
  match_coeff (drop 50 (sub_coeff coeff_doc)) = Some [] /\
  exists r', drop 50 (sub_coeff coeff_doc) = new_coeff ++ r'.
Proof.
  split; [vm_compute; reflexivity|].
  apply (patched_coefficients coeff_doc 50%nat []). vm_compute. reflexivity.
Defined.

(** ** The perk descriptions *)

Lemma replace_first_spec (old new s : text) :
  contains old s = true ->
  exists pre post,
    s = pre ++ old ++ post /\
    replace_first old new s = pre ++ new ++ post /\
    forall j, (j < length pre)%nat -> strip old (drop j s) = None.
Proof.
  induction s as [|c s IH]; cbn [contains replace_first].
  - destruct (strip old []) as [r|] eqn:E; [|discriminate].
    intros _. exists [], r. apply strip_spec in E.
    cbn [app length]. repeat split; [exact E|]. intros j Hj. lia.
  - destruct (strip old (c :: s)) as [r|] eqn:E.
    + intros _. exists [], r. apply strip_spec in E.
      cbn [app length]. repeat split; [exact E|]. intros j Hj. lia.
    + intros H. destruct (IH H) as (pre & post & S1 & R1 & N1).
      exists (c :: pre), post. cbn [app length]. rewrite R1.
      split; [rewrite S1 at 1; reflexivity|]. split; [reflexivity|].
      intros [|j] Hj; [exact E|]. cbn [drop]. apply N1. lia.
Qed.

Lemma perk_desc_step_cases (lines : list text) (cur : option text) (i : nat)
    (lines' : list text) (cur' : option text) :
  perk_desc_step (lines, cur) i = Ok (lines', cur') ->
  (i < length lines)%nat /\
  (lines' = lines \/
   exists line id old new,
     lines !! i = Some line /\
     lookup_name id PERK_DESC_FIXES = Some (old, new) /\
     contains kw_description line = true /\
     contains (tx old) line = true /\
     lines' = <[ i := replace_first (tx old) (tx new) line ]> lines).
Proof.
  unfold perk_desc_step.
  destruct (lines !! i) as [line|] eqn:El; [|discriminate].
  split; [apply lookup_lt_Some in El; exact El|]. revert H.
  destruct (match search_id line with Some g => Some g | None => cur end) as [id|];
    [|intros [= <- <-]; left; reflexivity].
  destruct (lookup_name (target_name id) PERK_DESC_FIXES) as [[old new]|] eqn:L;
    [|intros [= <- <-]; left; reflexivity].
  destruct (contains kw_description line) eqn:C1; cbn [andb];
    [|intros [= <- <-]; left; reflexivity].
  destruct (contains (tx old) line) eqn:C2;
    [|intros [= <- <-]; left; reflexivity].
  intros [= <- <-]. right. exists line, (target_name id), old, new.
  repeat split; assumption.
Qed.

Lemma perk_desc_step_ok (lines : list text) (cur : option text) (i : nat) :
  (i < length lines)%nat ->
  exists st, perk_desc_step (lines, cur) i = Ok st.
Proof.
  intros Hi. destruct (lookup_lt_is_Some_2 lines i Hi) as [line Hl].
  unfold perk_desc_step. rewrite Hl.
  destruct (match search_id line with Some g => Some g | None => cur end) as [id|];
    [|eauto].
  destruct (lookup_name (target_name id) PERK_DESC_FIXES) as [[old new]|]; [|eauto].
  destruct (contains kw_description line && contains (tx old) line); eauto.
Qed.

Lemma perk_desc_step_frame (lines : list text) (cur : option text) (i : nat)
    (lines' : list text) (cur' : option text) :
  perk_desc_step (lines, cur) i = Ok (lines', cur') ->
  length lines' = length lines /\
  (forall k, k <> i -> lines' !! k = lines !! k) /\
  (forall l, lines !! i = Some l ->
             exists l', lines' !! i = Some l' /\ description_fixed l l').
Proof.
  intros H. destruct (perk_desc_step_cases _ _ _ _ _ H)
    as [Hi [->|(line & id & old & new & El & L & C1 & C2 & ->)]].
  - split; [reflexivity|]. split; [reflexivity|].
    intros l E. exists l. split; [exact E|]. left. reflexivity.
  - split; [apply length_insert|]. split.
    + intros k N. apply list_lookup_insert_ne. congruence.
    + intros l E. rewrite El in E. injection E as ->.
      eexists. split; [apply list_lookup_insert_eq; exact Hi|].
      right. split; [exact C1|].
      destruct (replace_first_spec (tx old) (tx new) l C2) as (pre & post & S1 & R1 & N1).
      exists id, old, new, pre, post. apply lookup_name_In in L.
      repeat split; assumption.
Qed.

Lemma perk_desc_run_frame (n a : nat) (lines : list text) (cur : option text) :
  (a + n <= length lines)%nat ->
  exists lines' cur',
    perk_desc_run (lines, cur) (seq a n) = Ok (lines', cur') /\
    length lines' = length lines /\
    (forall k, (k < a \/ a + n <= k)%nat -> lines' !! k = lines !! k) /\
    (forall k l, (a <= k < a + n)%nat -> lines !! k = Some l ->
                 exists l', lines' !! k = Some l' /\ description_fixed l l').
Proof.
  revert a lines cur. induction n as [|n IH]; intros a lines cur Ha;
    cbn [seq perk_desc_run].
  - exists lines, cur. split; [reflexivity|]. split; [reflexivity|].
    split; [reflexivity|]. intros k l Hk. lia.
  - destruct (perk_desc_step_ok lines cur a) as [[l1 c1] E]; [lia|].
    rewrite E. cbn [bind].
    destruct (perk_desc_step_frame _ _ _ _ _ E) as (L1 & F1 & V1).
    destruct (IH (S a) l1 c1) as (l2 & c2 & R & L2 & F2 & V2); [lia|].
    exists l2, c2. split; [exact R|]. split; [congruence|]. split.
    + intros k Hk. rewrite F2 by lia. apply F1. lia.
    + intros k l Hk El. destruct (Nat.eq_dec k a) as [->|N].
      * rewrite F2 by lia. apply V1. exact El.
      * apply V2; [lia|]. rewrite F1 by exact N. exact El.
Qed.

(** X11. The description pass over perks.ts never raises and returns as
    many lines as it was given. Every line comes back as it was, or is a
    line with [description:] in which the first occurrence of the old phrase
    of a perk of [PERK_DESC_FIXES] has been replaced by its new phrase,
    with the text before and after it kept. *)
Theorem perk_descriptions_frame (lines : list text) :
  exists lines',
    fix_perk_descriptions lines = Ok lines' /\
    length lines' = length lines /\
    forall k l, lines !! k = Some l ->
                exists l', lines' !! k = Some l' /\ description_fixed l l'.
Proof.
  unfold fix_perk_descriptions.
  destruct (perk_desc_run_frame (length lines) 0 lines None (le_n _))
    as (l2 & c2 & R & L & _ & V).
  rewrite R. cbn [bind fst]. exists l2. split; [reflexivity|]. split; [exact L|].
  intros k l El. apply V; [|exact El]. apply lookup_lt_Some in El. lia.
Qed.

Lemma perk_doc_fixed : fix_perk_descriptions perk_doc = Ok perk_doc_out.
Proof. vm_compute. reflexivity. Qed.
